(** * ManiSkill2: episode controller, observation pipeline, state codec
      and sensor rig

    A shallow embedding of [mani_skill2/envs/sapien_env.py] (class [BaseEnv]),
    [mani_skill2/sensors/camera.py] ([CameraConfig],
    [update_camera_cfgs_from_dict], [parse_camera_cfgs], [Camera]) and
    [mani_skill2/vector/__init__.py] ([make]).

    Conventions.
    - Python exceptions are the [Raise] branch of [result]; a method that
      mutates [self] returns the new object.
    - Engine floats are rationals ([scalar]): the code embedded here only
      moves them around and writes zeros, it never computes with them.
    - The physics/rendering engine, the agent abstraction and the task
      hooks are collaborators of the controller; they are records of
      functions ([Engine], [AgentModel], [TaskHooks]).
    - numpy's [RandomState] is a parameter: a type [rng] with the seeding
      function and the [randint] draw.
    - The renderer behind a camera and the image helpers of [render] are
      collaborators too ([Renderer], [Visualization]); [make] returns the
      arguments it builds the vectorized environment from. *)

From Stdlib Require Import QArith.
From stdpp Require Import base option strings gmap numbers list.
Local Open Scope Z_scope.
Set Warnings "-register-all".

(** ** Exceptions and the error monad *)

Inductive Exception :=
  | NotImplementedError (msg : string)
  | RuntimeError (msg : string)
  | AssertionError (msg : string)
  | KeyError (key : string)
  | TypeError
  | ValueError
  | AttributeError
  | ZeroDivisionError.

Inductive result (A : Type) :=
  | Ok (a : A)
  | Raise (e : Exception).
Arguments Ok {A} a.
Arguments Raise {A} e.

#[global] Instance result_ret : MRet result := @Ok.
#[global] Instance result_bind : MBind result :=
  λ A B f m, match m with Ok a => f a | Raise e => Raise e end.

Definition is_Ok {A} (r : result A) : Prop := ∃ a, r = Ok a.
Definition raises {A} (r : result A) : Prop := ∃ e, r = Raise e.

(** [x.attr] on an attribute that may hold [None]. *)
Definition not_None {A} (o : option A) : result A :=
  match o with Some a => Ok a | None => Raise AttributeError end.

(** A loop whose body may raise: [for x in xs: acc = body(acc, x)]. *)
Fixpoint for_each {A S} (body : S → A → result S) (xs : list A) (acc : S)
  : result S :=
  match xs with
  | [] => Ok acc
  | x :: xs' => acc' ← body acc x; for_each body xs' acc'
  end.

(** [for _ in range(n)] on a state, [range] of a non-positive number being
    empty. *)
Definition for_range {S} (n : Z) (body : S → result S) (acc : S) : result S :=
  for_each (λ s (_ : unit), body s) (replicate (Z.to_nat n) ()) acc.

(** ** Dynamically typed values (configuration attributes) *)

Inductive pyval :=
  | PyNone
  | PyBool (b : bool)
  | PyInt (z : Z)
  | PyFloat (x : Q)
  | PyStr (s : string)
  | PySeq (xs : list pyval)
  | PyDict (kv : list (string * pyval)).

(** ** Ordered dictionaries with string keys

    Python dictionaries iterate in insertion order; assigning an existing key
    keeps its position. *)

Definition odict (V : Type) := list (string * V).

Fixpoint odict_get {V} (d : odict V) (k : string) : option V :=
  match d with
  | [] => None
  | (k', v) :: d' => if decide (k' = k) then Some v else odict_get d' k
  end.

Definition odict_has {V} (d : odict V) (k : string) : bool :=
  bool_decide (is_Some (odict_get d k)).

Fixpoint odict_set {V} (d : odict V) (k : string) (v : V) : odict V :=
  match d with
  | [] => [(k, v)]
  | (k', v') :: d' =>
      if decide (k' = k) then (k, v) :: d' else (k', v') :: odict_set d' k v
  end.

Definition odict_update {V} (d other : odict V) : odict V :=
  foldl (λ acc kv, odict_set acc kv.1 kv.2) d other.

Fixpoint odict_pop {V} (d : odict V) (k : string) : result (V * odict V) :=
  match d with
  | [] => Raise (KeyError k)
  | (k', v) :: d' =>
      if decide (k' = k) then Ok (v, d')
      else '(x, d'') ← odict_pop d' k; Ok (x, (k', v) :: d'')
  end.

Definition odict_keys {V} (d : odict V) : list string := d.*1.
Definition odict_values {V} (d : odict V) : list V := d.*2.

(** ** Arrays and observation records *)

Record ndarray (A : Type) := mk_ndarray { shape : list nat; data : list A }.
Arguments mk_ndarray {A} shape data.
Arguments shape {A} n.
Arguments data {A} n.

Definition scalar := Q.

Inductive tensor :=
  | Floats (a : ndarray scalar)
  | UInts (a : ndarray Z).

Inductive Obs :=
  | OArr (t : tensor)
  | ODict (d : list (string * Obs)).

(** ** The engine's scene graph *)

Record Vec3 := vec3 { vx : scalar; vy : scalar; vz : scalar }.
Record Quat := quat { qw : scalar; qx : scalar; qy : scalar; qz : scalar }.
Record Pose := mkPose { pose_p : Vec3; pose_q : Quat }.

Definition zero3 : Vec3 := vec3 0%Q 0%Q 0%Q.

Inductive ActorType := static | kinematic | dynamic.

Record Actor := mkActor {
  actor_name : string;
  actor_id : Z;
  actor_type : ActorType;
  actor_pose : Pose;
  actor_velocity : Vec3;
  actor_angular_velocity : Vec3 }.

Record Link := mkLink { link_name : string; link_id : Z }.

(** One [(qpos, qvel)] pair per degree of freedom. *)
Record Articulation := mkArticulation {
  articulation_name : string;
  links : list Link;
  root_pose : Pose;
  root_velocity : Vec3;
  root_angular_velocity : Vec3;
  joints : list (scalar * scalar) }.

Definition dof (a : Articulation) : nat := length (joints a).
Definition get_qpos (a : Articulation) : list scalar := (joints a).*1.
Definition get_qvel (a : Articulation) : list scalar := (joints a).*2.

(** Engine handles. The scene never removes a body (nothing in the embedded
    code does), so a handle is the body's position in the scene's list; a
    link is addressed through its articulation. *)
Abbreviation ActorHandle := nat (only parsing).
Abbreviation ArticulationHandle := nat (only parsing).

Inductive MountRef :=
  | FreeActor (h : ActorHandle)
  | LinkOf (a : ArticulationHandle) (l : nat).

Record CameraEntity := mkCameraEntity {
  cam_name : pyval;
  cam_mount : option MountRef;
  cam_pose : pyval * pyval;
  cam_width : pyval;
  cam_height : pyval;
  cam_fov : pyval;
  cam_near : pyval;
  cam_far : pyval }.

Inductive Light :=
  | AmbientLight
  | DirectionalLight (shadow : bool).

Record World := mkWorld {
  all_actors : list Actor;
  all_articulations : list Articulation }.

(** [sim_ticks] counts the physics ticks the engine has run on the scene. *)
Record Scene := mkScene {
  world : World;
  scene_cameras : list CameraEntity;
  scene_lights : list Light;
  scene_timestep : Q;
  sim_ticks : nat }.

(** ** Camera configuration ([sensors/camera.py]) *)

(** A [CameraConfig] is its instance dictionary. Class-level names (the
    [pose] property, methods) are not configuration attributes and are left
    out of [hasattr]. *)
Record CameraConfig := mkCameraConfig { __dict__ : gmap string pyval }.

(** ** The agent abstraction *)

Record AgentConfig := mkAgentConfig { cameras : odict CameraConfig }.

Record Agent := mkAgent {
  control_mode : string;
  robot_link_ids : list Z;
  agent_action : option (list scalar);
  action_space : list nat }.

(** What task code and the agent may touch: the bodies, the agent and the
    task's own episode data (goals and the like). *)
Record Sim := mkSim {
  sim_world : World;
  sim_agent : option Agent;
  sim_task : odict tensor }.

(** ** Runtime camera *)

Record Camera := mkCamera {
  camera_cfg : CameraConfig;
  renderer_type : string;
  actor : option MountRef;
  camera : CameraEntity;
  texture_names : pyval }.

(** ** Environment object *)

Inductive Warning :=
  | OnlyRgbSupportedByKuafu
  | NotDivisible (sim_freq control_freq : Z).

Inductive Space :=
  | Box (shp : list nat)
  | DictSpace (d : list (string * Space)).

(** [_enable_gt_seg] and [_enable_kuafu] are attributes the observation code
    reads. No line of the embedded files assigns them, the constructor
    included, so they are optional here: [None] is an attribute that was
    never assigned, and reading it raises [AttributeError]. *)
Record EnvConfig := mkEnvConfig {
  _renderer_type : string;
  _sim_freq : Z;
  _control_freq : Z;
  _sim_steps_per_control : Z;
  _obs_mode : string;
  _reward_mode : string;
  _control_mode : option string;
  _agent_cfg : option AgentConfig;
  _camera_cfgs : odict CameraConfig;
  enable_shadow : bool;
  _enable_gt_seg : option bool;
  _enable_kuafu : option bool }.

Record SeedPair (rng : Type) := mkSeedPair {
  _main_seed : option Z;
  _main_rng : option rng;
  _episode_seed : option Z;
  _episode_rng : option rng }.
Arguments mkSeedPair {rng}.
Arguments _main_seed {rng}.
Arguments _main_rng {rng}.
Arguments _episode_seed {rng}.
Arguments _episode_rng {rng}.

Record Env (rng : Type) := mkEnv {
  config : EnvConfig;
  seeds : SeedPair rng;
  _elapsed_steps : Z;
  _scene : option Scene;
  agent : option Agent;
  task_data : odict tensor;
  _cameras : odict Camera;
  _actors : list ActorHandle;
  _articulations : list ArticulationHandle;
  _viewer : bool;
  warnings : list Warning;
  observation_space : option Space;
  env_action_space : option (list nat) }.
Arguments mkEnv {rng}.
Arguments config {rng}.
Arguments seeds {rng}.
Arguments _elapsed_steps {rng}.
Arguments _scene {rng}.
Arguments agent {rng}.
Arguments task_data {rng}.
Arguments _cameras {rng}.
Arguments _actors {rng}.
Arguments _articulations {rng}.
Arguments _viewer {rng}.
Arguments warnings {rng}.
Arguments observation_space {rng}.
Arguments env_action_space {rng}.

(** Field updates ([self.x = v]). *)
Section EnvUpdates.
Context {rng : Type}.
Implicit Type self : Env rng.

Definition set_seeds self (x : SeedPair rng) : Env rng :=
  mkEnv (config self) x (_elapsed_steps self) (_scene self) (agent self)
    (task_data self) (_cameras self) (_actors self) (_articulations self)
    (_viewer self) (warnings self) (observation_space self)
    (env_action_space self).

Definition set_elapsed_steps self (x : Z) : Env rng :=
  mkEnv (config self) (seeds self) x (_scene self) (agent self)
    (task_data self) (_cameras self) (_actors self) (_articulations self)
    (_viewer self) (warnings self) (observation_space self)
    (env_action_space self).

Definition set_scene self (x : option Scene) : Env rng :=
  mkEnv (config self) (seeds self) (_elapsed_steps self) x (agent self)
    (task_data self) (_cameras self) (_actors self) (_articulations self)
    (_viewer self) (warnings self) (observation_space self)
    (env_action_space self).

Definition set_agent self (x : option Agent) : Env rng :=
  mkEnv (config self) (seeds self) (_elapsed_steps self) (_scene self) x
    (task_data self) (_cameras self) (_actors self) (_articulations self)
    (_viewer self) (warnings self) (observation_space self)
    (env_action_space self).

Definition set_task_data self (x : odict tensor) : Env rng :=
  mkEnv (config self) (seeds self) (_elapsed_steps self) (_scene self)
    (agent self) x (_cameras self) (_actors self) (_articulations self)
    (_viewer self) (warnings self) (observation_space self)
    (env_action_space self).

Definition set_cameras self (x : odict Camera) : Env rng :=
  mkEnv (config self) (seeds self) (_elapsed_steps self) (_scene self)
    (agent self) (task_data self) x (_actors self) (_articulations self)
    (_viewer self) (warnings self) (observation_space self)
    (env_action_space self).

Definition set_snapshot self (xs : list ActorHandle)
    (ys : list ArticulationHandle) : Env rng :=
  mkEnv (config self) (seeds self) (_elapsed_steps self) (_scene self)
    (agent self) (task_data self) (_cameras self) xs ys
    (_viewer self) (warnings self) (observation_space self)
    (env_action_space self).

Definition set_viewer self (x : bool) : Env rng :=
  mkEnv (config self) (seeds self) (_elapsed_steps self) (_scene self)
    (agent self) (task_data self) (_cameras self) (_actors self)
    (_articulations self) x (warnings self) (observation_space self)
    (env_action_space self).

Definition set_spaces self (o : option Space) (a : option (list nat))
  : Env rng :=
  mkEnv (config self) (seeds self) (_elapsed_steps self) (_scene self)
    (agent self) (task_data self) (_cameras self) (_actors self)
    (_articulations self) (_viewer self) (warnings self) o a.
End EnvUpdates.

Definition set_world (s : Scene) (w : World) : Scene :=
  mkScene w (scene_cameras s) (scene_lights s) (scene_timestep s) (sim_ticks s).

(** ** StateCodec: [get_sim_state] / [set_sim_state] *)

Definition vec3_list (v : Vec3) : list scalar := [vx v; vy v; vz v].
Definition quat_list (q : Quat) : list scalar := [qw q; qx q; qy q; qz q].

(** The 13 kinematic values [pos, quat, lin_vel, ang_vel]. *)
Definition kinematic_state (p : Pose) (v w : Vec3) : list scalar :=
  vec3_list (pose_p p) ++ quat_list (pose_q p) ++ vec3_list v ++ vec3_list w.

Definition read_kinematic (state : list scalar)
  : option (Pose * Vec3 * Vec3 * list scalar) :=
  match state with
  | x :: y :: z :: w :: a :: b :: c :: v1 :: v2 :: v3 :: w1 :: w2 :: w3 :: rest =>
      Some (mkPose (vec3 x y z) (quat w a b c), vec3 v1 v2 v3, vec3 w1 w2 w3, rest)
  | _ => None
  end.

(** Modelled from the spec: [get_actor_state] lives in
    [mani_skill2.utils.sapien_utils], which is not among the sources. The
    data model gives an actor a 13-wide segment: position 3, orientation 4,
    linear velocity 3, angular velocity 3. *)
Definition get_actor_state (a : Actor) : list scalar :=
  kinematic_state (actor_pose a) (actor_velocity a) (actor_angular_velocity a).

(** Modelled from the spec: [get_articulation_state] (same missing module):
    the 13-wide root segment, then the joint positions, then the joint
    velocities. *)
Definition get_articulation_state (a : Articulation) : list scalar :=
  kinematic_state (root_pose a) (root_velocity a) (root_angular_velocity a)
  ++ get_qpos a ++ get_qvel a.

(** Modelled from the spec: [set_actor_state] (same missing module), the
    inverse of [get_actor_state] on a 13-wide segment. What it does with a
    segment of another width is not described; the model rejects it. *)
Definition set_actor_state (a : Actor) (state : list scalar) : result Actor :=
  match read_kinematic state with
  | Some (p, v, w, []) =>
      Ok (mkActor (actor_name a) (actor_id a) (actor_type a) p v w)
  | _ => Raise ValueError
  end.

(** Modelled from the spec: [set_articulation_state] (same missing module),
    the inverse of [get_articulation_state] on a segment of width
    [13 + 2 * dof]; other widths are rejected as for actors. *)
Definition set_articulation_state (a : Articulation) (state : list scalar)
  : result Articulation :=
  match read_kinematic state with
  | Some (p, v, w, rest) =>
      if decide (length rest = (2 * dof a)%nat)
      then Ok (mkArticulation (articulation_name a) (links a) p v w
                 (zip (take (dof a) rest) (drop (dof a) rest)))
      else Raise ValueError
  | None => Raise ValueError
  end.

(** [np.hstack] of one-dimensional arrays; it refuses an empty list. *)
Definition hstack (arrays : list (list scalar)) : result (list scalar) :=
  match arrays with
  | [] => Raise ValueError
  | _ => Ok (concat arrays)
  end.

(** [state[start : stop]]: slicing past the end truncates silently. *)
Definition slice {A} (l : list A) (start stop : nat) : list A :=
  take (stop - start) (drop start l).

(** Following a handle into the scene. *)
Definition world_actor (w : World) (h : ActorHandle) : result Actor :=
  match all_actors w !! h with
  | Some a => Ok a
  | None => Raise (RuntimeError "invalid actor handle")
  end.

Definition world_articulation (w : World) (h : ArticulationHandle)
  : result Articulation :=
  match all_articulations w !! h with
  | Some a => Ok a
  | None => Raise (RuntimeError "invalid articulation handle")
  end.

Definition put_actor (w : World) (h : ActorHandle) (a : Actor) : World :=
  mkWorld (<[h := a]> (all_actors w)) (all_articulations w).

Definition put_articulation (w : World) (h : ArticulationHandle)
    (a : Articulation) : World :=
  mkWorld (all_actors w) (<[h := a]> (all_articulations w)).

Definition KINEMANTIC_DIM : nat := 13.

(** The two loops of [set_sim_state], threading [start]. *)
Definition set_actor_states (state : list scalar)
  : list ActorHandle → World * nat → result (World * nat) :=
  for_each
    (λ '(w, start) actor,
       a ← world_actor w actor;
       a' ← set_actor_state a (slice state start (start + KINEMANTIC_DIM));
       Ok (put_actor w actor a', start + KINEMANTIC_DIM)%nat).

Definition set_articulation_states (state : list scalar)
  : list ArticulationHandle → World * nat → result (World * nat) :=
  for_each
    (λ '(w, start) articulation,
       a ← world_articulation w articulation;
       let ndim := (KINEMANTIC_DIM + 2 * dof a)%nat in
       a' ← set_articulation_state a (slice state start (start + ndim));
       Ok (put_articulation w articulation a', start + ndim)%nat).

Section StateCodec.
Context {rng : Type}.
Implicit Type self : Env rng.

Definition get_sim_state self : result (list scalar) :=
  scene ← not_None (_scene self);
  state ← for_each
    (λ state actor,
       a ← world_actor (world scene) actor; Ok (state ++ [get_actor_state a]))
    (_actors self) [];
  state ← for_each
    (λ state articulation,
       a ← world_articulation (world scene) articulation;
       Ok (state ++ [get_articulation_state a]))
    (_articulations self) state;
  hstack state.

Definition set_sim_state self (state : list scalar) : result (Env rng) :=
  scene ← not_None (_scene self);
  '(w, start) ← set_actor_states state (_actors self) (world scene, 0%nat);
  '(w, _) ← set_articulation_states state (_articulations self) (w, start);
  Ok (set_scene self (Some (set_world scene w))).

Definition get_state self := get_sim_state self.
Definition set_state self (state : list scalar) := set_sim_state self state.
End StateCodec.

(** ** SensorRig: camera configuration ([sensors/camera.py]) *)

Definition CameraConfig_init
    (uuid p q width height fov near far : pyval)
    (articulation_uuid actor_uuid : pyval) (texture_names : pyval)
  : CameraConfig :=
  mkCameraConfig
    (<["texture_names" := texture_names]>
    (<["actor_uuid" := actor_uuid]>
    (<["articulation_uuid" := articulation_uuid]>
    (<["far" := far]> (<["near" := near]> (<["fov" := fov]>
    (<["height" := height]> (<["width" := width]>
    (<["q" := q]> (<["p" := p]> (<["uuid" := uuid]> ∅))))))))))).

(** Defaults of the optional constructor arguments. *)
Definition default_texture_names : pyval :=
  PySeq [PyStr "Color"; PyStr "Position"].

Definition hasattr (cfg : CameraConfig) (k : string) : bool :=
  bool_decide (is_Some (__dict__ cfg !! k)).

Definition getattr (cfg : CameraConfig) (k : string) : result pyval :=
  match __dict__ cfg !! k with
  | Some v => Ok v
  | None => Raise AttributeError
  end.

Definition setattr (cfg : CameraConfig) (k : string) (v : pyval)
  : CameraConfig :=
  mkCameraConfig (<[k := v]> (__dict__ cfg)).

(** [cfg.__dict__.update(v)] *)
Definition dict_update (cfg : CameraConfig) (kv : list (string * pyval))
  : CameraConfig :=
  mkCameraConfig (foldl (λ d e, <[e.1 := e.2]> d) (__dict__ cfg) kv).

Definition not_valid_attribute (k : string) : Exception :=
  AssertionError (k +:+ " is not a valid attribute of CameraConfig").

(** A loop that mutates objects in place: when the body raises, what it had
    already changed stays changed, so the state comes back together with the
    exception. *)
Fixpoint for_each_inplace {A S} (body : S → A → S * option Exception)
    (xs : list A) (s : S) : S * option Exception :=
  match xs with
  | [] => (s, None)
  | x :: xs' =>
      match body s x with
      | (s', None) => for_each_inplace body xs' s'
      | (s', Some e) => (s', Some e)
      end
  end.

(** [for cfg in camera_cfgs.values(): assert hasattr(cfg, k); setattr(cfg, k, v)] *)
Fixpoint apply_global (k : string) (v : pyval) (camera_cfgs : odict CameraConfig)
  : odict CameraConfig * option Exception :=
  match camera_cfgs with
  | [] => ([], None)
  | (name, cfg) :: rest =>
      if hasattr cfg k then
        let '(rest', e) := apply_global k v rest in
        ((name, setattr cfg k v) :: rest', e)
      else ((name, cfg) :: rest, Some (not_valid_attribute k))
  end.

(** The keys a camera-specific value is iterated over ([for kk in v]) and the
    items [dict.update] takes from it. A dictionary gives its items, an empty
    sequence or string gives nothing, anything else cannot be used here. *)
Definition block_items (v : pyval) : result (list (string * pyval)) :=
  match v with
  | PyDict kv => Ok kv
  | PySeq [] => Ok []
  | PyStr "" => Ok []
  | _ => Raise TypeError
  end.

Definition apply_camera (name : string) (v : pyval)
    (camera_cfgs : odict CameraConfig) : odict CameraConfig * option Exception :=
  match odict_get camera_cfgs name with
  | None => (camera_cfgs, None)
  | Some cfg =>
      match block_items v with
      | Raise e => (camera_cfgs, Some e)
      | Ok kv =>
          match find (λ kk, negb (hasattr cfg kk)) kv.*1 with
          | Some kk => (camera_cfgs, Some (not_valid_attribute kk))
          | None => (odict_set camera_cfgs name (dict_update cfg kv), None)
          end
      end
  end.

(** First loop of [update_camera_cfgs_from_dict]: global configuration. *)
Definition global_phase (cfg_dict : odict pyval) (camera_cfgs : odict CameraConfig)
  : odict CameraConfig * option Exception :=
  for_each_inplace
    (λ cfgs '(k, v), if odict_has cfgs k then (cfgs, None) else apply_global k v cfgs)
    cfg_dict camera_cfgs.

(** Second loop: camera-specific configuration. *)
Definition camera_phase (cfg_dict : odict pyval) (camera_cfgs : odict CameraConfig)
  : odict CameraConfig * option Exception :=
  for_each_inplace
    (λ cfgs '(name, v), apply_camera name v cfgs)
    cfg_dict camera_cfgs.

Definition update_camera_cfgs_from_dict
    (camera_cfgs : odict CameraConfig) (cfg_dict : odict pyval)
  : odict CameraConfig * option Exception :=
  match global_phase cfg_dict camera_cfgs with
  | (cfgs, Some e) => (cfgs, Some e)
  | (cfgs, None) => camera_phase cfg_dict cfgs
  end.

(** ** SensorRig: runtime cameras *)

(** Modelled from the spec: [get_entity_by_name] lives in
    [mani_skill2.utils.sapien_utils], which is not among the sources. It
    looks an entity up by name and gives [None] when there is none, which is
    what the test in [get_mount_actor] expects. With several matches the
    model takes the first. *)
Definition get_entity_by_name {E} (entities : list (string * E)) (name : pyval)
  : option E :=
  match name with
  | PyStr s => snd <$> find (λ e, bool_decide (e.1 = s)) entities
  | _ => None
  end.

Definition get_all_actors (scene : Scene) : list ActorHandle :=
  seq 0 (length (all_actors (world scene))).

Definition get_all_articulations (scene : Scene) : list ArticulationHandle :=
  seq 0 (length (all_articulations (world scene))).

Definition named_actors (scene : Scene) : list (string * ActorHandle) :=
  imap (λ h a, (actor_name a, h)) (all_actors (world scene)).

Definition named_articulations (scene : Scene)
  : list (string * (ArticulationHandle * Articulation)) :=
  imap (λ h a, (articulation_name a, (h, a))) (all_articulations (world scene)).

Definition named_links (a : Articulation) : list (string * nat) :=
  imap (λ i l, (link_name l, i)) (links a).

Definition get_mount_actor (scene : Scene) (articulation_uuid actor_uuid : pyval)
  : result (option MountRef) :=
  match actor_uuid with
  | PyNone => Ok None
  | _ =>
      match articulation_uuid with
      | PyNone =>
          Ok (FreeActor <$> get_entity_by_name (named_actors scene) actor_uuid)
      | _ =>
          let articulation :=
            get_entity_by_name (named_articulations scene) articulation_uuid in
          '(h, a) ← not_None articulation;
          match get_entity_by_name (named_links a) actor_uuid with
          | None => Raise (RuntimeError "Mount actor is not found")
          | Some l => Ok (Some (LinkOf h l))
          end
      end
  end.

(** [scene.add_camera] followed by [set_local_pose]: a world-fixed camera. *)
Definition add_camera (scene : Scene)
    (name width height fov near far : pyval) (pose : pyval * pyval)
  : CameraEntity * Scene :=
  let c := mkCameraEntity name None pose width height fov near far in
  (c, mkScene (world scene) (scene_cameras scene ++ [c]) (scene_lights scene)
        (scene_timestep scene) (sim_ticks scene)).

Definition add_mounted_camera (scene : Scene) (name : pyval) (mount : MountRef)
    (pose : pyval * pyval) (width height fov near far : pyval)
  : CameraEntity * Scene :=
  let c := mkCameraEntity name (Some mount) pose width height fov near far in
  (c, mkScene (world scene) (scene_cameras scene ++ [c]) (scene_lights scene)
        (scene_timestep scene) (sim_ticks scene)).

(** [tuple(x for x in names if x in ["Color"])] *)
Definition only_color (names : pyval) : result pyval :=
  match names with
  | PySeq xs =>
      Ok (PySeq (List.filter
            (λ x, match x with PyStr s => bool_decide (s = "Color") | _ => false end)
            xs))
  | _ => Raise TypeError
  end.

(** [Camera.__init__] *)
Definition Camera_init (camera_cfg : CameraConfig) (scene : Scene)
    (renderer_type : string) : result (Camera * Scene) :=
  articulation_uuid ← getattr camera_cfg "articulation_uuid";
  actor_uuid ← getattr camera_cfg "actor_uuid";
  actor ← get_mount_actor scene articulation_uuid actor_uuid;
  uuid ← getattr camera_cfg "uuid";
  width ← getattr camera_cfg "width";
  height ← getattr camera_cfg "height";
  fov ← getattr camera_cfg "fov";
  near ← getattr camera_cfg "near";
  far ← getattr camera_cfg "far";
  p ← getattr camera_cfg "p";
  q ← getattr camera_cfg "q";
  let '(camera, scene) :=
    match actor with
    | None => add_camera scene uuid width height fov near far (p, q)
    | Some mount => add_mounted_camera scene uuid mount (p, q) width height fov near far
    end in
  names ← getattr camera_cfg "texture_names";
  texture_names ←
    (if decide (renderer_type = "kuafu") then only_color names else Ok names);
  Ok (mkCamera camera_cfg renderer_type actor camera texture_names, scene).

(** ** Collaborators *)

(** Keyword arguments of the image and point-cloud getters; [None] is an
    argument that was not passed. *)
Record Kwargs := mkKwargs {
  rgb : option bool;
  depth : option bool;
  visual_seg : option bool;
  actor_seg : option bool }.

Definition no_kwargs : Kwargs := mkKwargs None None None None.

(** The four switches of [_get_obs_images] once defaults are resolved. *)
Record TextureFlags := mkFlags {
  want_rgb : bool;
  want_depth : bool;
  want_visual_seg : bool;
  want_actor_seg : bool }.

(** The physics and rendering engine, as far as the controller uses it.
    [get_camera_images] and [get_camera_pcd] are the helpers of
    [mani_skill2.agents.camera], which is not among the sources, as the
    controller calls them: on a runtime camera of [sensors/camera.py], not on
    the engine's camera entity they are written for. Whether they return or
    raise on it is theirs to say. *)
Record Engine := mkEngine {
  physics_tick : World → Q → World;
  get_intrinsic_matrix : Scene → CameraEntity → tensor;
  get_extrinsic_matrix : Scene → CameraEntity → tensor;
  get_camera_images : Scene → Camera → TextureFlags → result (odict tensor);
  get_camera_pcd : Scene → Camera → Kwargs → result (odict tensor);
  matmul_transposed : tensor → tensor → tensor;
  merge_dicts : list (odict tensor) → odict tensor }.

(** The agent ([BaseAgent]), as far as the controller uses it. *)
Record AgentModel := mkAgentModel {
  get_proprioception : World → Agent → Obs;
  agent_get_camera_images : Scene → Agent → TextureFlags → odict (odict tensor);
  agent_get_camera_pcd : Scene → Agent → Kwargs → odict (odict tensor);
  set_action : Agent → list scalar → Agent;
  set_control_mode : Agent → string → Agent;
  before_simulation_step : Agent → World → World }.

(** A task hook works on the bodies, the agent and the task data, and draws
    from the episode generator. *)
Definition Hook (rng : Type) := Sim → rng → Sim * rng.

Record TaskHooks (rng : Type) := mkTaskHooks {
  _set_agent_cfg : result (option AgentConfig);
  _get_camera_cfgs : odict CameraConfig;
  _load_agent : Hook rng;
  _load_actors : Hook rng;
  _load_articulations : Hook rng;
  _initialize_actors : Hook rng;
  _initialize_articulations : Hook rng;
  _initialize_agent : Hook rng;
  _initialize_task : Hook rng;
  _before_control_step : Hook rng;
  _after_simulation_step : Hook rng;
  evaluate : Sim → result (odict pyval);
  compute_dense_reward : Sim → result Q;
  _get_obs_extra : Sim → Obs }.
Arguments mkTaskHooks {rng}.
Arguments _set_agent_cfg {rng}.
Arguments _get_camera_cfgs {rng}.
Arguments _load_agent {rng}.
Arguments _load_actors {rng}.
Arguments _load_articulations {rng}.
Arguments _initialize_actors {rng}.
Arguments _initialize_articulations {rng}.
Arguments _initialize_agent {rng}.
Arguments _initialize_task {rng}.
Arguments _before_control_step {rng}.
Arguments _after_simulation_step {rng}.
Arguments evaluate {rng}.
Arguments compute_dense_reward {rng}.
Arguments _get_obs_extra {rng}.

Definition pass {rng} : Hook rng := λ sim r, (sim, r).

(** The hooks as [BaseEnv] itself defines them. *)
Definition BaseEnv_hooks {rng} : TaskHooks rng :=
  mkTaskHooks (Raise (NotImplementedError "")) []
    pass pass pass pass pass pass pass pass pass
    (λ _, Raise (NotImplementedError "")) (λ _, Raise (NotImplementedError ""))
    (λ _, ODict []).

(** Constructor arguments. *)
Record Args := mkArgs {
  obs_mode : option string;
  reward_mode : option string;
  control_mode_arg : option string;
  sim_freq : Z;
  control_freq : Z;
  renderer_type_arg : string;
  camera_cfgs : option (odict pyval);
  enable_shadow_arg : bool }.

Inductive Action :=
  | NoAction
  | ArrayAction (a : list scalar)
  | DictAction (mode : string) (a : list scalar)
  | OtherAction.

Definition SUPPORTED_OBS_MODES : list string :=
  ["state"; "state_dict"; "none"; "rgbd"; "pointcloud";
   "rgbd_robot_seg"; "pointcloud_robot_seg"].

Definition SUPPORTED_REWARD_MODES : list string := ["dense"; "sparse"].

(** ** ObservationPipeline *)

Definition tensor_values (t : tensor) : list scalar :=
  match t with
  | Floats a => data a
  | UInts a => inject_Z <$> data a
  end.

(** Modelled from the spec: [flatten_state_dict] lives in
    [mani_skill2.utils.common], which is not among the sources. It flattens
    the nested mapping into one numeric vector, visiting the keys in
    insertion order. *)
Fixpoint flatten_values (o : Obs) : list scalar :=
  match o with
  | OArr t => tensor_values t
  | ODict d =>
      (fix go (d : list (string * Obs)) : list scalar :=
         match d with
         | [] => []
         | (_, o') :: d' => flatten_values o' ++ go d'
         end) d
  end.

Definition flatten_state_dict (o : Obs) : Obs :=
  let v := flatten_values o in OArr (Floats (mk_ndarray [length v] v)).

(** Modelled from the spec: [convert_observation_to_space] (same missing
    module) keeps the shape of every array of the observation. *)
Fixpoint convert_observation_to_space (o : Obs) : Space :=
  match o with
  | OArr (Floats a) => Box (shape a)
  | OArr (UInts a) => Box (shape a)
  | ODict d =>
      DictSpace
        ((fix go (d : list (string * Obs)) : list (string * Space) :=
            match d with
            | [] => []
            | (k, o') :: d' => (k, convert_observation_to_space o') :: go d'
            end) d)
  end.

Definition images_obs (d : odict tensor) : Obs :=
  ODict (prod_map id OArr <$> d).

(** [np.isin(x, ids)] on one element. *)
Definition isin_Z (ids : list Z) (x : Z) : bool := bool_decide (x ∈ ids).
Definition isin_Q (ids : list Z) (x : Q) : bool :=
  existsb (λ i, Qeq_bool x (inject_Z i)) ids.

(** [actor_seg * mask]: a boolean factor is 1 or 0. *)
Definition robot_seg_tensor (ids : list Z) (actor_seg : tensor) : tensor :=
  match actor_seg with
  | UInts a =>
      UInts (mk_ndarray (shape a)
               ((λ x, x * (if isin_Z ids x then 1 else 0)) <$> data a))
  | Floats a =>
      Floats (mk_ndarray (shape a)
                ((λ x, (x * (if isin_Q ids x then 1 else 0))%Q) <$> data a))
  end.

(** [kwargs.update(...)] *)
Definition gt_seg_kwargs (kw : Kwargs) : Kwargs :=
  mkKwargs (rgb kw) (depth kw) (Some true) (Some true).

Definition kuafu_kwargs (kw : Kwargs) : Kwargs :=
  mkKwargs (rgb kw) (Some false) (Some false) (Some false).

(** Defaults of [_get_obs_images]. *)
Definition resolve_flags (kw : Kwargs) : TextureFlags :=
  mkFlags (default true (rgb kw)) (default true (depth kw))
    (default false (visual_seg kw)) (default false (actor_seg kw)).

(** [d[k]] and [d.values()] on an observation record. *)
Definition obs_entries (o : Obs) : result (list (string * Obs)) :=
  match o with
  | ODict d => Ok d
  | OArr _ => Raise TypeError
  end.

Definition obs_tensor (o : Obs) : result tensor :=
  match o with
  | OArr t => Ok t
  | ODict _ => Raise TypeError
  end.

Definition obs_getitem (o : Obs) (k : string) : result Obs :=
  d ← obs_entries o;
  match odict_get d k with
  | Some v => Ok v
  | None => Raise (KeyError k)
  end.

(** [camera.get_intrinsic_matrix()], [camera.get_extrinsic_matrix()] and
    [camera.get_model_matrix()] as [_get_camera_images] and
    [_get_obs_pointcloud] call them: on a runtime camera. The class [Camera]
    defines [get_mount_actor], [take_picture], [get_images], [get_params]
    and [observation_space]; the three matrices are methods of the engine's
    entity, which the runtime camera holds as [camera.camera], so the
    attribute lookup fails. *)
Definition Camera_get_intrinsic_matrix (camera : Camera) : result tensor :=
  Raise AttributeError.

Definition Camera_get_extrinsic_matrix (camera : Camera) : result tensor :=
  Raise AttributeError.

Definition Camera_get_model_matrix (camera : Camera) : result tensor :=
  Raise AttributeError.

Section Observation.
Context {rng : Type}.
Context (engine : Engine) (agents : AgentModel) (task : TaskHooks rng).
Implicit Type self : Env rng.

Definition _get_obs_agent self : result Obs :=
  ag ← not_None (agent self);
  scene ← not_None (_scene self);
  Ok (get_proprioception agents (world scene) ag).

Definition get_obs_extra self : result Obs :=
  scene ← not_None (_scene self);
  Ok (_get_obs_extra task (mkSim (world scene) (agent self) (task_data self))).

Definition _get_obs_state_dict self : result Obs :=
  ag ← _get_obs_agent self;
  extra ← get_obs_extra self;
  Ok (ODict [("agent", ag); ("extra", extra)]).

Definition _get_camera_images self (scene : Scene) (camera : Camera)
    (flags : TextureFlags) : result (odict tensor) :=
  obs_dict ← get_camera_images engine scene camera flags;
  camera_intrinsic ← Camera_get_intrinsic_matrix camera;
  camera_extrinsic ← Camera_get_extrinsic_matrix camera;
  Ok (odict_update obs_dict
        [("camera_intrinsic", camera_intrinsic);
         ("camera_extrinsic", camera_extrinsic)]).

Definition _get_obs_images self (kw : Kwargs) : result (odict (odict tensor)) :=
  let flags := resolve_flags kw in
  scene ← not_None (_scene self);
  ag ← not_None (agent self);
  let obs_dict := agent_get_camera_images agents scene ag flags in
  for_each
    (λ obs_dict '(name, camera),
       images ← _get_camera_images self scene camera flags;
       Ok (odict_set obs_dict name images))
    (_cameras self) obs_dict.

Definition _get_obs_rgbd self (kwargs : Kwargs) : result Obs :=
  gt_seg ← not_None (_enable_gt_seg (config self));
  let kwargs := if gt_seg : bool then gt_seg_kwargs kwargs else kwargs in
  kuafu ← not_None (_enable_kuafu (config self));
  let kwargs := if kuafu : bool then kuafu_kwargs kwargs else kwargs in
  image ← _get_obs_images self kwargs;
  ag ← _get_obs_agent self;
  extra ← get_obs_extra self;
  Ok (ODict [("image", ODict (prod_map id images_obs <$> image));
             ("agent", ag); ("extra", extra)]).

Definition _get_obs_pointcloud self (kwargs : Kwargs) : result Obs :=
  gt_seg ← not_None (_enable_gt_seg (config self));
  let kwargs := if gt_seg : bool then gt_seg_kwargs kwargs else kwargs in
  kuafu ← not_None (_enable_kuafu (config self));
  if kuafu : bool then
    Raise (NotImplementedError "Do not support pointcloud mode for KuafuRenderer yet.")
  else
    scene ← not_None (_scene self);
    ag ← not_None (agent self);
    let pcds := agent_get_camera_pcd agents scene ag kwargs in
    pcds ← for_each
      (λ pcds '(name, camera),
         pcd ← get_camera_pcd engine scene camera kwargs;
         T ← Camera_get_model_matrix camera;
         xyzw ← match odict_get pcd "xyzw" with
                | Some x => Ok x
                | None => Raise (KeyError "xyzw")
                end;
         let pcd := odict_set pcd "xyzw" (matmul_transposed engine xyzw T) in
         Ok (odict_set pcds name pcd))
      (_cameras self) pcds;
    let fused_pcd := merge_dicts engine (odict_values pcds) in
    ag ← _get_obs_agent self;
    extra ← get_obs_extra self;
    Ok (ODict [("pointcloud", images_obs fused_pcd);
               ("agent", ag); ("extra", extra)]).

Definition _get_robot_seg self (actor_seg : tensor) : result tensor :=
  ag ← not_None (agent self);
  Ok (robot_seg_tensor (robot_link_ids ag) actor_seg).

(** [image["robot_seg"] = self._get_robot_seg(image.pop("actor_seg"))] *)
Definition replace_actor_seg self (image : Obs) : result Obs :=
  d ← obs_entries image;
  '(seg, d) ← odict_pop d "actor_seg";
  seg ← obs_tensor seg;
  robot ← _get_robot_seg self seg;
  Ok (ODict (odict_set d "robot_seg" (OArr robot))).

Definition _get_obs_rgbd_robot_seg self : result Obs :=
  obs ← _get_obs_rgbd self (mkKwargs None None None (Some true));
  d ← obs_entries obs;
  images ← obs_getitem obs "image";
  images ← obs_entries images;
  images ← for_each
    (λ acc ni, image ← replace_actor_seg self ni.2; Ok (acc ++ [(ni.1, image)]))
    images [];
  Ok (ODict (odict_set d "image" (ODict images))).

Definition _get_obs_pointcloud_robot_seg self : result Obs :=
  obs ← _get_obs_pointcloud self (mkKwargs None None None (Some true));
  d ← obs_entries obs;
  pointcloud ← obs_getitem obs "pointcloud";
  pointcloud ← replace_actor_seg self pointcloud;
  Ok (ODict (odict_set d "pointcloud" pointcloud)).

Definition get_obs self : result Obs :=
  let mode := _obs_mode (config self) in
  if decide (mode = "none") then Ok (ODict [])
  else if decide (mode = "state") then
    state_dict ← _get_obs_state_dict self; Ok (flatten_state_dict state_dict)
  else if decide (mode = "state_dict") then _get_obs_state_dict self
  else if decide (mode = "rgbd") then _get_obs_rgbd self no_kwargs
  else if decide (mode = "pointcloud") then _get_obs_pointcloud self no_kwargs
  else if decide (mode = "rgbd_robot_seg") then _get_obs_rgbd_robot_seg self
  else if decide (mode = "pointcloud_robot_seg") then
    _get_obs_pointcloud_robot_seg self
  else Raise (NotImplementedError mode).
End Observation.

(** ** EpisodeController *)

Definition clear_actor (a : Actor) : Actor :=
  match actor_type a with
  | static => a
  | _ => mkActor (actor_name a) (actor_id a) (actor_type a) (actor_pose a)
           zero3 zero3
  end.

(** [set_qvel(np.zeros(dof))] and the two root velocities. *)
Definition clear_articulation (a : Articulation) : Articulation :=
  mkArticulation (articulation_name a) (links a) (root_pose a) zero3 zero3
    ((λ j, (j.1, 0%Q)) <$> joints a).

(** [bool(x)] and [float(x)] *)
Definition truthy (v : pyval) : bool :=
  match v with
  | PyNone => false
  | PyBool b => b
  | PyInt z => negb (Z.eqb z 0)
  | PyFloat x => negb (Qeq_bool x 0)
  | PyStr s => negb (bool_decide (s = ""))
  | PySeq xs => negb (bool_decide (xs = []))
  | PyDict kv => negb (bool_decide (kv = []))
  end.

Definition py_float (v : pyval) : result Q :=
  match v with
  | PyBool b => Ok (if b then 1%Q else 0%Q)
  | PyInt z => Ok (inject_Z z)
  | PyFloat x => Ok x
  | _ => Raise TypeError
  end.

(** The frequency block of the constructor: the modulo test comes first and
    divides by [control_freq] as the floor division does. *)
Definition set_frequencies (sim_freq control_freq : Z) (warnings : list Warning)
  : result (Z * list Warning) :=
  if decide (control_freq = 0) then Raise ZeroDivisionError
  else
    let warnings :=
      if decide (sim_freq `mod` control_freq ≠ 0)
      then warnings ++ [NotDivisible sim_freq control_freq] else warnings in
    Ok (sim_freq `div` control_freq, warnings).

Section Controller.
Context {rng : Type}.
Context (RandomState : Z → rng) (randint : Z → rng → Z * rng).
Context (engine : Engine) (agents : AgentModel) (task : TaskHooks rng).
Implicit Type self : Env rng.

(** [seed]: without an argument the seed comes from a generator seeded by
    the operating system; [entropy] is the number it gives. *)
Definition seed self (seed : option Z) (entropy : Z) : Env rng * list Z :=
  let seed := default entropy seed in
  (set_seeds self
     (mkSeedPair (Some seed) (Some (RandomState seed))
        (_episode_seed (seeds self)) (_episode_rng (seeds self))),
   [seed]).

Definition set_episode_rng self (seed : option Z) : result (Env rng) :=
  match seed with
  | None =>
      main ← not_None (_main_rng (seeds self));
      let '(s, main) := randint (2 ^ 32) main in
      Ok (set_seeds self
            (mkSeedPair (_main_seed (seeds self)) (Some main)
               (Some s) (Some (RandomState s))))
  | Some s =>
      Ok (set_seeds self
            (mkSeedPair (_main_seed (seeds self)) (_main_rng (seeds self))
               (Some s) (Some (RandomState s))))
  end.

(** Calling a task hook: it sees the bodies of the scene, the agent and the
    task data, and may draw from the episode generator. *)
Definition run_hook (h : Hook rng) self : result (Env rng) :=
  scene ← not_None (_scene self);
  r ← not_None (_episode_rng (seeds self));
  let '(sim, r) := h (mkSim (world scene) (agent self) (task_data self)) r in
  let self := set_scene self (Some (set_world scene (sim_world sim))) in
  let self := set_agent self (sim_agent sim) in
  let self := set_task_data self (sim_task sim) in
  Ok (set_seeds self
        (mkSeedPair (_main_seed (seeds self)) (_main_rng (seeds self))
           (_episode_seed (seeds self)) (Some r))).

Definition _close_viewer self : Env rng :=
  if _viewer self then set_viewer self false else self.

Definition _clear self : Env rng :=
  let self := _close_viewer self in
  let self := set_agent self None in
  let self := set_cameras self [] in
  set_scene self None.

Definition close self : Env rng := _clear self.

Definition _setup_scene self : result (Env rng) :=
  let f := _sim_freq (config self) in
  if decide (f = 0) then Raise ZeroDivisionError
  else
    Ok (set_scene self
          (Some (mkScene (mkWorld [] []) [] [] (1 / inject_Z f)%Q 0%nat))).

Definition _setup_cameras self : result (Env rng) :=
  let self := set_cameras self [] in
  for_each
    (λ self '(uuid, camera_cfg),
       scene ← not_None (_scene self);
       '(c, scene) ← Camera_init camera_cfg scene (_renderer_type (config self));
       Ok (set_scene (set_cameras self (odict_set (_cameras self) uuid c))
             (Some scene)))
    (_camera_cfgs (config self)) self.

Definition _setup_lighting self : result (Env rng) :=
  scene ← not_None (_scene self);
  let shadow := enable_shadow (config self) in
  Ok (set_scene self
        (Some (mkScene (world scene) (scene_cameras scene)
                 (scene_lights scene ++
                    [AmbientLight; DirectionalLight shadow; DirectionalLight false])
                 (scene_timestep scene) (sim_ticks scene)))).

(** The viewer carries no state in this model. *)
Definition _setup_viewer self : result (Env rng) :=
  scene ← not_None (_scene self); Ok self.

Definition get_actors self : result (list ActorHandle) :=
  scene ← not_None (_scene self); Ok (get_all_actors scene).

Definition get_articulations self : result (list ArticulationHandle) :=
  scene ← not_None (_scene self); Ok (get_all_articulations scene).

Definition reconfigure self : result (Env rng) :=
  let self := _clear self in
  self ← _setup_scene self;
  self ← run_hook (_load_agent task) self;
  self ← run_hook (_load_actors task) self;
  self ← run_hook (_load_articulations task) self;
  self ← _setup_cameras self;
  self ← _setup_lighting self;
  self ← (if _viewer self then _setup_viewer self else Ok self);
  actors ← get_actors self;
  articulations ← get_articulations self;
  Ok (set_snapshot self actors articulations).

Definition initialize_episode self : result (Env rng) :=
  self ← run_hook (_initialize_actors task) self;
  self ← run_hook (_initialize_articulations task) self;
  self ← run_hook (_initialize_agent task) self;
  run_hook (_initialize_task task) self.

Definition _clear_sim_state self : result (Env rng) :=
  scene ← not_None (_scene self);
  let w := world scene in
  Ok (set_scene self
        (Some (set_world scene
                 (mkWorld (clear_actor <$> all_actors w)
                    (clear_articulation <$> all_articulations w))))).

Definition reset self (seed : option Z) (do_reconfigure : bool)
  : result (Obs * Env rng) :=
  self ← set_episode_rng self seed;
  let self := set_elapsed_steps self 0 in
  self ← (if do_reconfigure then reconfigure self else _clear_sim_state self);
  self ← set_episode_rng self (_episode_seed (seeds self));
  self ← initialize_episode self;
  obs ← get_obs engine agents task self;
  Ok (obs, self).

Definition agent_before_simulation_step self : result (Env rng) :=
  ag ← not_None (agent self);
  scene ← not_None (_scene self);
  Ok (set_scene self
        (Some (set_world scene (before_simulation_step agents ag (world scene))))).

(** [self._scene.step()]: one physics tick. *)
Definition scene_step self : result (Env rng) :=
  scene ← not_None (_scene self);
  Ok (set_scene self
        (Some (mkScene (physics_tick engine (world scene) (scene_timestep scene))
                 (scene_cameras scene) (scene_lights scene)
                 (scene_timestep scene) (S (sim_ticks scene))))).

Definition step_action self (action : Action) : result (Env rng) :=
  self ← match action with
         | NoAction => Ok self
         | ArrayAction a =>
             ag ← not_None (agent self);
             Ok (set_agent self (Some (set_action agents ag a)))
         | DictAction mode a =>
             ag ← not_None (agent self);
             let ag :=
               if decide (mode ≠ control_mode ag)
               then set_control_mode agents ag mode else ag in
             Ok (set_agent self (Some (set_action agents ag a)))
         | OtherAction => Raise TypeError
         end;
  self ← run_hook (_before_control_step task) self;
  for_range (_sim_steps_per_control (config self))
    (λ self,
       self ← agent_before_simulation_step self;
       self ← scene_step self;
       run_hook (_after_simulation_step task) self)
    self.

Definition task_evaluate self : result (odict pyval) :=
  scene ← not_None (_scene self);
  evaluate task (mkSim (world scene) (agent self) (task_data self)).

Definition get_info self : result (odict pyval) :=
  let info := [("elapsed_steps", PyInt (_elapsed_steps self))] in
  ev ← task_evaluate self;
  Ok (odict_update info ev).

Definition get_done (info : odict pyval) : result bool :=
  match odict_get info "success" with
  | Some v => Ok (truthy v)
  | None => Raise (KeyError "success")
  end.

Definition get_reward self : result Q :=
  let mode := _reward_mode (config self) in
  if decide (mode = "sparse") then
    eval_info ← task_evaluate self;
    match odict_get eval_info "success" with
    | Some v => py_float v
    | None => Raise (KeyError "success")
    end
  else if decide (mode = "dense") then
    scene ← not_None (_scene self);
    compute_dense_reward task (mkSim (world scene) (agent self) (task_data self))
  else Raise (NotImplementedError mode).

Definition step self (action : Action)
  : result (Obs * Q * bool * odict pyval * Env rng) :=
  self ← step_action self action;
  let self := set_elapsed_steps self (_elapsed_steps self + 1) in
  obs ← get_obs engine agents task self;
  info ← get_info self;
  reward ← get_reward self;
  done ← get_done info;
  Ok (obs, reward, done, info, self).

(** [_set_camera_cfgs]: the user's dictionary is not used yet. *)
Definition _set_camera_cfgs (agent_cfg : option AgentConfig)
    (cfg_dict : option (odict pyval)) : odict CameraConfig :=
  let cfgs := _get_camera_cfgs task in
  match agent_cfg with
  | Some c => odict_update cfgs (cameras c)
  | None => cfgs
  end.

(** [BaseEnv.__init__] *)
Definition BaseEnv_init (args : Args) : result (Env rng) :=
  let renderer := renderer_type_arg args in
  warnings ← (if decide (renderer = "vulkan") then Ok []
              else if decide (renderer = "kuafu") then Ok [OnlyRgbSupportedByKuafu]
              else Raise (NotImplementedError renderer));
  let sim_freq := sim_freq args in
  let control_freq := control_freq args in
  '(sim_steps_per_control, warnings) ←
    set_frequencies sim_freq control_freq warnings;
  let obs_mode := default "state" (obs_mode args) in
  if negb (bool_decide (obs_mode ∈ SUPPORTED_OBS_MODES)) then
    Raise (NotImplementedError ("Unsupported obs mode: " +:+ obs_mode))
  else
    let reward_mode := default "dense" (reward_mode args) in
    if negb (bool_decide (reward_mode ∈ SUPPORTED_REWARD_MODES)) then
      Raise (NotImplementedError ("Unsupported reward mode: " +:+ reward_mode))
    else
      agent_cfg ← _set_agent_cfg task;
      let camera_cfgs := _set_camera_cfgs agent_cfg (camera_cfgs args) in
      let self :=
        mkEnv
          (mkEnvConfig renderer sim_freq control_freq sim_steps_per_control
             obs_mode reward_mode (control_mode_arg args) agent_cfg
             camera_cfgs (enable_shadow_arg args) None None)
          (mkSeedPair None None None None) 0 None None [] [] [] []
          false warnings None None in
      let '(self, _) := seed self (Some 2022) 0 in
      '(obs, self) ← reset self None true;
      ag ← not_None (agent self);
      Ok (set_spaces self (Some (convert_observation_to_space obs))
            (Some (action_space ag))).
End Controller.

(** ** Layout of the state vector *)

(** Width of the segment behind an articulation handle. *)
Definition articulation_width (w : World) (h : ArticulationHandle) : nat :=
  from_option (λ a, KINEMANTIC_DIM + 2 * dof a)%nat 0%nat (all_articulations w !! h).

Definition total_width (w : World) (hs : list ArticulationHandle) : nat :=
  sum_list (articulation_width w <$> hs).

(** Length of the vector laid out by a snapshot of handles. *)
Definition layout_length (w : World) (actors : list ActorHandle)
    (articulations : list ArticulationHandle) : nat :=
  (KINEMANTIC_DIM * length actors + total_width w articulations)%nat.

(** Every cached handle still resolves in the world. *)
Definition handles_alive (w : World) (actors : list ActorHandle)
    (articulations : list ArticulationHandle) : Prop :=
  Forall (λ h, h < length (all_actors w))%nat actors
  ∧ Forall (λ h, h < length (all_articulations w))%nat articulations.

(** The bodies behind a snapshot of handles. *)
Definition snapshot_actors (w : World) (hs : list ActorHandle) : list Actor :=
  omap (λ h, all_actors w !! h) hs.

Definition snapshot_articulations (w : World) (hs : list ArticulationHandle)
  : list Articulation :=
  omap (λ h, all_articulations w !! h) hs.

(** ** A sample task

    A small concrete task, engine and generator on which the embedding can
    be run: a one-joint robot with two links, a cube, a world-fixed camera
    and a camera on the robot's hand. *)

Definition from_Ok {A} (d : A) (r : result A) : A :=
  match r with Ok a => a | Raise _ => d end.

(** A linear congruential generator standing in for [RandomState]. *)
Definition sample_RandomState (s : Z) : Z := s.
Definition sample_randint (n : Z) (st : Z) : Z * Z :=
  let st' := (1103515245 * st + 12345) `mod` 2 ^ 31 in (st' `mod` n, st').

Definition identity_pose : Pose := mkPose zero3 (quat 1%Q 0%Q 0%Q 0%Q).

Definition sample_robot : Articulation :=
  mkArticulation "robot" [mkLink "base" 1; mkLink "hand" 2]
    identity_pose zero3 zero3 [(0%Q, 0%Q)].

Definition sample_cube : Actor :=
  mkActor "cube" 3 dynamic identity_pose zero3 zero3.

Definition sample_agent : Agent := mkAgent "pd_joint_pos" [1; 2] None [1%nat].

Definition sample_camera_cfg (uuid : string) (articulation_uuid actor_uuid : pyval)
  : CameraConfig :=
  CameraConfig_init (PyStr uuid)
    (PySeq [PyFloat 0; PyFloat 0; PyFloat 1]) (PySeq [PyFloat 1; PyFloat 0; PyFloat 0; PyFloat 0])
    (PyInt 128) (PyInt 128) (PyFloat 1.57) (PyFloat 0.01) (PyFloat 10)
    articulation_uuid actor_uuid default_texture_names.

(** The sample engine moves every actor one unit along x at each tick. Its
    camera helpers return on a runtime camera: the colour image when asked
    for, a single point. *)
Definition drift (a : Actor) : Actor :=
  let p := actor_pose a in
  mkActor (actor_name a) (actor_id a) (actor_type a)
    (mkPose (vec3 (vx (pose_p p) + 1)%Q (vy (pose_p p)) (vz (pose_p p))) (pose_q p))
    (actor_velocity a) (actor_angular_velocity a).

Definition sample_engine : Engine :=
  mkEngine (λ w _, mkWorld (drift <$> all_actors w) (all_articulations w))
    (λ _ _, Floats (mk_ndarray [0%nat] []))
    (λ _ _, Floats (mk_ndarray [0%nat] []))
    (λ _ _ flags,
       Ok (if want_rgb flags
           then [("rgb", Floats (mk_ndarray [1; 1]%nat [0%Q]))] else []))
    (λ _ _ kw,
       Ok [("xyzw", Floats (mk_ndarray [1; 4]%nat [0%Q; 0%Q; 0%Q; 1%Q]))])
    (λ x _, x)
    (λ ds, default [] (head ds)).

(** The agent's proprioception: joint positions and velocities of its robot
    (the first articulation). *)
Definition sample_agents : AgentModel :=
  mkAgentModel
    (λ w _,
       match all_articulations w !! 0%nat with
       | Some a => ODict [("qpos", OArr (Floats (mk_ndarray [dof a] (get_qpos a))));
                          ("qvel", OArr (Floats (mk_ndarray [dof a] (get_qvel a))))]
       | None => ODict []
       end)
    (λ _ _ _, [])
    (λ _ _ _, [])
    (λ ag a, mkAgent (control_mode ag) (robot_link_ids ag) (Some a) (action_space ag))
    (λ ag m, mkAgent m (robot_link_ids ag) (agent_action ag) (action_space ag))
    (λ _ w, w).

Definition add_articulation (a : Articulation) : Hook Z :=
  λ sim r,
    (mkSim (mkWorld (all_actors (sim_world sim))
              (all_articulations (sim_world sim) ++ [a]))
       (sim_agent sim) (sim_task sim), r).

Definition add_actor (a : Actor) : Hook Z :=
  λ sim r,
    (mkSim (mkWorld (all_actors (sim_world sim) ++ [a])
              (all_articulations (sim_world sim)))
       (sim_agent sim) (sim_task sim), r).

Definition load_sample_agent : Hook Z :=
  λ sim r,
    (mkSim (mkWorld (all_actors (sim_world sim))
              (all_articulations (sim_world sim) ++ [sample_robot]))
       (Some sample_agent) (sim_task sim), r).

(** The sample task keeps the initialisation hooks of [BaseEnv] ([pass]). *)
Definition sample_task : TaskHooks Z :=
  mkTaskHooks
    (Ok (Some (mkAgentConfig
                 [("hand_camera", sample_camera_cfg "hand_camera" (PyStr "robot") (PyStr "hand"))])))
    [("base_camera", sample_camera_cfg "base_camera" PyNone PyNone)]
    load_sample_agent (add_actor sample_cube) pass
    pass pass pass pass pass pass
    (λ _, Ok [("success", PyBool false)]) (λ _, Ok 0%Q)
    (λ _, ODict []).

Definition sample_args (obs_mode : string) (sim_freq control_freq : Z) : Args :=
  mkArgs (Some obs_mode) None None sim_freq control_freq "vulkan" None
    false.

Definition blank_env : Env Z :=
  mkEnv (mkEnvConfig "vulkan" 0 0 0 "state" "dense" None None [] false None None)
    (mkSeedPair None None None None) 0 None None [] [] [] [] false [] None None.

(** The environment [BaseEnv(obs_mode="state")] of the sample task. *)
Definition sample_env : Env Z :=
  from_Ok blank_env
    (BaseEnv_init sample_RandomState sample_randint sample_engine sample_agents
       sample_task (sample_args "state" 500 20)).

Definition sample_scene : Scene :=
  default (mkScene (mkWorld [] []) [] [] 0%Q 0%nat) (_scene sample_env).

(** The sample environment after one more [reconfigure]. *)
Definition sample_env1 : Env Z :=
  from_Ok blank_env (reconfigure sample_task sample_env).

(** ** Well-formedness of the merge's arguments *)

(** A Python dictionary holds each key once, also inside a camera's block. *)
Definition well_formed_dict (d : odict pyval) : Prop :=
  NoDup (odict_keys d)
  ∧ ∀ k block, (k, PyDict block) ∈ d → NoDup (odict_keys block).

(** Same cameras, each with the same attribute names. *)
Definition same_attrs (cfgs cfgs' : odict CameraConfig) : Prop :=
  Forall2 (λ a b, a.1 = b.1 ∧ ∀ k, hasattr a.2 k = hasattr b.2 k) cfgs cfgs'.

(** No camera configuration has an attribute of this name. *)
Definition unknown_attribute (cfgs : odict CameraConfig) (k : string) : Prop :=
  ∀ name cfg, (name, cfg) ∈ cfgs → hasattr cfg k = false.

(** Sample arguments of the merge. *)
Definition two_cameras : odict CameraConfig :=
  [("cam1", sample_camera_cfg "cam1" PyNone PyNone);
   ("cam2", sample_camera_cfg "cam2" PyNone PyNone)].

Definition near_overrides : odict pyval :=
  [("near", PyFloat 0.05); ("cam1", PyDict [("near", PyFloat 0.2)])].

Definition bogus_after_near : odict pyval :=
  [("near", PyFloat 0.05); ("bogus", PyInt 1)].

Definition bogus_in_block : odict pyval :=
  [("near", PyFloat 0.05);
   ("cam1", PyDict [("far", PyFloat 5)]);
   ("cam2", PyDict [("bogus", PyInt 1)])].

(** ** Notions used by the properties of the controller *)

(** What no method of the controller changes after construction, apart from
    [seed] and [set_episode_rng]. *)
Definition frame {rng} (a b : Env rng) : Prop :=
  config b = config a
  ∧ warnings b = warnings a
  ∧ _main_seed (seeds b) = _main_seed (seeds a)
  ∧ _main_rng (seeds b) = _main_rng (seeds a)
  ∧ _episode_seed (seeds b) = _episode_seed (seeds a).

(** A hook that leaves an agent in place when there is one. *)
Definition keeps_agent {rng} (h : Hook rng) : Prop :=
  ∀ sim r, is_Some (sim_agent sim) → is_Some (sim_agent (h sim r).1).

(** The four initialisation hooks in the order of [initialize_episode]. *)
Definition initialize_sim {rng} (task : TaskHooks rng) : Hook rng :=
  λ sim r,
    let '(sim, r) := _initialize_actors task sim r in
    let '(sim, r) := _initialize_articulations task sim r in
    let '(sim, r) := _initialize_agent task sim r in
    _initialize_task task sim r.

(** Bodies that differ in nothing but their kinematic state, and agents
    that differ in nothing but their command state. *)
Definition same_actor (a b : Actor) : Prop :=
  actor_name b = actor_name a ∧ actor_id b = actor_id a
  ∧ actor_type b = actor_type a.

Definition same_articulation (a b : Articulation) : Prop :=
  articulation_name b = articulation_name a ∧ links b = links a
  ∧ dof b = dof a.

Definition same_agent (a b : Agent) : Prop :=
  robot_link_ids b = robot_link_ids a ∧ action_space b = action_space a.

(** The same cast: the same bodies and the same agent, whatever their
    kinematic and command state and whatever the task data. *)
Definition same_cast (a b : Sim) : Prop :=
  Forall2 same_actor (all_actors (sim_world a)) (all_actors (sim_world b))
  ∧ Forall2 same_articulation (all_articulations (sim_world a))
      (all_articulations (sim_world b))
  ∧ option_Forall2 same_agent (sim_agent a) (sim_agent b).

(** What the state-based observations read. *)
Definition state_observation {rng} (agents : AgentModel) (task : TaskHooks rng)
    (sim : Sim) : option (Obs * Obs) :=
  ag ← sim_agent sim;
  Some (get_proprioception agents (sim_world sim) ag, _get_obs_extra task sim).

(** [mode] is one of the state-based observation modes. *)
Definition state_based (mode : string) : Prop :=
  mode = "state" ∨ mode = "state_dict" ∨ mode = "none".

(** Initialisation sets anew what the state-based modes observe: that
    depends on the cast it finds and on the episode generator, not on the
    poses, velocities, commands and task data left from before. *)
Definition sets_observed_state {rng} (agents : AgentModel)
    (task : TaskHooks rng) : Prop :=
  ∀ sim1 sim2 r, same_cast sim1 sim2 →
    state_observation agents task (initialize_sim task sim1 r).1
    = state_observation agents task (initialize_sim task sim2 r).1.

(** Initialisation sets the whole state of the episode anew: the bodies,
    the agent and the task data it leaves depend on the cast it finds and on
    the episode generator only. *)
Definition sets_episode_state {rng} (task : TaskHooks rng) : Prop :=
  ∀ sim1 sim2 r, same_cast sim1 sim2 →
    (initialize_sim task sim1 r).1 = (initialize_sim task sim2 r).1.

(** Two environments set alike: the same configuration, runtime cameras and
    scene apart from its bodies, and the same cast. *)
Definition set_alike {rng} (a b : Env rng) : Prop :=
  config b = config a
  ∧ _cameras b = _cameras a
  ∧ ∃ sa sb,
      _scene a = Some sa ∧ _scene b = Some sb
      ∧ scene_cameras sb = scene_cameras sa
      ∧ scene_lights sb = scene_lights sa
      ∧ scene_timestep sb = scene_timestep sa
      ∧ sim_ticks sb = sim_ticks sa
      ∧ same_cast (mkSim (world sa) (agent a) (task_data a))
          (mkSim (world sb) (agent b) (task_data b)).

(** Two environments with the same configuration and the same cast,
    whatever else they hold. *)
Definition cast_alike {rng} (a b : Env rng) : Prop :=
  config b = config a
  ∧ ∃ sa sb,
      _scene a = Some sa ∧ _scene b = Some sb
      ∧ same_cast (mkSim (world sa) (agent a) (task_data a))
          (mkSim (world sb) (agent b) (task_data b)).

(** The environment as [reset] has it when it calls [initialize_episode]. *)
Definition episode_start {rng} (RandomState : Z → rng)
    (randint : Z → rng → Z * rng) (task : TaskHooks rng) (self : Env rng)
    (seed : option Z) (do_reconfigure : bool) : result (Env rng) :=
  self ← set_episode_rng RandomState randint self seed;
  let self := set_elapsed_steps self 0 in
  self ← (if do_reconfigure then reconfigure task self
          else _clear_sim_state self);
  set_episode_rng RandomState randint self (_episode_seed (seeds self)).

(** A task that poses its bodies at initialisation: the actors are put at a
    place drawn from the episode generator, at rest; the articulations are
    put at the origin with every joint at a drawn position, at rest; the
    agent's commands are cleared; the goal is drawn. *)
Definition place (x : Z) (a : Actor) : Actor :=
  mkActor (actor_name a) (actor_id a) (actor_type a)
    (mkPose (vec3 (inject_Z x) 0%Q 0%Q) (quat 1%Q 0%Q 0%Q 0%Q)) zero3 zero3.

Definition bend (q : Z) (a : Articulation) : Articulation :=
  mkArticulation (articulation_name a) (links a)
    (mkPose zero3 (quat 1%Q 0%Q 0%Q 0%Q)) zero3 zero3
    (replicate (dof a) (inject_Z q, 0%Q)).

Definition at_ease (ag : Agent) : Agent :=
  mkAgent "pd_joint_pos" (robot_link_ids ag) None (action_space ag).

Definition place_actors : Hook Z :=
  λ sim r,
    let '(x, r) := sample_randint 100 r in
    (mkSim (mkWorld (place x <$> all_actors (sim_world sim))
              (all_articulations (sim_world sim)))
       (sim_agent sim) (sim_task sim), r).

Definition bend_robot : Hook Z :=
  λ sim r,
    let '(q, r) := sample_randint 100 r in
    (mkSim (mkWorld (all_actors (sim_world sim))
              (bend q <$> all_articulations (sim_world sim)))
       (at_ease <$> sim_agent sim) (sim_task sim), r).

Definition draw_goal : Hook Z :=
  λ sim r,
    let '(x, r) := sample_randint 100 r in
    (mkSim (sim_world sim) (sim_agent sim)
       [("goal", Floats (mk_ndarray [1%nat] [inject_Z x]))], r).

Definition posing_task : TaskHooks Z :=
  mkTaskHooks (_set_agent_cfg sample_task) (_get_camera_cfgs sample_task)
    load_sample_agent (add_actor sample_cube) pass
    place_actors pass bend_robot draw_goal pass pass
    (λ _, Ok [("success", PyBool false)]) (λ _, Ok 0%Q)
    (λ sim, ODict (prod_map id OArr <$> sim_task sim)).

(** A task that only sets the robot's joints at initialisation and leaves
    the actors where they are. *)
Definition bending_task : TaskHooks Z :=
  mkTaskHooks (_set_agent_cfg sample_task) (_get_camera_cfgs sample_task)
    load_sample_agent (add_actor sample_cube) pass
    pass pass bend_robot pass pass pass
    (λ _, Ok [("success", PyBool false)]) (λ _, Ok 0%Q)
    (λ _, ODict []).

(** Its environment with the state vector overwritten by [set_state] and one
    control step taken, and two resets of that with the seed 42: the first
    without, the second with a reconfigure. *)
Definition bending_env : Env Z :=
  from_Ok blank_env
    (BaseEnv_init sample_RandomState sample_randint sample_engine sample_agents
       bending_task (sample_args "state" 500 20)).

Definition bent_env : Env Z :=
  (from_Ok (ODict [], 0%Q, false, [], blank_env)
     (step sample_engine sample_agents bending_task
        (from_Ok blank_env (set_state bending_env (replicate 28 7%Q)))
        NoAction)).2.

Definition bending_reset : Obs * Env Z :=
  from_Ok (ODict [], blank_env)
    (reset sample_RandomState sample_randint sample_engine sample_agents
       bending_task bent_env (Some 42) false).

Definition bending_reset_again : Obs * Env Z :=
  from_Ok (ODict [], blank_env)
    (reset sample_RandomState sample_randint sample_engine sample_agents
       bending_task bending_reset.2 (Some 42) true).

Definition bending_start : Env Z :=
  from_Ok blank_env
    (episode_start sample_RandomState sample_randint bending_task bent_env
       (Some 42) false).

Definition bending_start_again : Env Z :=
  from_Ok blank_env
    (episode_start sample_RandomState sample_randint bending_task
       bending_reset.2 (Some 42) true).

(** The environment of the posing task with the state vector overwritten by
    [set_state], and two resets of that with the seed 42: the first
    without, the second with a reconfigure. *)
Definition posing_env : Env Z :=
  from_Ok blank_env
    (BaseEnv_init sample_RandomState sample_randint sample_engine sample_agents
       posing_task (sample_args "state" 500 20)).

Definition shaken_env : Env Z :=
  from_Ok blank_env (set_state posing_env (replicate 28 7%Q)).

Definition posing_reset : Obs * Env Z :=
  from_Ok (ODict [], blank_env)
    (reset sample_RandomState sample_randint sample_engine sample_agents
       posing_task shaken_env (Some 42) false).

Definition posing_reset_again : Obs * Env Z :=
  from_Ok (ODict [], blank_env)
    (reset sample_RandomState sample_randint sample_engine sample_agents
       posing_task posing_reset.2 (Some 42) true).

Definition posing_start : Env Z :=
  from_Ok blank_env
    (episode_start sample_RandomState sample_randint posing_task shaken_env
       (Some 42) false).

Definition posing_start_again : Env Z :=
  from_Ok blank_env
    (episode_start sample_RandomState sample_randint posing_task posing_reset.2
       (Some 42) true).

(** What a control step works on: the bodies, the agent and the task data,
    with the episode generator. *)
Definition sim_state {rng} (self : Env rng) : option (Sim * rng) :=
  scene ← _scene self;
  r ← _episode_rng (seeds self);
  Some (mkSim (world scene) (agent self) (task_data self), r).

(** One substep on that state: the agent's hook, one tick of the engine of
    length [dt], the task's hook. Without an agent there is no substep. *)
Definition substep {rng} (engine : Engine) (agents : AgentModel)
    (task : TaskHooks rng) (dt : Q) (st : Sim * rng) : option (Sim * rng) :=
  ag ← sim_agent st.1;
  let w := before_simulation_step agents ag (sim_world st.1) in
  let w := physics_tick engine w dt in
  Some (_after_simulation_step task
          (mkSim w (sim_agent st.1) (sim_task st.1)) st.2).

Fixpoint substeps {rng} (engine : Engine) (agents : AgentModel)
    (task : TaskHooks rng) (dt : Q) (n : nat) (st : Sim * rng)
  : option (Sim * rng) :=
  match n with
  | O => Some st
  | S n' => st' ← substep engine agents task dt st;
            substeps engine agents task dt n' st'
  end.

(** The first statements of [step_action], up to the loop: the action is
    handed to the agent and the hook before the control step has run. *)
Definition control_step_start {rng} (agents : AgentModel) (task : TaskHooks rng)
    (self : Env rng) (action : Action) : result (Env rng) :=
  self ← match action with
         | NoAction => Ok self
         | ArrayAction a =>
             ag ← not_None (agent self);
             Ok (set_agent self (Some (set_action agents ag a)))
         | DictAction mode a =>
             ag ← not_None (agent self);
             let ag :=
               if decide (mode ≠ control_mode ag)
               then set_control_mode agents ag mode else ag in
             Ok (set_agent self (Some (set_action agents ag a)))
         | OtherAction => Raise TypeError
         end;
  run_hook (_before_control_step task) self.

(** The state of the loop of [step_action] after [k] rounds, started on
    [st0] when the scene had run [t0] ticks. *)
Definition stepped {rng} (engine : Engine) (agents : AgentModel)
    (task : TaskHooks rng) (cfg : EnvConfig) (dt : Q) (t0 : nat) (st0 : Sim * rng)
    (k : nat) (self : Env rng) : Prop :=
  config self = cfg
  ∧ is_Some (agent self)
  ∧ ∃ scene st,
      _scene self = Some scene
      ∧ scene_timestep scene = dt
      ∧ sim_ticks scene = (t0 + k)%nat
      ∧ sim_state self = Some st
      ∧ substeps engine agents task dt k st0 = Some st.

(** The image and point-cloud observation modes. *)
Definition camera_modes : list string :=
  ["rgbd"; "pointcloud"; "rgbd_robot_seg"; "pointcloud_robot_seg"].

(** The constructor call of the sample task with a mode and a renderer. *)
Definition construct (mode renderer : string) : result (Env Z) :=
  BaseEnv_init sample_RandomState sample_randint sample_engine sample_agents
    sample_task (mkArgs (Some mode) None None 500 20 renderer None false).

(** An environment on which a subclass has assigned the two attributes the
    observation code reads. *)
Definition with_flags {rng} (self : Env rng) (gt_seg kuafu : bool) : Env rng :=
  let c := config self in
  mkEnv
    (mkEnvConfig (_renderer_type c) (_sim_freq c) (_control_freq c)
       (_sim_steps_per_control c) (_obs_mode c) (_reward_mode c)
       (_control_mode c) (_agent_cfg c) (_camera_cfgs c) (enable_shadow c)
       (Some gt_seg) (Some kuafu))
    (seeds self) (_elapsed_steps self) (_scene self) (agent self)
    (task_data self) (_cameras self) (_actors self) (_articulations self)
    (_viewer self) (warnings self) (observation_space self)
    (env_action_space self).

(** The sample environment on the limited renderer, in the state mode. *)
Definition kuafu_env : Env Z := from_Ok blank_env (construct "state" "kuafu").

(** The sample environment with the robot's joint moved by [set_state]. *)
Definition moved_env : Env Z :=
  from_Ok blank_env
    (set_state sample_env (replicate 26 0%Q ++ [5%Q; 0%Q])).

(** Two resets of the moved sample environment with the seed 42: the first
    without, the second with a reconfigure. *)
Definition moved_reset : Obs * Env Z :=
  from_Ok (ODict [], blank_env)
    (reset sample_RandomState sample_randint sample_engine sample_agents
       sample_task moved_env (Some 42) false).

Definition moved_reset_again : Obs * Env Z :=
  from_Ok (ODict [], blank_env)
    (reset sample_RandomState sample_randint sample_engine sample_agents
       sample_task moved_reset.2 (Some 42) true).

(** The sample environment at 500 Hz against 30 Hz. *)
Definition uneven_env : Env Z :=
  from_Ok blank_env
    (BaseEnv_init sample_RandomState sample_randint sample_engine sample_agents
       sample_task (sample_args "state" 500 30)).

Definition uneven_scene : Scene :=
  default (mkScene (mkWorld [] []) [] [] 0%Q 0%nat) (_scene uneven_env).

(** ** Notions used by further properties of the controller *)

(** What a task hook and a control step leave alone: everything but the
    bodies, the agent, the task data and the episode generator. *)
Definition keeps_setup {rng} (a b : Env rng) : Prop :=
  frame a b
  ∧ _elapsed_steps b = _elapsed_steps a
  ∧ _cameras b = _cameras a
  ∧ _actors b = _actors a
  ∧ _articulations b = _articulations a
  ∧ _viewer b = _viewer a
  ∧ observation_space b = observation_space a
  ∧ env_action_space b = env_action_space a.

(** Two scenes with the same bodies, lights, time step and tick count. *)
Definition same_stage (a b : Scene) : Prop :=
  world b = world a
  ∧ scene_lights b = scene_lights a
  ∧ scene_timestep b = scene_timestep a
  ∧ sim_ticks b = sim_ticks a.

Section Reachable.
Context {rng : Type}.
Context (RandomState : Z → rng) (randint : Z → rng → Z * rng).
Context (engine : Engine) (agents : AgentModel) (task : TaskHooks rng).

(** The environments an environment can become through its public methods. *)
Inductive reachable (env : Env rng) : Env rng → Prop :=
  | reach_here : reachable env env
  | reach_seed env1 s entropy :
      reachable env env1 → reachable env (seed RandomState env1 s entropy).1
  | reach_reset env1 s b obs env2 :
      reachable env env1 →
      reset RandomState randint engine agents task env1 s b = Ok (obs, env2) →
      reachable env env2
  | reach_step env1 action obs reward done_ info env2 :
      reachable env env1 →
      step engine agents task env1 action = Ok (obs, reward, done_, info, env2) →
      reachable env env2
  | reach_set_state env1 state env2 :
      reachable env env1 → set_state env1 state = Ok env2 → reachable env env2
  | reach_close env1 : reachable env env1 → reachable env (close env1).
End Reachable.

(** [v is None] *)
Definition is_None (v : pyval) : bool :=
  match v with
  | PyNone => true
  | _ => false
  end.

(** ** SensorRig: [parse_camera_cfgs] *)

(** The argument of [parse_camera_cfgs], as its [isinstance] tests see it:
    a tuple or list of configurations, a dictionary, one configuration, or
    anything else. *)
Inductive CameraCfgsArg :=
  | CfgSeq (cfgs : list CameraConfig)
  | CfgDict (d : odict CameraConfig)
  | CfgOne (cfg : CameraConfig)
  | CfgOther.

(** [cfg.uuid] used as a dictionary key. Dictionaries are keyed by strings
    here, as the annotation [uuid: str] has it; a uuid of another type is
    outside the model and refused. *)
Definition uuid_key (cfg : CameraConfig) : result string :=
  u ← getattr cfg "uuid";
  match u with
  | PyStr s => Ok s
  | _ => Raise TypeError
  end.

(** [OrderedDict(pairs)]: a later pair with a key already seen replaces the
    value and keeps the place of the first. *)
Definition OrderedDict {V} (pairs : list (string * V)) : odict V :=
  odict_update [] pairs.

Definition parse_camera_cfgs (camera_cfgs : CameraCfgsArg)
  : result (odict CameraConfig) :=
  match camera_cfgs with
  | CfgSeq cfgs =>
      pairs ← for_each (λ acc cfg, u ← uuid_key cfg; Ok (acc ++ [(u, cfg)])) cfgs [];
      Ok (OrderedDict pairs)
  | CfgDict d => Ok (OrderedDict d)
  | CfgOne cfg => u ← uuid_key cfg; Ok (OrderedDict [(u, cfg)])
  | CfgOther => Raise TypeError
  end.

(** The configuration's uuid is the string [u]. *)
Definition has_uuid (u : string) (cfg : CameraConfig) : bool :=
  match __dict__ cfg !! "uuid" with
  | Some (PyStr s) => bool_decide (s = u)
  | _ => false
  end.

Definition string_uuid (cfg : CameraConfig) : Prop :=
  ∃ s, __dict__ cfg !! "uuid" = Some (PyStr s).

(** ** SensorRig: reading a runtime camera *)

(** The rendering side of the engine: [pictures] stands for what has been
    rendered so far; the texture getters read from it. *)
Record Renderer (pictures : Type) := mkRenderer {
  update_render : Scene → pictures → pictures;
  take_picture : CameraEntity → pictures → pictures;
  get_float_texture : pictures → CameraEntity → string → ndarray scalar;
  get_uint32_texture : pictures → CameraEntity → string → ndarray Z }.
Arguments mkRenderer {pictures}.
Arguments update_render {pictures}.
Arguments take_picture {pictures}.
Arguments get_float_texture {pictures}.
Arguments get_uint32_texture {pictures}.

Definition TEXTURE_DTYPE : odict string :=
  [("Color", "float"); ("Position", "float"); ("Segmentation", "uint32")].

(** [for name in self.texture_names]: the names are strings
    ([Sequence[str]]); a value that is not a sequence of strings is outside
    the model and refused. *)
Definition iter_texture_names (names : pyval) : result (list string) :=
  match names with
  | PySeq xs =>
      for_each
        (λ acc x, match x with PyStr s => Ok (acc ++ [s]) | _ => Raise TypeError end)
        xs []
  | _ => Raise TypeError
  end.

(** Bounds of a box space: a number or an infinity. *)
Inductive Bound :=
  | Finite (z : Z)
  | NegInf
  | PosInf.

(** [spaces.Box(low, high, shape, dtype)] *)
Record BoxSpace := mkBoxSpace {
  low : Bound;
  high : Bound;
  box_shape : list pyval;
  dtype : string }.

Section CameraMethods.
Context {pictures : Type} (renderer : Renderer pictures).

Definition Camera_take_picture (c : Camera) (pics : pictures) : pictures :=
  take_picture renderer (camera c) pics.

(** The body of the loop of [get_images]. *)
Definition get_image (c : Camera) (pics : pictures) (images : odict tensor)
    (name : string) : result (odict tensor) :=
  dtype ← match odict_get TEXTURE_DTYPE name with
          | Some d => Ok d
          | None => Raise (KeyError name)
          end;
  image ←
    (if decide (dtype = "float") then
       Ok (Floats (get_float_texture renderer pics (camera c) name))
     else if decide (dtype = "uint32") then
       Ok (UInts (get_uint32_texture renderer pics (camera c) name))
     else Raise (NotImplementedError dtype));
  Ok (odict_set images name image).

(** [Camera.get_images] *)
Definition Camera_get_images (c : Camera) (pics : pictures) (take : bool)
  : result (odict tensor * pictures) :=
  let pics := if take then Camera_take_picture c pics else pics in
  if decide (renderer_type c = "client") then Ok ([], pics)
  else
    names ← iter_texture_names (texture_names c);
    images ← for_each (get_image c pics) names [];
    Ok (images, pics).

(** [Camera.get_params] *)
Definition Camera_get_params (engine : Engine) (scene : Scene) (c : Camera)
  : odict tensor :=
  [("extrinsic", get_extrinsic_matrix engine scene (camera c));
   ("intrinsic", get_intrinsic_matrix engine scene (camera c))].

(** The body of the loop of [observation_space]. *)
Definition texture_space (c : Camera) (obs_spaces : odict BoxSpace)
    (name : string) : result (odict BoxSpace) :=
  let height := cam_height (camera c) in
  let width := cam_width (camera c) in
  if decide (name = "Color") then
    Ok (odict_set obs_spaces name
          (mkBoxSpace (Finite 0) (Finite 1) [height; width; PyInt 4] "float32"))
  else if decide (name = "Position") then
    Ok (odict_set obs_spaces name
          (mkBoxSpace NegInf PosInf [height; width; PyInt 4] "float32"))
  else if decide (name = "Segmentation") then
    Ok (odict_set obs_spaces name
          (mkBoxSpace (Finite 0) (Finite (2 ^ 32 - 1))
             [height; width; PyInt 4] "uint32"))
  else Raise (NotImplementedError name).

(** [Camera.observation_space] *)
Definition Camera_observation_space (c : Camera) : result (odict BoxSpace) :=
  names ← iter_texture_names (texture_names c);
  for_each (texture_space c) names [].
End CameraMethods.

(** The element type of an image as the space names it. *)
Definition tensor_dtype (t : tensor) : string :=
  match t with
  | Floats _ => "float32"
  | UInts _ => "uint32"
  end.

(** The shape of an image, written as a space writes its shape. *)
Definition tensor_shape (t : tensor) : list pyval :=
  (λ n, PyInt (Z.of_nat n))
    <$> match t with Floats a => shape a | UInts a => shape a end.

(** The engine renders the textures of a camera at the camera's resolution,
    with four channels. *)
Definition renders_at_resolution {pictures} (renderer : Renderer pictures)
    (c : CameraEntity) : Prop :=
  ∀ pics name,
    tensor_shape (Floats (get_float_texture renderer pics c name))
    = [cam_height c; cam_width c; PyInt 4]
    ∧ tensor_shape (UInts (get_uint32_texture renderer pics c name))
      = [cam_height c; cam_width c; PyInt 4].

Definition known_texture (name : string) : Prop :=
  name ∈ ["Color"; "Position"; "Segmentation"].

(** The texture names list "Color". *)
Definition lists_color (names : list pyval) : bool :=
  existsb (λ x, match x with PyStr s => bool_decide (s = "Color") | _ => false end)
    names.

(** The image a camera renders for a texture name. *)
Definition texture_of {pictures} (renderer : Renderer pictures)
    (pics : pictures) (c : Camera) (name : string) : tensor :=
  if decide (name = "Segmentation")
  then UInts (get_uint32_texture renderer pics (camera c) name)
  else Floats (get_float_texture renderer pics (camera c) name).

(** ** Visualization: [BaseEnv.render] *)

(** What [render] calls on arrays and images: the conversion of a colour
    image to bytes, [np.clip(rgb[..., :3] * 255, 0, 255).astype(np.uint8)],
    and the two helpers of [mani_skill2.utils.visualization.misc]. *)
Record Visualization := mkVisualization {
  rgb_to_uint8 : tensor → tensor;
  observations_to_images : odict tensor → list tensor;
  tile_images : list tensor → tensor }.

(** What [render] returns: the viewer or an image. *)
Inductive Rendered :=
  | TheViewer
  | AnImage (image : tensor).

Section Render.
Context {rng pictures : Type}.
Context (renderer : Renderer pictures) (viz : Visualization).
Implicit Type self : Env rng.

(** [self._cameras[name]] *)
Definition cameras_getitem self (name : string) : result Camera :=
  match odict_get (_cameras self) name with
  | Some c => Ok c
  | None => Raise (KeyError name)
  end.

(** The ["rgb_array"] branch. *)
Definition render_rgb_array self (pics : pictures) : result (tensor * pictures) :=
  cam ← cameras_getitem self "render_camera";
  let pics := Camera_take_picture renderer cam pics in
  cam ← cameras_getitem self "render_camera";
  '(images, pics) ← Camera_get_images renderer cam pics false;
  rgb ← match odict_get images "Color" with
        | Some x => Ok x
        | None => Raise (KeyError "Color")
        end;
  Ok (rgb_to_uint8 viz rgb, pics).

(** [BaseEnv.render]. The viewer is a flag of the environment, as in
    [_close_viewer]; what it draws on the screen in the ["human"] mode is
    not part of the state. The ["cameras"] mode calls
    [self.render("rgb_array")], which syncs the renderer once more before it
    takes the picture. *)
Definition render self (pics : pictures) (mode : string)
  : result (Rendered * Env rng * pictures) :=
  scene ← not_None (_scene self);
  let pics := update_render renderer scene pics in
  if decide (mode = "human") then
    self ← (if _viewer self then Ok self
            else _setup_viewer (set_viewer self true));
    Ok (TheViewer, self, pics)
  else if decide (mode = "rgb_array") then
    '(rgb, pics) ← render_rgb_array self pics;
    Ok (AnImage rgb, self, pics)
  else if decide (mode = "cameras") then
    '(rgb, pics) ← render_rgb_array self (update_render renderer scene pics);
    let images := [rgb] in
    let pics := update_render renderer scene pics in
    '(cameras_images, pics) ←
      for_each
        (λ '(acc, pics) '(name, cam),
           if decide (name ≠ "render_camera") then
             '(imgs, pics) ← Camera_get_images renderer cam pics true;
             Ok (odict_set acc name imgs, pics)
           else Ok (acc, pics))
        (_cameras self) ([], pics);
    let images :=
      foldl (λ images camera_images,
               images ++ observations_to_images viz camera_images)
        images (odict_values cameras_images) in
    Ok (AnImage (tile_images viz images), self, pics)
  else Raise (NotImplementedError ("Unsupported render mode " +:+ mode +:+ ".")).
End Render.

(** ** Vectorized environments ([vector/__init__.py]) *)

Inductive ObservationWrapper :=
  | RGBDObservationWrapper
  | PointCloudObservationWrapper.

(** The address handed to [VecEnv]: none, the string given, or
    ["localhost:{port}"] for a free port. *)
Inductive ServerAddress :=
  | NoAddress
  | Address (s : string)
  | Localhost (port : Z).

(** What [make] builds: the arguments of the [VecEnv] call (one environment
    function per environment, each the registered [EnvSpec] with the keyword
    arguments), the wrapper put around it with the [obs_mode] set on it,
    and the address it logged. *)
Record VecEnv (EnvSpec : Type) := mkVecEnv {
  env_fns : list (EnvSpec * odict pyval);
  server_address : ServerAddress;
  wrapper : option ObservationWrapper;
  venv_obs_mode : option pyval;
  logged : list ServerAddress }.
Arguments mkVecEnv {EnvSpec}.
Arguments env_fns {EnvSpec}.
Arguments server_address {EnvSpec}.
Arguments wrapper {EnvSpec}.
Arguments venv_obs_mode {EnvSpec}.
Arguments logged {EnvSpec}.

(** [v == s] for a string [s]. *)
Definition py_eq_str (v : pyval) (s : string) : bool :=
  match v with
  | PyStr s' => bool_decide (s' = s)
  | _ => false
  end.

(** [v in strings] *)
Definition py_in (v : pyval) (strings : list string) : bool :=
  existsb (py_eq_str v) strings.

(** [make]; [free_port] is the port the operating system gives. *)
Definition make {EnvSpec} (REGISTERED_ENVS : gmap string EnvSpec) (free_port : Z)
    (env_id : string) (num_envs : Z) (server_address : option string)
    (kwargs : odict pyval) : result (VecEnv EnvSpec) :=
  match REGISTERED_ENVS !! env_id with
  | None => Raise (KeyError ("Env " +:+ env_id +:+ " not found in registry"))
  | Some env_spec =>
      let obs_mode := default PyNone (odict_get kwargs "obs_mode") in
      let kwargs :=
        if negb (py_in obs_mode ["state"; "state_dict"; "none"])
        then odict_set kwargs "obs_mode" (PyStr "image") else kwargs in
      let env_fn := (env_spec, kwargs) in
      let '(server_address, logged) :=
        if decide (server_address = Some "auto")
        then (Localhost free_port, [Localhost free_port])
        else (from_option Address NoAddress server_address, []) in
      let venv := replicate (Z.to_nat num_envs) env_fn in
      if py_eq_str obs_mode "rgbd" then
        Ok (mkVecEnv venv server_address (Some RGBDObservationWrapper)
              (Some obs_mode) logged)
      else if py_eq_str obs_mode "pointcloud" then
        Ok (mkVecEnv venv server_address (Some PointCloudObservationWrapper)
              (Some obs_mode) logged)
      else Ok (mkVecEnv venv server_address None None logged)
  end.

(** ** More runs of the sample task *)

(** The state of the sample environment. *)
Definition sample_state : list scalar :=
  from_Ok [] (get_state sample_env).

(** One control step of the sample environment without an action. *)
Definition sample_step : Obs * Q * bool * odict pyval * Env Z :=
  from_Ok (ODict [], 0%Q, false, [], blank_env)
    (step sample_engine sample_agents sample_task sample_env NoAction).

(** The sample environment in the sparse reward mode, and one step of it. *)
Definition sparse_env : Env Z :=
  from_Ok blank_env
    (BaseEnv_init sample_RandomState sample_randint sample_engine sample_agents
       sample_task
       (mkArgs (Some "state") (Some "sparse") None 500 20 "vulkan" None
          false)).

Definition sparse_step : Obs * Q * bool * odict pyval * Env Z :=
  from_Ok (ODict [], 0%Q, false, [], blank_env)
    (step sample_engine sample_agents sample_task sparse_env NoAction).

(** The sample task with [evaluate] and [compute_dense_reward] as [BaseEnv]
    has them. *)
Definition unfinished_task : TaskHooks Z :=
  mkTaskHooks (_set_agent_cfg sample_task) (_get_camera_cfgs sample_task)
    load_sample_agent (add_actor sample_cube) pass
    pass pass pass pass pass pass
    (evaluate (rng:=Z) BaseEnv_hooks) (compute_dense_reward (rng:=Z) BaseEnv_hooks)
    (λ _, ODict []).

(** Three configurations, two of them with the uuid "cam1". *)
Definition three_cfgs : list CameraConfig :=
  [sample_camera_cfg "cam1" PyNone PyNone;
   sample_camera_cfg "cam2" PyNone PyNone;
   sample_camera_cfg "cam1" (PyStr "robot") (PyStr "hand")].

(** A renderer whose textures are constant 1 x 1 x 4 images, drawing helpers
    that keep the first image, and a camera for rendering. *)
Definition sample_renderer : Renderer unit :=
  mkRenderer (λ _ p, p) (λ _ p, p)
    (λ _ _ _, mk_ndarray [1; 1; 4]%nat [1%Q; 0%Q; 0%Q; 1%Q])
    (λ _ _ _, mk_ndarray [1; 1; 4]%nat [0; 0; 0; 0]).

Definition sample_viz : Visualization :=
  mkVisualization (λ t, t) (λ d, odict_values d)
    (λ ts, default (Floats (mk_ndarray [0%nat] [])) (head ts)).

Definition render_camera : Camera :=
  mkCamera (sample_camera_cfg "render_camera" PyNone PyNone) "vulkan" None
    (mkCameraEntity (PyStr "render_camera") None
       (PySeq [PyFloat 0; PyFloat 0; PyFloat 1],
        PySeq [PyFloat 1; PyFloat 0; PyFloat 0; PyFloat 0])
       (PyInt 128) (PyInt 128) (PyFloat 1.57) (PyFloat 0.01) (PyFloat 10))
    default_texture_names.

(** A camera of one pixel, the size of the sample renderer's images. *)
Definition thumbnail_camera : Camera :=
  (from_Ok (render_camera, sample_scene)
     (Camera_init
        (CameraConfig_init (PyStr "thumbnail")
           (PySeq [PyFloat 0; PyFloat 0; PyFloat 1])
           (PySeq [PyFloat 1; PyFloat 0; PyFloat 0; PyFloat 0])
           (PyInt 1) (PyInt 1) (PyFloat 1.57) (PyFloat 0.01) (PyFloat 10)
           PyNone PyNone default_texture_names)
        sample_scene "vulkan")).1.

Definition render_env : Env Z :=
  set_cameras sample_env [("render_camera", render_camera)].

(** The camera on the robot's hand, on the limited renderer and on the
    default one. *)
Definition kuafu_hand_camera : Camera * Scene :=
  from_Ok (render_camera, sample_scene)
    (Camera_init (sample_camera_cfg "hand_camera" (PyStr "robot") (PyStr "hand"))
       sample_scene "kuafu").

Definition hand_camera : Camera * Scene :=
  from_Ok (render_camera, sample_scene)
    (Camera_init (sample_camera_cfg "hand_camera" (PyStr "robot") (PyStr "hand"))
       sample_scene "vulkan").

(** A registry with one environment. *)
Definition sample_registry : gmap string string :=
  {["PickCube-v0" := "PickCubeEnv"]}.

Definition sample_venv : VecEnv string :=
  from_Ok (mkVecEnv [] NoAddress None None [])
    (make sample_registry 5000 "PickCube-v0" 2 (Some "auto")
       [("obs_mode", PyStr "rgbd_robot_seg")]).

(** Three resets of the sample environment in a row: without a seed, with
    the seed 7 and a reconfigure, and without a seed again. *)
Definition episode_1 : Obs * Env Z :=
  from_Ok (ODict [], blank_env)
    (reset sample_RandomState sample_randint sample_engine sample_agents
       sample_task sample_env None false).

Definition episode_2 : Obs * Env Z :=
  from_Ok (ODict [], blank_env)
    (reset sample_RandomState sample_randint sample_engine sample_agents
       sample_task episode_1.2 (Some 7) true).

Definition episode_3 : Obs * Env Z :=
  from_Ok (ODict [], blank_env)
    (reset sample_RandomState sample_randint sample_engine sample_agents
       sample_task episode_2.2 None false).

(** The scene of the moved sample environment. *)
Definition moved_scene : Scene :=
  default (mkScene (mkWorld [] []) [] [] 0%Q 0%nat) (_scene moved_env).

(** The two sample cameras after the merge of [near_overrides]. *)
Definition merged_cameras : odict CameraConfig :=
  (update_camera_cfgs_from_dict two_cameras near_overrides).1.

(** * Properties *)

(** ** The error monad *)

Lemma bind_Ok {A B} (m : result A) (f : A → result B) (b : B) :
  m ≫= f = Ok b → ∃ a, m = Ok a ∧ f a = Ok b.
Proof. destruct m as [a|e]; simpl; [eauto | discriminate]. Qed.

Lemma not_None_Ok {A} (o : option A) (a : A) : not_None o = Ok a → o = Some a.
Proof. destruct o; simpl; congruence. Qed.

Tactic Notation "inv_bind" hyp(H) "as" ident(a) ident(H1) :=
  apply bind_Ok in H; destruct H as (a & H1 & H).

Lemma for_each_app {A S} (body : S → A → result S) xs ys acc :
  for_each body (xs ++ ys) acc = acc' ← for_each body xs acc; for_each body ys acc'.
Proof.
  revert acc; induction xs as [|x xs IH]; intros acc; simpl; [done|].
  destruct (body acc x); simpl; auto.
Qed.

(** ** StateCodec *)

Lemma length_get_actor_state a : length (get_actor_state a) = 13%nat.
Proof. reflexivity. Qed.

Lemma length_get_articulation_state a :
  length (get_articulation_state a) = (13 + 2 * dof a)%nat.
Proof.
  unfold get_articulation_state, get_qpos, get_qvel, dof.
  rewrite !length_app, !length_fmap. simpl. lia.
Qed.

Lemma collect_lookup {A B} (l : list A) (g : A → B) (e : Exception) hs
    (acc : list B) :
  Forall (λ h, h < length l)%nat hs →
  for_each
    (λ st h, a ← match l !! h with Some a => Ok a | None => Raise e end;
             Ok (st ++ [g a])) hs acc
  = Ok (acc ++ (g <$> omap (λ h, l !! h) hs)).
Proof.
  intros Hall; revert acc.
  induction Hall as [|h hs Hh _ IH]; intros acc; simpl.
  - by rewrite app_nil_r.
  - apply lookup_lt_is_Some in Hh as [a Ha]. rewrite Ha. simpl.
    rewrite IH, <- app_assoc. done.
Qed.

Lemma length_omap_lookup {A} (l : list A) hs :
  Forall (λ h, h < length l)%nat hs →
  length (omap (λ h, l !! h) hs) = length hs.
Proof.
  induction 1 as [|h hs Hh _ IH]; simpl; [done|].
  apply lookup_lt_is_Some in Hh as [a Ha]. rewrite Ha. simpl.
  f_equal. exact IH.
Qed.

Lemma Forall_seq_lt n m : (n ≤ m)%nat → Forall (λ h, h < m)%nat (seq 0 n).
Proof.
  intros Hle. apply Forall_forall. intros h Hh.
  apply elem_of_seq in Hh. lia.
Qed.

Lemma length_concat_actor_states (xs : list Actor) :
  length (concat (get_actor_state <$> xs)) = (13 * length xs)%nat.
Proof.
  induction xs as [|a xs IH]; [done|].
  rewrite fmap_cons, concat_cons, length_app, IH, length_get_actor_state.
  simpl; lia.
Qed.

Lemma length_concat_articulation_states (xs : list Articulation) :
  length (concat (get_articulation_state <$> xs))
  = sum_list ((λ a, 13 + 2 * dof a)%nat <$> xs).
Proof.
  induction xs as [|a xs IH]; [done|].
  rewrite !fmap_cons, concat_cons, length_app, IH, length_get_articulation_state.
  simpl; lia.
Qed.

Lemma reconfigure_snapshot {rng} (task : TaskHooks rng) self self1 :
  reconfigure task self = Ok self1 →
  ∃ scene1, _scene self1 = Some scene1
    ∧ _actors self1 = get_all_actors scene1
    ∧ _articulations self1 = get_all_articulations scene1.
Proof.
  unfold reconfigure. intros H.
  inv_bind H as s1 H1. inv_bind H as s2 H2. inv_bind H as s3 H3.
  inv_bind H as s4 H4. inv_bind H as s5 H5. inv_bind H as s6 H6.
  inv_bind H as s7 H7.
  unfold get_actors, get_articulations in H.
  inv_bind H as actors Ha. inv_bind Ha as scene Hs. apply not_None_Ok in Hs.
  inv_bind H as arts Hb. inv_bind Hb as scene' Hs'. apply not_None_Ok in Hs'.
  injection Ha as <-. injection Hb as <-. injection H as <-.
  exists scene. simpl. split; [done|]. split; [done|].
  congruence.
Qed.

(** Encoding reads the bodies behind the cached handles, actors first. *)
Lemma get_sim_state_alive {rng} (self : Env rng) scene :
  _scene self = Some scene →
  handles_alive (world scene) (_actors self) (_articulations self) →
  _actors self ≠ [] ∨ _articulations self ≠ [] →
  get_sim_state self
  = Ok (concat (get_actor_state <$> snapshot_actors (world scene) (_actors self))
        ++ concat (get_articulation_state
                     <$> snapshot_articulations (world scene) (_articulations self))).
Proof.
  intros Hs [Ha Hb] Hne. unfold get_sim_state. rewrite Hs. simpl.
  unfold world_actor, world_articulation.
  rewrite (collect_lookup _ get_actor_state _ _ [] Ha). simpl.
  rewrite (collect_lookup _ get_articulation_state _ _ _ Hb). simpl.
  fold (snapshot_actors (world scene) (_actors self)).
  fold (snapshot_articulations (world scene) (_articulations self)).
  unfold hstack.
  destruct ((get_actor_state <$> snapshot_actors (world scene) (_actors self))
            ++ (get_articulation_state
                  <$> snapshot_articulations (world scene) (_articulations self)))
    as [|x xs] eqn:E.
  - exfalso. apply (f_equal length) in E.
    rewrite length_app, !length_fmap in E.
    unfold snapshot_actors, snapshot_articulations in E.
    rewrite !length_omap_lookup in E by done. simpl in E.
    destruct Hne as [Hne|Hne]; apply Hne, length_zero_iff_nil; lia.
  - rewrite <- E. by rewrite concat_app.
Qed.

(** C3. After a reconfigure the encoded state vector is laid out by the
    snapshot cached there: first one 13-wide segment per cached actor, then
    one segment of width 13 + 2 * dof per cached articulation, so its length
    is 13 * |actors| + the sum of (13 + 2 * dof). The bodies are the ones
    behind the cached handles, whatever the scene enumerates by then: in any
    later scene state, with bodies moved or added, the vector still has
    exactly the cached segments. (An empty snapshot makes [np.hstack]
    raise, hence the premise that it holds a body.) *)
Theorem segment_law {rng} (task : TaskHooks rng) (self self1 : Env rng) :
  reconfigure task self = Ok self1 →
  _actors self1 ≠ [] ∨ _articulations self1 ≠ [] →
  ∃ scene1, _scene self1 = Some scene1
    ∧ _actors self1 = get_all_actors scene1
    ∧ _articulations self1 = get_all_articulations scene1
    ∧ ∀ scene' : Scene,
        (length (all_actors (world scene1))
           ≤ length (all_actors (world scene')))%nat →
        (length (all_articulations (world scene1))
           ≤ length (all_articulations (world scene')))%nat →
        let actors := snapshot_actors (world scene') (_actors self1) in
        let articulations :=
          snapshot_articulations (world scene') (_articulations self1) in
        ∃ v, get_sim_state (set_scene self1 (Some scene')) = Ok v
          ∧ v = concat (get_actor_state <$> actors)
                ++ concat (get_articulation_state <$> articulations)
          ∧ length actors = length (_actors self1)
          ∧ length articulations = length (_articulations self1)
          ∧ length v
            = (13 * length (_actors self1)
               + sum_list ((λ a, 13 + 2 * dof a) <$> articulations))%nat.
Proof.
  intros Hre Hne.
  destruct (reconfigure_snapshot _ _ _ Hre) as (scene1 & Hs & Ha & Hb).
  exists scene1. repeat split; try done.
  intros scene' Hla Hlb actors articulations.
  assert (Halive : handles_alive (world scene') (_actors self1) (_articulations self1)).
  { split; [rewrite Ha | rewrite Hb]; by apply Forall_seq_lt. }
  eexists. split; [|split; [reflexivity|]].
  - by apply (get_sim_state_alive (set_scene self1 (Some scene')) scene').
  - destruct Halive as [H1 H2].
    assert (length actors = length (_actors self1)) as Hlen1
      by by apply length_omap_lookup.
    assert (length articulations = length (_articulations self1)) as Hlen2
      by by apply length_omap_lookup.
    repeat split; try done.
    rewrite length_app, length_concat_actor_states,
      length_concat_articulation_states, Hlen1. done.
Qed.

(** *** Decoding *)

Lemma slice_length {A} (l : list A) start n :
  length (slice l start (start + n)) = Nat.min n (length l - start).
Proof. unfold slice. rewrite length_take, length_drop. f_equal. lia. Qed.

Lemma slice_take {A} (l : list A) L start stop :
  (stop ≤ L)%nat → slice (take L l) start stop = slice l start stop.
Proof.
  intros Hle. unfold slice.
  rewrite skipn_firstn_comm, take_take. f_equal. lia.
Qed.

Lemma set_actor_state_Ok a seg :
  is_Ok (set_actor_state a seg) ↔ length seg = 13%nat.
Proof.
  unfold set_actor_state, is_Ok. split.
  - intros [a' H].
    do 14 (destruct seg as [|? seg]; try discriminate H). done.
  - intros H. do 14 (destruct seg as [|? seg]; try discriminate H).
    simpl. eauto.
Qed.

Lemma read_kinematic_Some seg :
  (13 ≤ length seg)%nat →
  ∃ p v w, read_kinematic seg = Some (p, v, w, drop 13 seg).
Proof.
  intros H. do 13 (destruct seg as [|? seg]; [simpl in H; lia|]).
  simpl. eauto.
Qed.

Lemma read_kinematic_None seg :
  (length seg < 13)%nat → read_kinematic seg = None.
Proof.
  intros H. do 13 (destruct seg as [|? seg]; [done|]). simpl in H. lia.
Qed.

Lemma set_articulation_state_Ok a seg :
  is_Ok (set_articulation_state a seg) ↔ length seg = (13 + 2 * dof a)%nat.
Proof.
  unfold set_articulation_state, is_Ok.
  destruct (decide (13 ≤ length seg)%nat) as [Hle|Hlt].
  - destruct (read_kinematic_Some seg Hle) as (p & v & w & ->).
    case_decide as Hd; rewrite length_drop in Hd.
    + split; [lia | eauto].
    + split; [intros [? ?]; discriminate | lia].
  - rewrite read_kinematic_None by lia.
    split; [intros [? ?]; discriminate | lia].
Qed.

Lemma set_articulation_state_dof a seg a' :
  set_articulation_state a seg = Ok a' → dof a' = dof a.
Proof.
  unfold set_articulation_state.
  destruct (read_kinematic seg) as [[[[p v] w] rest]|]; [|discriminate].
  case_decide as Hd; [|discriminate].
  intros [= <-]. unfold dof at 1. simpl.
  rewrite length_zip, length_take, length_drop. lia.
Qed.

Lemma raises_bind {A B} (m : result A) (f : A → result B) :
  raises m → raises (m ≫= f).
Proof. intros [e ->]. by exists e. Qed.

Lemma is_Ok_not_raises {A} (r : result A) : is_Ok r ↔ ¬ raises r.
Proof.
  destruct r as [a|e]; split.
  - intros _ [e' ?]; discriminate.
  - intros _; by exists a.
  - intros [a ?]; discriminate.
  - intros H; exfalso; apply H; by exists e.
Qed.

Lemma Ok_bind {A B} (a : A) (f : A → result B) : Ok a ≫= f = f a.
Proof. reflexivity. Qed.

Lemma Raise_bind {A B} (e : Exception) (f : A → result B) :
  Raise e ≫= f = Raise e.
Proof. reflexivity. Qed.

(** *** Actors *)

Lemma length_put_actor w h a :
  length (all_actors (put_actor w h a)) = length (all_actors w).
Proof. apply length_insert. Qed.

Lemma set_actor_states_cons state h hs w start :
  set_actor_states state (h :: hs) (w, start)
  = a ← world_actor w h;
    a' ← set_actor_state a (slice state start (start + 13));
    set_actor_states state hs (put_actor w h a', start + 13)%nat.
Proof.
  unfold set_actor_states. simpl.
  destruct (world_actor w h) as [a|e]; simpl; [|done].
  by destruct (set_actor_state a _).
Qed.

Lemma set_actor_states_prefix state L hs w start :
  (start + 13 * length hs ≤ L)%nat →
  set_actor_states (take L state) hs (w, start)
  = set_actor_states state hs (w, start).
Proof.
  revert w start; induction hs as [|h hs IH]; intros w start Hle; [done|].
  rewrite !set_actor_states_cons.
  change (length (h :: hs)) with (S (length hs)) in Hle.
  destruct (world_actor w h) as [a|e]; [|done].
  rewrite !Ok_bind, slice_take by lia.
  destruct (set_actor_state a _) as [a'|e]; [|done].
  rewrite !Ok_bind. apply IH. lia.
Qed.

Lemma set_actor_states_spec state hs w start :
  Forall (λ h, h < length (all_actors w))%nat hs →
  (start ≤ length state)%nat →
  ((start + 13 * length hs ≤ length state)%nat →
     ∃ w', set_actor_states state hs (w, start)
           = Ok (w', start + 13 * length hs)%nat
       ∧ all_articulations w' = all_articulations w
       ∧ length (all_actors w') = length (all_actors w))
  ∧ ((length state < start + 13 * length hs)%nat →
     raises (set_actor_states state hs (w, start))).
Proof.
  intros Hall; revert w start Hall.
  induction hs as [|h hs IH]; intros w start Hall Hstart.
  { split; intros H; simpl in *; [|lia].
    exists w. rewrite Nat.add_0_r. by unfold set_actor_states. }
  inversion Hall as [|? ? Hh Hall']; subst; clear Hall; rename Hall' into Hall.
  apply lookup_lt_is_Some in Hh as [a Ha].
  rewrite set_actor_states_cons.
  change (length (h :: hs)) with (S (length hs)).
  unfold world_actor. rewrite Ha, Ok_bind.
  pose proof (slice_length state start 13) as Hlen.
  pose proof (set_actor_state_Ok a (slice state start (start + 13))) as HOk.
  destruct (set_actor_state a (slice state start (start + 13))) as [a'|e] eqn:E.
  - rewrite Ok_bind.
    assert (length (slice state start (start + 13)) = 13%nat) as H13
      by (apply HOk; by exists a').
    assert (Hall' : Forall (λ i, i < length (all_actors (put_actor w h a')))%nat hs).
    { eapply Forall_impl; [exact Hall|]. intros i Hi. cbv beta in *.
      by rewrite length_put_actor. }
    destruct (IH (put_actor w h a') (start + 13)%nat Hall') as [IH1 IH2]; [lia|].
    split; intros H.
    + destruct IH1 as (w' & -> & Hart & Hl); [lia|].
      exists w'. split; [f_equal; f_equal; lia|]. split; [done|].
      rewrite Hl. apply length_put_actor.
    + apply IH2. lia.
  - split; intros H; [|by exists e].
    exfalso. assert (is_Ok (Raise (A:=Actor) e)) as [? ?]; [|discriminate].
    apply HOk. lia.
Qed.

(** *** Articulations *)

Lemma length_put_articulation w h a :
  length (all_articulations (put_articulation w h a))
  = length (all_articulations w).
Proof. apply length_insert. Qed.

Lemma articulation_width_put w h a a' i :
  all_articulations w !! h = Some a → dof a' = dof a →
  articulation_width (put_articulation w h a') i = articulation_width w i.
Proof.
  intros Ha Hd. unfold articulation_width, put_articulation.
  cbn [all_articulations].
  destruct (decide (h = i)) as [->|Hne].
  - rewrite list_lookup_insert_eq by (by eapply lookup_lt_Some).
    rewrite Ha. simpl. by rewrite Hd.
  - by rewrite list_lookup_insert_ne.
Qed.

Lemma total_width_put w h a a' hs :
  all_articulations w !! h = Some a → dof a' = dof a →
  total_width (put_articulation w h a') hs = total_width w hs.
Proof.
  intros Ha Hd. unfold total_width. f_equal.
  apply list_fmap_ext. intros ? i _. by eapply articulation_width_put.
Qed.

Lemma set_articulation_states_cons state h hs w start :
  set_articulation_states state (h :: hs) (w, start)
  = a ← world_articulation w h;
    a' ← set_articulation_state a (slice state start (start + (13 + 2 * dof a)));
    set_articulation_states state hs
      (put_articulation w h a', start + (13 + 2 * dof a))%nat.
Proof.
  unfold set_articulation_states. simpl.
  destruct (world_articulation w h) as [a|e]; simpl; [|done].
  by destruct (set_articulation_state a _).
Qed.

Lemma set_articulation_states_prefix state L hs w start :
  (start + total_width w hs ≤ L)%nat →
  set_articulation_states (take L state) hs (w, start)
  = set_articulation_states state hs (w, start).
Proof.
  revert w start; induction hs as [|h hs IH]; intros w start Hle; [done|].
  rewrite !set_articulation_states_cons.
  unfold total_width in Hle. rewrite fmap_cons in Hle. cbn [sum_list] in Hle.
  fold (total_width w hs) in Hle.
  unfold articulation_width, world_articulation in *.
  destruct (all_articulations w !! h) as [a|] eqn:Ha; [|done].
  cbn [from_option] in Hle. unfold KINEMANTIC_DIM, id in Hle.
  rewrite !Ok_bind, slice_take by lia.
  destruct (set_articulation_state a _) as [a'|e] eqn:E; [|done].
  rewrite !Ok_bind. apply IH.
  rewrite (total_width_put w h a a') by eauto using set_articulation_state_dof.
  lia.
Qed.

Lemma set_articulation_states_spec state hs w start :
  Forall (λ i, i < length (all_articulations w))%nat hs →
  (start ≤ length state)%nat →
  ((start + total_width w hs ≤ length state)%nat →
     ∃ w', set_articulation_states state hs (w, start)
           = Ok (w', start + total_width w hs)%nat
       ∧ all_actors w' = all_actors w)
  ∧ ((length state < start + total_width w hs)%nat →
     raises (set_articulation_states state hs (w, start))).
Proof.
  intros Hall; revert w start Hall.
  induction hs as [|h hs IH]; intros w start Hall Hstart.
  { split; intros H; unfold total_width in *; simpl in *; [|lia].
    exists w. rewrite Nat.add_0_r. by unfold set_articulation_states. }
  inversion Hall as [|? ? Hh Hall']; subst; clear Hall; rename Hall' into Hall.
  apply lookup_lt_is_Some in Hh as [a Ha].
  rewrite set_articulation_states_cons.
  assert (total_width w (h :: hs) = (13 + 2 * dof a) + total_width w hs)%nat as ->.
  { unfold total_width. rewrite fmap_cons. cbn [sum_list].
    unfold articulation_width at 1. by rewrite Ha. }
  unfold world_articulation. rewrite Ha, Ok_bind.
  pose proof (slice_length state start (13 + 2 * dof a)) as Hlen.
  pose proof (set_articulation_state_Ok a
                (slice state start (start + (13 + 2 * dof a)))) as HOk.
  destruct (set_articulation_state a _) as [a'|e] eqn:E.
  - rewrite Ok_bind.
    assert (length (slice state start (start + (13 + 2 * dof a)))
            = (13 + 2 * dof a)%nat) as Hfull by (apply HOk; by exists a').
    assert (Hd : dof a' = dof a) by eauto using set_articulation_state_dof.
    assert (Hall' : Forall
              (λ i, i < length (all_articulations (put_articulation w h a')))%nat hs).
    { eapply Forall_impl; [exact Hall|]. intros i Hi. cbv beta in *.
      by rewrite length_put_articulation. }
    destruct (IH (put_articulation w h a') (start + (13 + 2 * dof a))%nat Hall')
      as [IH1 IH2]; [lia|].
    rewrite (total_width_put w h a a') in IH1, IH2 by done.
    split; intros H.
    + destruct IH1 as (w' & -> & Hact); [lia|].
      exists w'. split; [f_equal; f_equal; lia|]. done.
    + apply IH2. lia.
  - split; intros H; [|by exists e].
    exfalso. assert (is_Ok (Raise (A:=Articulation) e)) as [? ?]; [|discriminate].
    apply HOk. lia.
Qed.

Lemma total_width_ext w w' hs :
  all_articulations w' = all_articulations w →
  total_width w' hs = total_width w hs.
Proof.
  intros E. unfold total_width, articulation_width. by rewrite E.
Qed.

Lemma layout_length_eq w actors articulations :
  layout_length w actors articulations
  = (13 * length actors + total_width w articulations)%nat.
Proof. reflexivity. Qed.

(** C4, as the code has it. With the cached handles alive, decoding raises
    exactly when the vector is shorter than the layout of the cached
    snapshot; a vector that is as long or longer is accepted, and only its
    first [layout_length] values are used: what follows them is ignored
    without an error. The layout is the cached one, whatever bodies the
    scene holds by then. *)
Theorem decode_consumes_layout {rng} (self : Env rng) scene state :
  _scene self = Some scene →
  handles_alive (world scene) (_actors self) (_articulations self) →
  let L := layout_length (world scene) (_actors self) (_articulations self) in
  (is_Ok (set_sim_state self state) ↔ (L ≤ length state)%nat)
  ∧ set_sim_state self state = set_sim_state self (take L state).
Proof.
  intros Hs [Ha Hb] L. subst L. rewrite layout_length_eq.
  set (A := (13 * length (_actors self))%nat).
  set (W := total_width (world scene) (_articulations self)).
  unfold set_sim_state. rewrite Hs. cbn [not_None]. rewrite !Ok_bind.
  destruct (set_actor_states_spec state (_actors self) (world scene) 0 Ha)
    as [HA1 HA2]; [lia|].
  rewrite Nat.add_0_l in HA1, HA2. fold A in HA1, HA2.
  destruct (decide (A + W ≤ length state)%nat) as [Hle|Hgt].
  - destruct HA1 as (w1 & E1 & Harts & Hlen); [lia|].
    assert (Hb1 : Forall (λ i, i < length (all_articulations w1))%nat
                    (_articulations self)) by by rewrite Harts.
    destruct (set_articulation_states_spec state (_articulations self) w1 A Hb1)
      as [HB1 _]; [lia|].
    rewrite (total_width_ext _ _ _ Harts) in HB1. fold W in HB1.
    destruct HB1 as (w2 & E2 & _); [lia|].
    split.
    + split; [done|]. intros _. rewrite E1, Ok_bind, E2, Ok_bind. by eexists.
    + rewrite (set_actor_states_prefix state (A + W)) by (fold A; lia).
      rewrite E1, !Ok_bind.
      rewrite (set_articulation_states_prefix state (A + W))
        by (rewrite (total_width_ext _ _ _ Harts); fold W; lia).
      done.
  - split; [|by rewrite take_ge by lia].
    split; [|lia]. intros HOk. exfalso.
    apply is_Ok_not_raises in HOk. apply HOk.
    destruct (decide (A ≤ length state)%nat) as [HleA|HgtA].
    + destruct HA1 as (w1 & E1 & Harts & Hlen); [lia|].
      rewrite E1, Ok_bind. apply raises_bind.
      assert (Hb1 : Forall (λ i, i < length (all_articulations w1))%nat
                      (_articulations self)) by by rewrite Harts.
      destruct (set_articulation_states_spec state (_articulations self) w1 A Hb1)
        as [_ HB2]; [lia|].
      apply HB2. rewrite (total_width_ext _ _ _ Harts). fold W. lia.
    + apply raises_bind, HA2. lia.
Qed.


(** Witness of [segment_law]: the sample environment is reconfigured; its
    snapshot holds the cube and the robot. *)
Lemma segment_law_witness :
  reconfigure sample_task sample_env = Ok sample_env1
  ∧ (_actors sample_env1 ≠ [] ∨ _articulations sample_env1 ≠ [])
  ∧ ∃ scene1, _scene sample_env1 = Some scene1
      ∧ _actors sample_env1 = get_all_actors scene1
      ∧ _articulations sample_env1 = get_all_articulations scene1.
Proof.
  assert (H1 : reconfigure sample_task sample_env = Ok sample_env1)
    by (vm_compute; reflexivity).
  assert (H2 : _actors sample_env1 ≠ [] ∨ _articulations sample_env1 ≠ [])
    by (left; vm_compute; discriminate).
  split; [exact H1|]. split; [exact H2|].
  destruct (segment_law sample_task sample_env sample_env1 H1 H2)
    as (scene1 & Hs & Ha & Hb & _).
  exists scene1. auto.
Defined.

(** Witness of [decode_consumes_layout]: a vector of 29 values against the
    28-wide layout of the sample environment. *)
Lemma decode_consumes_layout_witness :
  let state := replicate 29 1%Q in
  (is_Ok (set_sim_state sample_env state)
   ↔ (layout_length (world sample_scene) (_actors sample_env)
        (_articulations sample_env) ≤ length state)%nat)
  ∧ set_sim_state sample_env state
    = set_sim_state sample_env
        (take (layout_length (world sample_scene) (_actors sample_env)
                 (_articulations sample_env)) state).
Proof.
  apply (decode_consumes_layout sample_env sample_scene (replicate 29 1%Q)).
  - vm_compute. reflexivity.
  - split; vm_compute; repeat constructor.
Defined.

(** C4 as stated fails: the sample environment has a 28-wide layout, and a
    vector of 29 values is decoded without any error. *)
Lemma decode_accepts_longer_vector :
  ¬ (∀ (self : Env Z) (scene : Scene) (state : list scalar),
       _scene self = Some scene →
       handles_alive (world scene) (_actors self) (_articulations self) →
       length state
         ≠ layout_length (world scene) (_actors self) (_articulations self) →
       raises (set_sim_state self state)).
Proof.
  intros H.
  destruct (H sample_env sample_scene (replicate 29 1%Q)) as [e He].
  - vm_compute. reflexivity.
  - split; vm_compute; repeat constructor.
  - vm_compute. discriminate.
  - vm_compute in He. discriminate.
Qed.

(** ** Ordered dictionaries *)

Lemma odict_get_None {V} (d : odict V) k :
  k ∉ odict_keys d → odict_get d k = None.
Proof.
  induction d as [|[k' v] d IH]; simpl; [done|].
  intros Hn. apply not_elem_of_cons in Hn as [Hne Hn].
  case_decide; [congruence|]. by apply IH.
Qed.

Lemma odict_get_set_eq {V} (d : odict V) k v :
  odict_get (odict_set d k v) k = Some v.
Proof.
  induction d as [|[k' v'] d IH]; simpl.
  - by case_decide.
  - case_decide; simpl; by case_decide.
Qed.

Lemma odict_get_set_ne {V} (d : odict V) k k' v :
  k ≠ k' → odict_get (odict_set d k v) k' = odict_get d k'.
Proof.
  intros Hne. induction d as [|[k0 v0] d IH]; simpl.
  - by case_decide.
  - repeat (case_decide; simpl); subst; congruence.
Qed.

Lemma odict_keys_set {V} (d : odict V) k v :
  is_Some (odict_get d k) → odict_keys (odict_set d k v) = odict_keys d.
Proof.
  unfold odict_keys.
  induction d as [|[k0 v0] d IH]; simpl; intros [x Hx]; [done|].
  case_decide; simpl; [congruence|]. f_equal. apply IH. eauto.
Qed.

Lemma odict_has_keys {V} (d d' : odict V) k :
  odict_keys d' = odict_keys d → odict_has d' k = odict_has d k.
Proof.
  unfold odict_has, odict_keys. revert d'.
  induction d as [|[k0 v0] d IH]; intros [|[k1 v1] d'] E; try done.
  simpl in *. injection E as -> E. specialize (IH d' E).
  case_decide; [by rewrite !bool_decide_eq_true_2 by eauto|done].
Qed.

(** ** Camera configuration merging *)

Lemma hasattr_setattr cfg k v k' :
  hasattr cfg k = true → hasattr (setattr cfg k v) k' = hasattr cfg k'.
Proof.
  unfold hasattr, setattr. cbn [__dict__]. intros H.
  apply bool_decide_eq_true in H.
  apply bool_decide_ext. rewrite lookup_insert_is_Some.
  destruct (decide (k = k')) as [->|]; [|tauto].
  split; [intros _; exact H | auto].
Qed.

Lemma apply_global_keys k v cfgs :
  odict_keys (apply_global k v cfgs).1 = odict_keys cfgs.
Proof.
  unfold odict_keys.
  induction cfgs as [|[name cfg] rest IH]; simpl; [done|].
  destruct (hasattr cfg k); [|done].
  destruct (apply_global k v rest) as [rest' e]. simpl in *. f_equal. exact IH.
Qed.

Lemma apply_global_get k v cfgs cfgs' name cfg :
  apply_global k v cfgs = (cfgs', None) →
  odict_get cfgs name = Some cfg →
  odict_get cfgs' name = Some (setattr cfg k v).
Proof.
  revert cfgs'. induction cfgs as [|[n c] rest IH]; intros cfgs'; simpl; [done|].
  destruct (hasattr c k); [|done].
  destruct (apply_global k v rest) as [rest' e] eqn:E.
  intros [= <- ->]. simpl.
  case_decide; [by intros [= ->]|]. by apply IH.
Qed.

Lemma global_phase_cons k v rest cfgs :
  global_phase ((k, v) :: rest) cfgs
  = if odict_has cfgs k then global_phase rest cfgs
    else match apply_global k v cfgs with
         | (cfgs', None) => global_phase rest cfgs'
         | (cfgs', Some e) => (cfgs', Some e)
         end.
Proof.
  unfold global_phase. simpl. destruct (odict_has cfgs k); [done|].
  by destruct (apply_global k v cfgs) as [? [?|]].
Qed.

Lemma global_phase_keys cfg_dict cfgs :
  odict_keys (global_phase cfg_dict cfgs).1 = odict_keys cfgs.
Proof.
  revert cfgs. induction cfg_dict as [|[k v] rest IH]; intros cfgs; [done|].
  rewrite global_phase_cons.
  destruct (odict_has cfgs k); [apply IH|].
  pose proof (apply_global_keys k v cfgs) as Hk.
  destruct (apply_global k v cfgs) as [cfgs' [e|]]; simpl in *; [done|].
  by rewrite IH.
Qed.

(** After the first loop an attribute holds the global value given for it,
    if any, and its old value otherwise. *)
Lemma global_phase_get cfg_dict cfgs cfgs1 name cfg :
  NoDup (odict_keys cfg_dict) →
  global_phase cfg_dict cfgs = (cfgs1, None) →
  odict_get cfgs name = Some cfg →
  ∃ cfg1, odict_get cfgs1 name = Some cfg1
    ∧ ∀ k, __dict__ cfg1 !! k
           = match odict_get cfg_dict k with
             | Some v => if odict_has cfgs k then __dict__ cfg !! k else Some v
             | None => __dict__ cfg !! k
             end.
Proof.
  revert cfgs cfg.
  induction cfg_dict as [|[k0 v0] rest IH]; intros cfgs cfg Hnd Hrun Hget.
  { injection Hrun as <-. eauto. }
  unfold odict_keys in Hnd. rewrite fmap_cons in Hnd.
  apply NoDup_cons in Hnd as [Hk0 Hnd].
  rewrite global_phase_cons in Hrun.
  destruct (odict_has cfgs k0) eqn:Hhas.
  - destruct (IH cfgs cfg Hnd Hrun Hget) as (cfg1 & Hg1 & Hattr).
    exists cfg1. split; [done|]. intros k. rewrite Hattr. simpl.
    case_decide as Hk; [subst k|done].
    rewrite (odict_get_None rest k0 Hk0), Hhas. done.
  - pose proof (apply_global_keys k0 v0 cfgs) as Hkeys.
    destruct (apply_global k0 v0 cfgs) as [cfgs' [e|]] eqn:Hap; [done|].
    simpl in Hkeys.
    pose proof (apply_global_get _ _ _ _ _ _ Hap Hget) as Hget'.
    destruct (IH cfgs' _ Hnd Hrun Hget') as (cfg1 & Hg1 & Hattr).
    exists cfg1. split; [done|]. intros k. rewrite Hattr. simpl.
    rewrite (odict_has_keys cfgs cfgs' k Hkeys).
    unfold setattr. cbn [__dict__].
    case_decide as Hk.
    + subst k. rewrite (odict_get_None rest k0 Hk0), Hhas.
      by rewrite lookup_insert_eq.
    + rewrite lookup_insert_ne by done. done.
Qed.

Lemma camera_phase_cons name v rest cfgs :
  camera_phase ((name, v) :: rest) cfgs
  = match apply_camera name v cfgs with
    | (cfgs', None) => camera_phase rest cfgs'
    | (cfgs', Some e) => (cfgs', Some e)
    end.
Proof.
  unfold camera_phase. simpl. by destruct (apply_camera name v cfgs) as [? [?|]].
Qed.

Lemma apply_camera_None name v cfgs cfgs' :
  apply_camera name v cfgs = (cfgs', None) →
  (odict_get cfgs name = None ∧ cfgs' = cfgs)
  ∨ ∃ cfg kv, odict_get cfgs name = Some cfg ∧ block_items v = Ok kv
      ∧ cfgs' = odict_set cfgs name (dict_update cfg kv).
Proof.
  unfold apply_camera.
  destruct (odict_get cfgs name) as [cfg|]; [|intros [= <-]; by left].
  destruct (block_items v) as [kv|e]; [|done].
  destruct (find _ _); [done|]. intros [= <-]. right. eauto.
Qed.

Lemma dict_update_lookup cfg kv k :
  NoDup kv.*1 →
  __dict__ (dict_update cfg kv) !! k
  = match odict_get kv k with
    | Some v => Some v
    | None => __dict__ cfg !! k
    end.
Proof.
  unfold dict_update. cbn [__dict__]. generalize (__dict__ cfg) as m.
  induction kv as [|[k0 v0] kv IH]; intros m Hnd; [done|].
  rewrite fmap_cons in Hnd. apply NoDup_cons in Hnd as [Hk0 Hnd].
  simpl. rewrite IH by done.
  case_decide as Hk.
  - subst k. by rewrite (odict_get_None kv k0 Hk0), lookup_insert_eq.
  - destruct (odict_get kv k); [done|]. by rewrite lookup_insert_ne.
Qed.

(** After the second loop a camera named in the dictionary has had its own
    block applied, once; the others are as the first loop left them. *)
Lemma camera_phase_get cfg_dict cfgs cfgs2 name cfg1 :
  NoDup (odict_keys cfg_dict) →
  camera_phase cfg_dict cfgs = (cfgs2, None) →
  odict_get cfgs name = Some cfg1 →
  ∃ cfg2, odict_get cfgs2 name = Some cfg2
    ∧ match odict_get cfg_dict name with
      | Some v => ∃ kv, block_items v = Ok kv ∧ cfg2 = dict_update cfg1 kv
      | None => cfg2 = cfg1
      end.
Proof.
  revert cfgs cfg1.
  induction cfg_dict as [|[n0 v0] rest IH]; intros cfgs cfg1 Hnd Hrun Hget.
  { injection Hrun as <-. by exists cfg1. }
  unfold odict_keys in Hnd. rewrite fmap_cons in Hnd.
  apply NoDup_cons in Hnd as [Hn0 Hnd].
  rewrite camera_phase_cons in Hrun.
  destruct (apply_camera n0 v0 cfgs) as [cfgs' [e|]] eqn:Hap; [done|].
  apply apply_camera_None in Hap as [[Hnone ->]|(c & kv & Hc & Hkv & ->)].
  - destruct (IH cfgs cfg1 Hnd Hrun Hget) as (cfg2 & Hg2 & Hm).
    exists cfg2. split; [done|]. simpl.
    case_decide; [congruence|done].
  - destruct (decide (n0 = name)) as [->|Hne].
    + assert (c = cfg1) as -> by congruence.
      destruct (IH _ _ Hnd Hrun (odict_get_set_eq cfgs name _))
        as (cfg2 & Hg2 & Hm).
      rewrite (odict_get_None rest name Hn0) in Hm. subst cfg2.
      exists (dict_update cfg1 kv). split; [done|]. simpl.
      case_decide; [|done]. eauto.
    + assert (Hget' : odict_get (odict_set cfgs n0 (dict_update c kv)) name
                      = Some cfg1) by by rewrite odict_get_set_ne.
      destruct (IH _ _ Hnd Hrun Hget') as (cfg2 & Hg2 & Hm).
      exists cfg2. split; [done|]. simpl. case_decide; [done|]. done.
Qed.

Lemma odict_get_elem {V} (d : odict V) k v :
  odict_get d k = Some v → (k, v) ∈ d.
Proof.
  induction d as [|[k' v'] d IH]; simpl; [done|].
  case_decide as Hk; [intros [= ->]; subst; left|]. intros Hd. right. by apply IH.
Qed.

(** C7. Configuration merging, when it succeeds: a key that is not a camera
    uuid is a global attribute and its value reaches every camera, unless the
    camera's own block names that attribute; a value in a camera's own block
    always wins for that camera. With global near = 0.05 and a block
    near = 0.2 for cam1, cam1 ends with 0.2 and every other camera with
    0.05. *)
Theorem override_precedence camera_cfgs cfg_dict cfgs' name cfg :
  well_formed_dict cfg_dict →
  update_camera_cfgs_from_dict camera_cfgs cfg_dict = (cfgs', None) →
  odict_get camera_cfgs name = Some cfg →
  ∃ cfg', odict_get cfgs' name = Some cfg'
    ∧ (∀ block k v,
         odict_get cfg_dict name = Some (PyDict block) →
         odict_get block k = Some v →
         __dict__ cfg' !! k = Some v)
    ∧ (∀ k v,
         odict_get cfg_dict k = Some v → odict_has camera_cfgs k = false →
         (∀ block, odict_get cfg_dict name = Some (PyDict block) →
                   odict_get block k = None) →
         __dict__ cfg' !! k = Some v).
Proof.
  intros [Hnd Hblocks] Hrun Hget. unfold update_camera_cfgs_from_dict in Hrun.
  destruct (global_phase cfg_dict camera_cfgs) as [cfgs1 [e|]] eqn:H1; [done|].
  destruct (global_phase_get _ _ _ _ _ Hnd H1 Hget) as (cfg1 & Hg1 & Hattr1).
  destruct (camera_phase_get _ _ _ _ _ Hnd Hrun Hg1) as (cfg2 & Hg2 & Hm).
  exists cfg2. split; [done|]. split.
  - intros block k v Hblock Hk.
    pose proof (Hblocks _ _ (odict_get_elem _ _ _ Hblock)) as Hndb.
    rewrite Hblock in Hm. destruct Hm as (kv & [= <-] & ->).
    by rewrite dict_update_lookup, Hk.
  - intros k v Hk Hglobal Hno.
    assert (__dict__ cfg1 !! k = Some v) as Hv1.
    { by rewrite Hattr1, Hk, Hglobal. }
    destruct (odict_get cfg_dict name) as [b|] eqn:Hb; [|by subst].
    destruct Hm as (kv & Hkv & ->).
    destruct b as [| | | |s|xs|blk]; simpl in Hkv; try discriminate.
    + destruct s; [|discriminate]. by injection Hkv as <-.
    + destruct xs; [|discriminate]. by injection Hkv as <-.
    + injection Hkv as <-.
      pose proof (Hblocks _ _ (odict_get_elem _ _ _ Hb)) as Hndb.
      by rewrite dict_update_lookup, (Hno blk eq_refl).
Qed.

Lemma same_attrs_refl cfgs : same_attrs cfgs cfgs.
Proof. apply Forall2_same_length_lookup_2; [done|]. intros i a b ? ?. by simplify_eq. Qed.

Lemma same_attrs_trans a b c : same_attrs a b → same_attrs b c → same_attrs a c.
Proof.
  unfold same_attrs. intros H1 H2. revert c H2.
  induction H1 as [|x y l k [E1 E2] _ IH]; intros c H2; inversion H2 as [|? z ? k' [E3 E4] H5]; subst.
  - constructor.
  - constructor; [|by apply IH]. split; [congruence|]. intros ?. by rewrite E2, E4.
Qed.

Lemma same_attrs_keys a b : same_attrs a b → odict_keys b = odict_keys a.
Proof.
  unfold odict_keys. induction 1 as [|x y l l' [E1 E2] _ IH]; [done|].
  rewrite !fmap_cons. by f_equal.
Qed.

Lemma same_attrs_unknown a b k :
  same_attrs a b → unknown_attribute a k → unknown_attribute b k.
Proof.
  unfold unknown_attribute. induction 1 as [|x y l l' [E1 E2] _ IH]; intros Hu name cfg Hin.
  - by apply elem_of_nil in Hin.
  - apply elem_of_cons in Hin as [Heq|Hin].
    + subst y. simpl in *. rewrite <- E2. destruct x as [n c]. apply (Hu n c). left.
    + exact (IH (λ n c Hc, Hu n c (list_elem_of_further _ _ _ Hc)) name cfg Hin).
Qed.

Lemma same_attrs_get a b name cfg :
  same_attrs a b → odict_get a name = Some cfg →
  ∃ cfg', odict_get b name = Some cfg' ∧ ∀ k, hasattr cfg k = hasattr cfg' k.
Proof.
  induction 1 as [|[n c] [n' c'] l l' [E1 E2] _ IH]; simpl in *; [done|].
  subst n'. case_decide; [|done]. intros [= ->]. eauto.
Qed.

Lemma same_attrs_set cfgs name cfg cfg' :
  odict_get cfgs name = Some cfg →
  (∀ k, hasattr cfg k = hasattr cfg' k) →
  same_attrs cfgs (odict_set cfgs name cfg').
Proof.
  intros Hget Hsame. induction cfgs as [|[n c] rest IH]; simpl in *; [done|].
  case_decide.
  - injection Hget as ->. subst n. constructor; [done|]. apply same_attrs_refl.
  - constructor; [done|]. by apply IH.
Qed.

Lemma apply_global_same k v cfgs : same_attrs cfgs (apply_global k v cfgs).1.
Proof.
  induction cfgs as [|[name cfg] rest IH]; simpl; [constructor|].
  destruct (hasattr cfg k) eqn:Hk; [|apply same_attrs_refl].
  destruct (apply_global k v rest) as [rest' e]. simpl in *.
  constructor; [|done]. split; [done|]. intros k'. simpl.
  by rewrite hasattr_setattr.
Qed.

Lemma global_phase_same cfg_dict cfgs :
  same_attrs cfgs (global_phase cfg_dict cfgs).1.
Proof.
  revert cfgs. induction cfg_dict as [|[k v] rest IH]; intros cfgs.
  { apply same_attrs_refl. }
  rewrite global_phase_cons. destruct (odict_has cfgs k); [apply IH|].
  pose proof (apply_global_same k v cfgs) as Hs.
  destruct (apply_global k v cfgs) as [cfgs' [e|]]; simpl in *; [done|].
  eapply same_attrs_trans; [exact Hs|apply IH].
Qed.

Lemma dict_update_cons cfg k0 v0 kv :
  dict_update cfg ((k0, v0) :: kv) = dict_update (setattr cfg k0 v0) kv.
Proof. reflexivity. Qed.

Lemma hasattr_dict_update cfg kv k :
  (∀ kk, kk ∈ kv.*1 → hasattr cfg kk = true) →
  hasattr (dict_update cfg kv) k = hasattr cfg k.
Proof.
  revert cfg. induction kv as [|[k0 v0] kv IH]; intros cfg Hall; [done|].
  assert (hasattr cfg k0 = true) as Hk0 by (apply Hall; left).
  rewrite dict_update_cons, IH.
  - by apply hasattr_setattr.
  - intros kk Hkk. rewrite hasattr_setattr by done. apply Hall. by right.
Qed.

Lemma find_None_all {A} (f : A → bool) l :
  find f l = None → ∀ x, x ∈ l → f x = false.
Proof.
  induction l as [|a l IH]; simpl; intros H x Hx.
  - by apply elem_of_nil in Hx.
  - destruct (f a) eqn:E; [done|].
    apply elem_of_cons in Hx as [->|Hx]; auto.
Qed.

Lemma find_Some_first {A} (f : A → bool) l x :
  x ∈ l → f x = true → ∃ y, find f l = Some y ∧ y ∈ l ∧ f y = true.
Proof.
  induction l as [|a l IH]; simpl; intros Hx Hf.
  - by apply elem_of_nil in Hx.
  - destruct (f a) eqn:E.
    + exists a. split; [done|]. split; [left|done].
    + apply elem_of_cons in Hx as [->|Hx]; [congruence|].
      destruct (IH Hx Hf) as (y & ? & ? & ?). exists y. split; [done|].
      split; [by right|done].
Qed.

Lemma apply_camera_same name v cfgs : same_attrs cfgs (apply_camera name v cfgs).1.
Proof.
  unfold apply_camera.
  destruct (odict_get cfgs name) as [cfg|] eqn:Hget; [|apply same_attrs_refl].
  destruct (block_items v) as [kv|e]; [|apply same_attrs_refl].
  destruct (find _ _) eqn:Hfind; [apply same_attrs_refl|]. simpl.
  apply (same_attrs_set _ _ cfg); [done|]. intros k. symmetry.
  apply hasattr_dict_update. intros kk Hkk.
  apply (find_None_all _ _ Hfind) in Hkk. by apply negb_false_iff in Hkk.
Qed.

Lemma camera_phase_same cfg_dict cfgs :
  same_attrs cfgs (camera_phase cfg_dict cfgs).1.
Proof.
  revert cfgs. induction cfg_dict as [|[k v] rest IH]; intros cfgs.
  { apply same_attrs_refl. }
  rewrite camera_phase_cons.
  pose proof (apply_camera_same k v cfgs) as Hs.
  destruct (apply_camera k v cfgs) as [cfgs' [e|]]; simpl in *; [done|].
  eapply same_attrs_trans; [exact Hs|apply IH].
Qed.

Lemma for_each_inplace_app {A S} (body : S → A → S * option Exception) xs ys s :
  for_each_inplace body (xs ++ ys) s
  = match for_each_inplace body xs s with
    | (s', None) => for_each_inplace body ys s'
    | (s', Some e) => (s', Some e)
    end.
Proof.
  revert s. induction xs as [|x xs IH]; intros s; simpl; [done|].
  destruct (body s x) as [s' [e|]]; [done|]. apply IH.
Qed.

Lemma apply_global_unknown k v cfgs :
  cfgs ≠ [] → unknown_attribute cfgs k →
  apply_global k v cfgs = (cfgs, Some (not_valid_attribute k)).
Proof.
  destruct cfgs as [|[name cfg] rest]; [done|]. intros _ Hu. simpl.
  rewrite (Hu name cfg) by left. done.
Qed.

Lemma update_same camera_cfgs cfg_dict :
  same_attrs camera_cfgs (update_camera_cfgs_from_dict camera_cfgs cfg_dict).1.
Proof.
  unfold update_camera_cfgs_from_dict.
  pose proof (global_phase_same cfg_dict camera_cfgs) as H1.
  destruct (global_phase cfg_dict camera_cfgs) as [cfgs1 [e|]]; [done|].
  eapply same_attrs_trans; [exact H1|apply camera_phase_same].
Qed.

(** C8, as the code has it. Merging checks and applies entry by entry: all
    global keys in dictionary order, then the camera blocks in dictionary
    order. An unknown global key (with at least one camera configured) or an
    unknown key in the block of a configured camera makes it fail with an
    assertion error; nothing of the failing entry is applied, but what the
    entries before it changed stays changed. Whatever the outcome, no
    configuration ever gains or loses an attribute name. *)
Theorem unknown_attribute_fails (camera_cfgs : odict CameraConfig)
    (cfg_dict : odict pyval) :
  (∀ pre k v post,
     cfg_dict = pre ++ (k, v) :: post →
     (global_phase pre camera_cfgs).2 = None →
     odict_has camera_cfgs k = false →
     camera_cfgs ≠ [] → unknown_attribute camera_cfgs k →
     update_camera_cfgs_from_dict camera_cfgs cfg_dict
     = ((global_phase pre camera_cfgs).1, Some (not_valid_attribute k)))
  ∧ (∀ pre name block post cfg kk,
       cfg_dict = pre ++ (name, PyDict block) :: post →
       (global_phase cfg_dict camera_cfgs).2 = None →
       (camera_phase pre (global_phase cfg_dict camera_cfgs).1).2 = None →
       odict_get camera_cfgs name = Some cfg →
       kk ∈ block.*1 → hasattr cfg kk = false →
       ∃ kk', kk' ∈ block.*1 ∧ hasattr cfg kk' = false
         ∧ update_camera_cfgs_from_dict camera_cfgs cfg_dict
           = ((camera_phase pre (global_phase cfg_dict camera_cfgs).1).1,
              Some (not_valid_attribute kk')))
  ∧ same_attrs camera_cfgs
      (update_camera_cfgs_from_dict camera_cfgs cfg_dict).1.
Proof.
  split; [|split; [|apply update_same]].
  - intros pre k v post -> Hpre Hhas Hne Hunk.
    unfold update_camera_cfgs_from_dict, global_phase at 1.
    rewrite for_each_inplace_app. fold (global_phase pre camera_cfgs).
    pose proof (global_phase_same pre camera_cfgs) as Hsame.
    destruct (global_phase pre camera_cfgs) as [cfgs1 [e|]]; [done|].
    simpl in Hsame |- *.
    rewrite (odict_has_keys camera_cfgs cfgs1 k (same_attrs_keys _ _ Hsame)), Hhas.
    rewrite apply_global_unknown; [done| |by eapply same_attrs_unknown].
    intros ->. inversion Hsame. by subst.
  - intros pre name block post cfg kk -> Hglob Hpre Hget Hkk Hunk.
    unfold update_camera_cfgs_from_dict.
    pose proof (global_phase_same (pre ++ (name, PyDict block) :: post) camera_cfgs)
      as Hsame1.
    destruct (global_phase _ camera_cfgs) as [cfgs1 [e|]]; [done|].
    simpl in Hsame1, Hpre |- *.
    unfold camera_phase at 1. rewrite for_each_inplace_app.
    fold (camera_phase pre cfgs1).
    pose proof (camera_phase_same pre cfgs1) as Hsame2.
    destruct (camera_phase pre cfgs1) as [cfgs2 [e|]]; [done|].
    simpl in Hsame2 |- *.
    destruct (same_attrs_get _ _ _ _ (same_attrs_trans _ _ _ Hsame1 Hsame2) Hget)
      as (cfg2 & Hget2 & Hattr).
    unfold apply_camera. rewrite Hget2. cbn [block_items].
    destruct (find_Some_first (λ kk, negb (hasattr cfg2 kk)) block.*1 kk)
      as (kk' & -> & Hin & Hf); [done|by rewrite <- Hattr, Hunk|].
    exists kk'. split; [done|]. split; [|done].
    rewrite Hattr. by apply negb_true_iff.
Qed.

Lemma near_overrides_well_formed : well_formed_dict near_overrides.
Proof.
  split.
  - apply (bool_decide_unpack _). vm_compute. exact I.
  - intros k block Hin. unfold near_overrides in Hin.
    repeat (apply elem_of_cons in Hin as [Hin|Hin]; [simplify_eq|]).
    + apply (bool_decide_unpack _). vm_compute. exact I.
    + by apply elem_of_nil in Hin.
Qed.

(** Witness of [override_precedence]: the example of the specification. *)
Lemma override_precedence_witness :
  let cfgs' := (update_camera_cfgs_from_dict two_cameras near_overrides).1 in
  (∃ cfg', odict_get cfgs' "cam1" = Some cfg'
     ∧ __dict__ cfg' !! "near" = Some (PyFloat 0.2))
  ∧ (∃ cfg', odict_get cfgs' "cam2" = Some cfg'
       ∧ __dict__ cfg' !! "near" = Some (PyFloat 0.05)).
Proof.
  intros cfgs'.
  assert (Hrun : update_camera_cfgs_from_dict two_cameras near_overrides
                 = (cfgs', None)) by (vm_compute; reflexivity).
  split.
  - destruct (override_precedence two_cameras near_overrides cfgs' "cam1"
                (sample_camera_cfg "cam1" PyNone PyNone)
                near_overrides_well_formed Hrun eq_refl)
      as (cfg' & Hget & Hblock & _).
    exists cfg'. split; [exact Hget|].
    apply (Hblock [("near", PyFloat 0.2)]); reflexivity.
  - destruct (override_precedence two_cameras near_overrides cfgs' "cam2"
                (sample_camera_cfg "cam2" PyNone PyNone)
                near_overrides_well_formed Hrun eq_refl)
      as (cfg' & Hget & _ & Hglobal).
    exists cfg'. split; [exact Hget|].
    apply Hglobal; [reflexivity|reflexivity|]. intros block Hb. discriminate Hb.
Defined.

(** Witness of [unknown_attribute_fails]: an unknown global key after a valid
    one, and an unknown key in the block of the second camera. *)
Lemma unknown_attribute_fails_witness :
  update_camera_cfgs_from_dict two_cameras bogus_after_near
  = ((global_phase [("near", PyFloat 0.05)] two_cameras).1,
     Some (not_valid_attribute "bogus"))
  ∧ ∃ kk', update_camera_cfgs_from_dict two_cameras bogus_in_block
      = ((camera_phase [("near", PyFloat 0.05); ("cam1", PyDict [("far", PyFloat 5)])]
            (global_phase bogus_in_block two_cameras).1).1,
         Some (not_valid_attribute kk')).
Proof.
  split.
  - destruct (unknown_attribute_fails two_cameras bogus_after_near) as (Hg & _ & _).
    apply (Hg [("near", PyFloat 0.05)] "bogus" (PyInt 1) []).
    + reflexivity.
    + vm_compute. reflexivity.
    + vm_compute. reflexivity.
    + discriminate.
    + intros name cfg Hin. unfold two_cameras in Hin.
      repeat (apply elem_of_cons in Hin as [Hin|Hin]; [simplify_eq|]).
      * vm_compute. reflexivity.
      * vm_compute. reflexivity.
      * by apply elem_of_nil in Hin.
  - destruct (unknown_attribute_fails two_cameras bogus_in_block) as (_ & Hb & _).
    destruct (Hb [("near", PyFloat 0.05); ("cam1", PyDict [("far", PyFloat 5)])]
                "cam2" [("bogus", PyInt 1)] []
                (sample_camera_cfg "cam2" PyNone PyNone) "bogus")
      as (kk' & _ & _ & Hrun).
    + reflexivity.
    + vm_compute. reflexivity.
    + vm_compute. reflexivity.
    + reflexivity.
    + left.
    + vm_compute. reflexivity.
    + exists kk'. exact Hrun.
Defined.

(** C8 as stated fails. With the dictionary {near: 0.05, bogus: 1} the merge
    raises at [bogus], and by then [near] has been written into the camera
    configurations; and with no camera configured an unknown global key
    raises nothing. *)
Lemma mutation_before_failure :
  (update_camera_cfgs_from_dict two_cameras bogus_after_near).2
  = Some (not_valid_attribute "bogus")
  ∧ (c ← odict_get two_cameras "cam1"; __dict__ c !! "near")
    = Some (PyFloat 0.01)
  ∧ (c ← odict_get (update_camera_cfgs_from_dict two_cameras bogus_after_near).1 "cam1";
     __dict__ c !! "near")
    = Some (PyFloat 0.05)
  ∧ update_camera_cfgs_from_dict [] [("bogus", PyInt 1)] = ([], None).
Proof. repeat split; vm_compute; reflexivity. Qed.

(** ** EpisodeController: what the methods leave alone *)

Section Frame.
Context {rng : Type}.
Context (RandomState : Z → rng) (randint : Z → rng → Z * rng).
Context (engine : Engine) (agents : AgentModel) (task : TaskHooks rng).
Implicit Type self : Env rng.

Lemma frame_refl self : frame self self.
Proof. by repeat split. Qed.

Lemma frame_trans (a b c : Env rng) : frame a b → frame b c → frame a c.
Proof.
  intros (?&?&?&?&?) (?&?&?&?&?). repeat split; congruence.
Qed.

Lemma for_each_preserves {A S} (R : S → S → Prop) (body : S → A → result S)
    xs s s' :
  (∀ s, R s s) → (∀ a b c, R a b → R b c → R a c) →
  (∀ s x s', body s x = Ok s' → R s s') →
  for_each body xs s = Ok s' → R s s'.
Proof.
  intros Hrefl Htrans Hbody. revert s.
  induction xs as [|x xs IH]; intros s H; simpl in H.
  - injection H as <-. apply Hrefl.
  - inv_bind H as s1 H1. eapply Htrans; [by eapply Hbody|by apply IH].
Qed.

Lemma run_hook_frame h self self' : run_hook h self = Ok self' → frame self self'.
Proof.
  unfold run_hook. intros H.
  inv_bind H as scene Hs. inv_bind H as r Hr.
  destruct (h _ r) as [sim r']. injection H as <-. by repeat split.
Qed.

Lemma _setup_scene_frame self self' : _setup_scene self = Ok self' → frame self self'.
Proof.
  unfold _setup_scene. case_decide; [done|]. intros [= <-]. by repeat split.
Qed.

Lemma _setup_cameras_frame self self' :
  _setup_cameras self = Ok self' → frame self self'.
Proof.
  unfold _setup_cameras. intros H.
  eapply frame_trans; [|eapply (for_each_preserves frame); [apply frame_refl|apply frame_trans| |exact H]].
  - by repeat split.
  - intros s [uuid cfg] s' Hb. inv_bind Hb as scene Hs.
    inv_bind Hb as cs Hc. destruct cs as [c scene']. injection Hb as <-.
    by repeat split.
Qed.

Lemma _setup_lighting_frame self self' :
  _setup_lighting self = Ok self' → frame self self'.
Proof.
  unfold _setup_lighting. intros H. inv_bind H as scene Hs.
  injection H as <-. by repeat split.
Qed.

Lemma _clear_frame self : frame self (_clear self).
Proof. unfold _clear, _close_viewer. destruct (_viewer self); by repeat split. Qed.

Lemma reconfigure_frame self self' :
  reconfigure task self = Ok self' → frame self self'.
Proof.
  unfold reconfigure. intros H.
  inv_bind H as s1 H1. inv_bind H as s2 H2. inv_bind H as s3 H3.
  inv_bind H as s4 H4. inv_bind H as s5 H5. inv_bind H as s6 H6.
  inv_bind H as s7 H7. inv_bind H as actors Ha. inv_bind H as arts Hb.
  injection H as <-.
  assert (frame s6 s7) as H67.
  { destruct (_viewer s6); [|injection H7 as <-; apply frame_refl].
    unfold _setup_viewer in H7. inv_bind H7 as sc Hsc. injection H7 as <-.
    apply frame_refl. }
  apply _setup_scene_frame in H1. apply run_hook_frame in H2, H3, H4.
  apply _setup_cameras_frame in H5. apply _setup_lighting_frame in H6.
  pose proof (_clear_frame self) as H0.
  assert (frame self s7) as (?&?&?&?&?)
    by eauto 10 using frame_trans.
  by repeat split.
Qed.

Lemma initialize_episode_frame self self' :
  initialize_episode task self = Ok self' → frame self self'.
Proof.
  unfold initialize_episode. intros H.
  inv_bind H as s1 H1. inv_bind H as s2 H2. inv_bind H as s3 H3.
  apply run_hook_frame in H1, H2, H3, H. eauto using frame_trans.
Qed.

Lemma _clear_sim_state_frame self self' :
  _clear_sim_state self = Ok self' → frame self self'.
Proof.
  unfold _clear_sim_state. intros H. inv_bind H as scene Hs.
  injection H as <-. by repeat split.
Qed.

(** The state in which [reset] starts to initialise the episode. *)
Lemma reset_stages self seed do_reconfigure obs self' :
  reset RandomState randint engine agents task self seed do_reconfigure
  = Ok (obs, self') →
  ∃ s1 s2 s3,
    set_episode_rng RandomState randint self seed = Ok s1
    ∧ (if do_reconfigure then reconfigure task (set_elapsed_steps s1 0)
       else _clear_sim_state (set_elapsed_steps s1 0)) = Ok s2
    ∧ set_episode_rng RandomState randint s2 (_episode_seed (seeds s2)) = Ok s3
    ∧ initialize_episode task s3 = Ok self'
    ∧ get_obs engine agents task self' = Ok obs.
Proof.
  unfold reset. intros H.
  inv_bind H as s1 H1. inv_bind H as s2 H2. inv_bind H as s3 H3.
  inv_bind H as s4 H4. inv_bind H as o Ho. injection H as <- <-.
  exists s1, s2, s3. by repeat split.
Qed.
End Frame.

Section Seeding.
Context {rng : Type}.
Context (RandomState : Z → rng) (randint : Z → rng → Z * rng).
Context (engine : Engine) (agents : AgentModel) (task : TaskHooks rng).
Implicit Type self : Env rng.

Lemma reset_seeded self s do_reconfigure obs self' :
  reset RandomState randint engine agents task self (Some s) do_reconfigure
  = Ok (obs, self') →
  ∃ s0,
    _episode_rng (seeds s0) = Some (RandomState s)
    ∧ _episode_seed (seeds s0) = Some s
    ∧ config s0 = config self
    ∧ initialize_episode task s0 = Ok self'
    ∧ get_obs engine agents task self' = Ok obs
    ∧ frame s0 self'
    ∧ _main_rng (seeds s0) = _main_rng (seeds self)
    ∧ _main_seed (seeds s0) = _main_seed (seeds self).
Proof.
  intros H. apply reset_stages in H as (s1 & s2 & s3 & H1 & H2 & H3 & H4 & H5).
  injection H1 as <-.
  assert (frame (set_elapsed_steps
                   (set_seeds self
                      (mkSeedPair (_main_seed (seeds self)) (_main_rng (seeds self))
                         (Some s) (Some (RandomState s)))) 0) s2)
    as (Hc & Hw & Hms & Hmr & Hes).
  { destruct do_reconfigure;
      [by eapply reconfigure_frame | by eapply _clear_sim_state_frame]. }
  simpl in Hc, Hw, Hms, Hmr, Hes.
  rewrite Hes in H3. injection H3 as <-.
  pose proof (initialize_episode_frame _ _ _ H4) as Hf.
  eexists. split; [|split; [|split; [|split; [exact H4|split; [exact H5|split; [exact Hf|]]]]]];
    simpl; try done.
Qed.

Lemma reset_unseeded self do_reconfigure obs self' :
  reset RandomState randint engine agents task self None do_reconfigure
  = Ok (obs, self') →
  ∃ r, _main_rng (seeds self) = Some r
    ∧ _main_rng (seeds self') = Some (randint (2 ^ 32) r).2
    ∧ _episode_seed (seeds self') = Some (randint (2 ^ 32) r).1
    ∧ _main_seed (seeds self') = _main_seed (seeds self)
    ∧ config self' = config self
    ∧ warnings self' = warnings self.
Proof.
  intros H. apply reset_stages in H as (s1 & s2 & s3 & H1 & H2 & H3 & H4 & H5).
  unfold set_episode_rng in H1. inv_bind H1 as r Hr. apply not_None_Ok in Hr.
  destruct (randint (2 ^ 32) r) as [x r'] eqn:Hdraw. injection H1 as <-.
  assert (frame (set_elapsed_steps
                   (set_seeds self
                      (mkSeedPair (_main_seed (seeds self)) (Some r')
                         (Some x) (Some (RandomState x)))) 0) s2)
    as (Hc & Hw & Hms & Hmr & Hes).
  { destruct do_reconfigure;
      [by eapply reconfigure_frame | by eapply _clear_sim_state_frame]. }
  simpl in Hc, Hw, Hms, Hmr, Hes.
  rewrite Hes in H3. injection H3 as <-.
  apply initialize_episode_frame in H4 as (Hc' & Hw' & Hms' & Hmr' & Hes').
  simpl in *. exists r. rewrite Hdraw. simpl. repeat split; congruence.
Qed.

Lemma BaseEnv_init_facts args env :
  BaseEnv_init RandomState randint engine agents task args = Ok env →
  _main_seed (seeds env) = Some 2022
  ∧ _main_rng (seeds env) = Some (randint (2 ^ 32) (RandomState 2022)).2
  ∧ _episode_seed (seeds env) = Some (randint (2 ^ 32) (RandomState 2022)).1
  ∧ ∃ w0 w,
      set_frequencies (sim_freq args) (control_freq args) w0
      = Ok (_sim_steps_per_control (config env), w)
      ∧ warnings env = w.
Proof.
  unfold BaseEnv_init. intros H.
  inv_bind H as w0 Hw0. inv_bind H as fw Hfw. destruct fw as [steps w].
  destruct (negb _); [done|]. destruct (negb _); [done|].
  inv_bind H as agent_cfg Hcfg. unfold seed in H. cbn [default] in H.
  inv_bind H as os Hreset. destruct os as [obs self1].
  inv_bind H as ag Hag. injection H as <-.
  apply reset_unseeded in Hreset as (r & Hr & Hmr & Hes & Hms & Hc & Hw).
  simpl in Hr, Hms, Hc, Hw. injection Hr as <-.
  simpl. rewrite Hc, Hw. simpl. repeat split; try done. eauto.
Qed.
End Seeding.

(** C10. The constructor seeds the main generator with the constant 2022
    and only then runs the first reset, which draws the first episode seed
    from it. So every constructed environment, whatever its arguments and
    task, holds the same main generator state and the same first episode
    seed; and from equal main generator states two resets without a seed
    draw the same episode seed and leave equal main generator states: the
    streams of episode seeds coincide. *)
Theorem constructor_seeds_main_rng {rng}
    (RandomState : Z → rng) (randint : Z → rng → Z * rng)
    (engine : Engine) (agents : AgentModel) (task : TaskHooks rng)
    (args : Args) (env : Env rng) :
  BaseEnv_init RandomState randint engine agents task args = Ok env →
  let draw := randint (2 ^ 32) (RandomState 2022) in
  _main_seed (seeds env) = Some 2022
  ∧ _main_rng (seeds env) = Some draw.2
  ∧ _episode_seed (seeds env) = Some draw.1
  ∧ (∀ engine' agents' task' args' env',
       BaseEnv_init RandomState randint engine' agents' task' args' = Ok env' →
       _main_rng (seeds env') = _main_rng (seeds env)
       ∧ _episode_seed (seeds env') = _episode_seed (seeds env))
  ∧ (∀ engine' agents' task' (e e' e1 e1' : Env rng) b b' o o',
       _main_rng (seeds e') = _main_rng (seeds e) →
       reset RandomState randint engine agents task e None b = Ok (o, e1) →
       reset RandomState randint engine' agents' task' e' None b' = Ok (o', e1') →
       _main_rng (seeds e1') = _main_rng (seeds e1)
       ∧ _episode_seed (seeds e1') = _episode_seed (seeds e1)).
Proof.
  intros H draw.
  destruct (BaseEnv_init_facts _ _ _ _ _ _ _ H) as (Hms & Hmr & Hes & _).
  split; [done|]. split; [done|]. split; [done|]. split.
  - intros engine' agents' task' args' env' H'.
    destruct (BaseEnv_init_facts _ _ _ _ _ _ _ H') as (_ & Hmr' & Hes' & _).
    split; congruence.
  - intros engine' agents' task' e e' e1 e1' b b' o o' Hsync H1 H2.
    apply reset_unseeded in H1 as (r & Hr & Hmr1 & Hes1 & _).
    apply reset_unseeded in H2 as (r' & Hr' & Hmr2 & Hes2 & _).
    assert (r' = r) as -> by congruence.
    split; congruence.
Qed.

Section Episode.
Context {rng : Type}.
Context (RandomState : Z → rng) (randint : Z → rng → Z * rng).
Context (engine : Engine) (agents : AgentModel) (task : TaskHooks rng).
Implicit Type self : Env rng.

Lemma run_hook_sim h self self' scene r :
  _scene self = Some scene → _episode_rng (seeds self) = Some r →
  run_hook h self = Ok self' →
  ∃ scene', _scene self' = Some scene'
    ∧ _episode_rng (seeds self') = Some (h (mkSim (world scene) (agent self) (task_data self)) r).2
    ∧ mkSim (world scene') (agent self') (task_data self')
      = (h (mkSim (world scene) (agent self) (task_data self)) r).1.
Proof.
  intros Hs Hr. unfold run_hook. rewrite Hs, Hr. cbn [not_None].
  rewrite !Ok_bind.
  destruct (h _ r) as [[w ag td] r']. intros [= <-]. simpl. eauto.
Qed.

Lemma run_hook_Ok h self self' :
  run_hook h self = Ok self' →
  ∃ scene r, _scene self = Some scene ∧ _episode_rng (seeds self) = Some r.
Proof.
  unfold run_hook. intros H. inv_bind H as scene Hs. inv_bind H as r Hr.
  apply not_None_Ok in Hs, Hr. eauto.
Qed.

Lemma initialize_episode_sim self self' r :
  _episode_rng (seeds self) = Some r →
  initialize_episode task self = Ok self' →
  ∃ scene scene', _scene self = Some scene ∧ _scene self' = Some scene'
    ∧ mkSim (world scene') (agent self') (task_data self')
      = (initialize_sim task (mkSim (world scene) (agent self) (task_data self)) r).1.
Proof.
  intros Hr H. unfold initialize_episode in H.
  inv_bind H as s1 H1. inv_bind H as s2 H2. inv_bind H as s3 H3.
  destruct (run_hook_Ok _ _ _ H1) as (scene & r0 & Hs & Hr0).
  assert (r0 = r) as -> by congruence.
  destruct (run_hook_sim _ _ _ _ _ Hs Hr H1) as (sc1 & Hs1 & Hr1 & Hsim1).
  destruct (run_hook_sim _ _ _ _ _ Hs1 Hr1 H2) as (sc2 & Hs2 & Hr2 & Hsim2).
  destruct (run_hook_sim _ _ _ _ _ Hs2 Hr2 H3) as (sc3 & Hs3 & Hr3 & Hsim3).
  destruct (run_hook_sim _ _ _ _ _ Hs3 Hr3 H) as (sc4 & Hs4 & Hr4 & Hsim4).
  exists scene, sc4. split; [done|]. split; [done|].
  rewrite Hsim4, Hsim3, Hsim2, Hsim1. unfold initialize_sim.
  destruct (_initialize_actors task _ r) as [a1 r1]; simpl.
  destruct (_initialize_articulations task a1 r1) as [a2 r2]; simpl.
  destruct (_initialize_agent task a2 r2) as [a3 r3]; simpl. done.
Qed.

(** What a task hook leaves of the environment around the bodies. *)
Lemma run_hook_rest h self self' :
  run_hook h self = Ok self' →
  config self' = config self
  ∧ _cameras self' = _cameras self
  ∧ ∃ scene scene',
      _scene self = Some scene ∧ _scene self' = Some scene'
      ∧ scene_cameras scene' = scene_cameras scene
      ∧ scene_lights scene' = scene_lights scene
      ∧ scene_timestep scene' = scene_timestep scene
      ∧ sim_ticks scene' = sim_ticks scene.
Proof.
  unfold run_hook. intros H. inv_bind H as scene Hs. inv_bind H as r Hr.
  apply not_None_Ok in Hs. destruct (h _ r) as [sim r']. injection H as <-.
  split; [done|]. split; [done|]. exists scene. eexists.
  split; [done|]. split; [reflexivity|]. by repeat split.
Qed.

Lemma initialize_episode_rest self self' :
  initialize_episode task self = Ok self' →
  config self' = config self
  ∧ _cameras self' = _cameras self
  ∧ ∃ scene scene',
      _scene self = Some scene ∧ _scene self' = Some scene'
      ∧ scene_cameras scene' = scene_cameras scene
      ∧ scene_lights scene' = scene_lights scene
      ∧ scene_timestep scene' = scene_timestep scene
      ∧ sim_ticks scene' = sim_ticks scene.
Proof.
  unfold initialize_episode. intros H.
  inv_bind H as s1 H1. inv_bind H as s2 H2. inv_bind H as s3 H3.
  apply run_hook_rest in H1 as (C1 & K1 & a1 & b1 & A1 & B1 & R1 & L1 & T1 & N1).
  apply run_hook_rest in H2 as (C2 & K2 & a2 & b2 & A2 & B2 & R2 & L2 & T2 & N2).
  apply run_hook_rest in H3 as (C3 & K3 & a3 & b3 & A3 & B3 & R3 & L3 & T3 & N3).
  apply run_hook_rest in H as (C4 & K4 & a4 & b4 & A4 & B4 & R4 & L4 & T4 & N4).
  assert (a2 = b1) as -> by congruence.
  assert (a3 = b2) as -> by congruence.
  assert (a4 = b3) as -> by congruence.
  split; [congruence|]. split; [congruence|]. exists a1, b4.
  repeat split; congruence.
Qed.

(** What [get_obs] reads of the environment. *)
Lemma get_obs_ext (a b : Env rng) :
  config b = config a → _scene b = _scene a → agent b = agent a →
  task_data b = task_data a → _cameras b = _cameras a →
  get_obs engine agents task b = get_obs engine agents task a.
Proof.
  destruct a, b; simpl. by intros -> -> -> -> ->.
Qed.

(** The state in which a reset with a seed starts the episode. *)
Lemma reset_start self s do_reconfigure obs self' :
  reset RandomState randint engine agents task self (Some s) do_reconfigure
  = Ok (obs, self') →
  ∃ s0,
    episode_start RandomState randint task self (Some s) do_reconfigure = Ok s0
    ∧ _episode_rng (seeds s0) = Some (RandomState s)
    ∧ _episode_seed (seeds s0) = Some s
    ∧ initialize_episode task s0 = Ok self'
    ∧ get_obs engine agents task self' = Ok obs.
Proof.
  intros H. apply reset_stages in H as (s1 & s2 & s3 & H1 & H2 & H3 & H4 & H5).
  exists s3. unfold episode_start. rewrite H1, Ok_bind, H2, Ok_bind.
  split; [exact H3|]. injection H1 as <-.
  assert (frame (set_elapsed_steps
                   (set_seeds self
                      (mkSeedPair (_main_seed (seeds self)) (_main_rng (seeds self))
                         (Some s) (Some (RandomState s)))) 0) s2)
    as (_ & _ & _ & _ & Hes).
  { destruct do_reconfigure;
      [by eapply reconfigure_frame | by eapply _clear_sim_state_frame]. }
  simpl in Hes. rewrite Hes in H3. injection H3 as <-. by repeat split.
Qed.

(** What the state-based modes observe. *)
Lemma get_obs_state_based self obs :
  state_based (_obs_mode (config self)) →
  get_obs engine agents task self = Ok obs →
  _obs_mode (config self) = "none" ∧ obs = ODict []
  ∨ _obs_mode (config self) ≠ "none"
    ∧ ∃ scene o, _scene self = Some scene
      ∧ state_observation agents task
          (mkSim (world scene) (agent self) (task_data self)) = Some o
      ∧ obs = (if decide (_obs_mode (config self) = "state")
               then flatten_state_dict else id)
                (ODict [("agent", o.1); ("extra", o.2)]).
Proof.
  intros Hmode H. unfold get_obs in H.
  assert (Hsd : ∀ sd, _get_obs_state_dict agents task self = Ok sd →
    ∃ scene o, _scene self = Some scene
      ∧ state_observation agents task
          (mkSim (world scene) (agent self) (task_data self)) = Some o
      ∧ sd = ODict [("agent", o.1); ("extra", o.2)]).
  { intros sd Hsd. unfold _get_obs_state_dict, _get_obs_agent, get_obs_extra in Hsd.
    inv_bind Hsd as a Ha. inv_bind Ha as ag Hag. inv_bind Ha as scene Hs.
    apply not_None_Ok in Hag, Hs. injection Ha as <-.
    rewrite Hs in Hsd. cbn [not_None] in Hsd. rewrite !Ok_bind in Hsd.
    injection Hsd as <-. exists scene. eexists. split; [done|].
    unfold state_observation. cbn [sim_agent sim_world]. rewrite Hag.
    split; reflexivity. }
  destruct Hmode as [Hm|[Hm|Hm]]; rewrite Hm in *.
  - right. split; [done|]. repeat (case_decide; try discriminate).
    inv_bind H as sd Hsd'. injection H as <-.
    destruct (Hsd _ Hsd') as (scene & o & ? & ? & ->). eauto.
  - right. split; [done|]. repeat (case_decide; try discriminate).
    destruct (Hsd _ H) as (scene & o & ? & ? & ->). eauto.
  - left. repeat (case_decide; try discriminate). by injection H as <-.
Qed.

(** C1, as the code has it. Two resets with the same explicit seed, with or
    without a reconfigure in either, both start episode initialisation with
    the episode generator freshly seeded from that seed. The first
    observations are then the same in two cases. In every observation mode:
    when the two initialisations start from environments set alike (the same
    configuration, cameras and cast of bodies; poses, velocities, commands
    and task data may differ) and the task's initialisation sets the whole
    state of the episode anew. In the state-based modes: when they start
    from environments with the same configuration and cast and the task's
    initialisation sets anew what those modes observe. The controller itself
    puts no body back on a reset without reconfigure: it only zeroes
    velocities. *)
Theorem same_seed_same_episode_rng (self_a self_b : Env rng) (s : Z)
    (ra rb : bool) obs_a obs_b self_a' self_b' :
  reset RandomState randint engine agents task self_a (Some s) ra
  = Ok (obs_a, self_a') →
  reset RandomState randint engine agents task self_b (Some s) rb
  = Ok (obs_b, self_b') →
  ∃ a0 b0,
    episode_start RandomState randint task self_a (Some s) ra = Ok a0
    ∧ episode_start RandomState randint task self_b (Some s) rb = Ok b0
    ∧ _episode_rng (seeds a0) = Some (RandomState s)
    ∧ _episode_rng (seeds b0) = Some (RandomState s)
    ∧ _episode_seed (seeds a0) = Some s
    ∧ _episode_seed (seeds b0) = Some s
    ∧ initialize_episode task a0 = Ok self_a'
    ∧ initialize_episode task b0 = Ok self_b'
    ∧ get_obs engine agents task self_a' = Ok obs_a
    ∧ get_obs engine agents task self_b' = Ok obs_b
    ∧ (sets_episode_state task → set_alike a0 b0 → obs_a = obs_b)
    ∧ (state_based (_obs_mode (config a0)) → sets_observed_state agents task →
       cast_alike a0 b0 → obs_a = obs_b).
Proof.
  intros Ha Hb.
  apply reset_start in Ha as (a0 & Hsa & Hra & Hea & Hia & Hoa).
  apply reset_start in Hb as (b0 & Hsb & Hrb & Heb & Hib & Hob).
  exists a0, b0. split_and!; try done.
  - intros Hset (Hc & Hcam & sa & sb & Hsca & Hscb & Hsc & Hl & Ht & Hn & Hcast).
    pose proof Hia as Hia'.
    eapply initialize_episode_sim in Hia' as (sa0 & sa' & Ea0 & Ea' & Hsima);
      [|exact Hra].
    pose proof Hib as Hib'.
    eapply initialize_episode_sim in Hib' as (sb0 & sb' & Eb0 & Eb' & Hsimb);
      [|exact Hrb].
    assert (sa0 = sa) as -> by congruence.
    assert (sb0 = sb) as -> by congruence.
    rewrite <- (Hset _ _ (RandomState s) Hcast), <- Hsima in Hsimb.
    injection Hsimb as Hw Hag Htd.
    pose proof Hia as Hia''.
    apply initialize_episode_rest in Hia''
      as (Ca & Ka & xa & ya & Xa & Ya & Ra & La & Ta & Na).
    pose proof Hib as Hib''.
    apply initialize_episode_rest in Hib''
      as (Cb & Kb & xb & yb & Xb & Yb & Rb & Lb & Tb & Nb).
    assert (xa = sa) as -> by congruence. assert (ya = sa') as -> by congruence.
    assert (xb = sb) as -> by congruence. assert (yb = sb') as -> by congruence.
    assert (sb' = sa') as ->.
    { destruct sa', sb'; simpl in *. f_equal; congruence. }
    assert (get_obs engine agents task self_b' = get_obs engine agents task self_a')
      as Heq by (apply get_obs_ext; congruence).
    congruence.
  - intros Hmode Hset (Hc & sa & sb & Hsca & Hscb & Hcast).
    pose proof Hia as Hia'.
    eapply initialize_episode_sim in Hia' as (sa0 & sa' & Ea0 & Ea' & Hsima);
      [|exact Hra].
    pose proof Hib as Hib'.
    eapply initialize_episode_sim in Hib' as (sb0 & sb' & Eb0 & Eb' & Hsimb);
      [|exact Hrb].
    assert (sa0 = sa) as -> by congruence.
    assert (sb0 = sb) as -> by congruence.
    pose proof Hia as Hia''.
    apply initialize_episode_rest in Hia'' as (Ca & _).
    pose proof Hib as Hib''.
    apply initialize_episode_rest in Hib'' as (Cb & _).
    assert (Hcc : config self_b' = config self_a') by congruence.
    assert (Hma : state_based (_obs_mode (config self_a'))) by (by rewrite Ca).
    assert (Hmb : state_based (_obs_mode (config self_b'))) by (by rewrite Hcc).
    pose proof (Hset _ _ (RandomState s) Hcast) as Hso.
    rewrite <- Hsima, <- Hsimb in Hso.
    destruct (get_obs_state_based _ _ Hma Hoa)
      as [[Na ->]|(Na & xa & oa & Xa & Oa & ->)];
      destruct (get_obs_state_based _ _ Hmb Hob)
        as [[Nb ->]|(Nb & xb & ob & Xb & Ob & ->)]; try congruence.
    assert (xa = sa') as -> by congruence.
    assert (xb = sb') as -> by congruence.
    rewrite Hcc. congruence.
Qed.
End Episode.

Lemma for_each_replicate_count {St} (body : St → result St)
    (P : nat → St → Prop) (m k : nat) (s : St) :
  (∀ k s, P k s → ∃ s', body s = Ok s' ∧ P (S k) s') →
  P k s →
  ∃ s', for_each (λ s (_ : unit), body s) (replicate m ()) s = Ok s'
        ∧ P (k + m)%nat s'.
Proof.
  intros Hbody. revert k s. induction m as [|m IH]; intros k s HP; simpl.
  - exists s. by rewrite Nat.add_0_r.
  - destruct (Hbody k s HP) as (s1 & -> & HP1). rewrite Ok_bind.
    destruct (IH (S k) s1 HP1) as (s' & -> & HP'). exists s'.
    split; [done|]. by replace (k + S m)%nat with (S k + m)%nat by lia.
Qed.

Section Stepping.
Context {rng : Type}.
Context (engine : Engine) (agents : AgentModel) (task : TaskHooks rng).
Implicit Type self : Env rng.

Lemma substeps_snoc dt n (st : Sim * rng) :
  substeps engine agents task dt (S n) st
  = st' ← substeps engine agents task dt n st; substep engine agents task dt st'.
Proof.
  revert st. induction n as [|n IH]; intros st.
  - simpl. by destruct (substep _ _ _ _ st).
  - change (substeps engine agents task dt (S (S n)) st)
      with (substep engine agents task dt st
            ≫= substeps engine agents task dt (S n)).
    change (substeps engine agents task dt (S n) st)
      with (substep engine agents task dt st
            ≫= substeps engine agents task dt n).
    destruct (substep engine agents task dt st) as [st1|]; [|done].
    simpl. apply (IH st1).
Qed.

Lemma substep_stepped cfg dt t0 st0 k self :
  keeps_agent (_after_simulation_step task) →
  stepped engine agents task cfg dt t0 st0 k self →
  ∃ self',
    (self ← agent_before_simulation_step agents self;
     self ← scene_step engine self;
     run_hook (_after_simulation_step task) self) = Ok self'
    ∧ stepped engine agents task cfg dt t0 st0 (S k) self'.
Proof.
  intros Hkeep (Hc & [ag Hag] & scene & st & Hs & Hdt & Ht & Hst & Hsub).
  unfold sim_state in Hst. rewrite Hs in Hst. cbn [mbind option_bind] in Hst.
  destruct (_episode_rng (seeds self)) as [r|] eqn:Hr; [|done].
  cbn [mbind option_bind] in Hst. injection Hst as <-.
  unfold agent_before_simulation_step. rewrite Hag, Hs. cbn [not_None].
  rewrite !Ok_bind. unfold scene_step. cbn [_scene set_scene not_None].
  rewrite !Ok_bind. unfold run_hook.
  cbn [_scene set_scene seeds not_None world set_world agent task_data].
  rewrite Hr. cbn [not_None]. rewrite !Ok_bind.
  pose proof (Hkeep
    (mkSim (physics_tick engine (before_simulation_step agents ag (world scene))
              (scene_timestep scene)) (agent self) (task_data self)) r) as Hk.
  destruct (_after_simulation_step task _ r) as [sim r'] eqn:Hh.
  eexists. split; [reflexivity|].
  split; [done|]. split; [simpl; apply Hk; simpl; by rewrite Hag|].
  eexists _, (sim, r'). split; [reflexivity|]. split; [done|].
  split; [simpl; lia|]. split; [by destruct sim|].
  rewrite substeps_snoc, Hsub. cbn [mbind option_bind].
  unfold substep. cbn [fst snd sim_agent sim_world sim_task].
  rewrite Hag. cbn [mbind option_bind]. rewrite Hag in Hh. by rewrite <- Hdt, Hh.
Qed.

Lemma loop_stepped cfg dt t0 st0 self :
  keeps_agent (_after_simulation_step task) →
  stepped engine agents task cfg dt t0 st0 0 self →
  ∃ self',
    for_range (_sim_steps_per_control cfg)
      (λ self,
         self ← agent_before_simulation_step agents self;
         self ← scene_step engine self;
         run_hook (_after_simulation_step task) self)
      self = Ok self'
    ∧ stepped engine agents task cfg dt t0 st0 (Z.to_nat (_sim_steps_per_control cfg)) self'.
Proof.
  intros Hk Hst. unfold for_range.
  destruct (for_each_replicate_count
              (λ self,
                 self ← agent_before_simulation_step agents self;
                 self ← scene_step engine self;
                 run_hook (_after_simulation_step task) self)
              (stepped engine agents task cfg dt t0 st0)
              (Z.to_nat (_sim_steps_per_control cfg)) 0 self)
    as (s3 & Hrun & Hst3); [|done|by exists s3].
  intros k s Hs. by apply substep_stepped.
Qed.

Lemma step_action_start self action :
  step_action engine agents task self action
  = (self ← control_step_start agents task self action;
     for_range (_sim_steps_per_control (config self))
       (λ self,
          self ← agent_before_simulation_step agents self;
          self ← scene_step engine self;
          run_hook (_after_simulation_step task) self)
       self).
Proof.
  unfold step_action, control_step_start.
  destruct action as [|a|mode a|]; try done.
  - by destruct (not_None (agent self)).
  - by destruct (not_None (agent self)).
Qed.

Lemma control_step_start_Ok self scene action :
  _scene self = Some scene →
  is_Some (agent self) →
  is_Some (_episode_rng (seeds self)) →
  action ≠ OtherAction →
  keeps_agent (_before_control_step task) →
  ∃ s0 scene0 st0,
    control_step_start agents task self action = Ok s0
    ∧ config s0 = config self
    ∧ is_Some (agent s0)
    ∧ _scene s0 = Some scene0
    ∧ scene_timestep scene0 = scene_timestep scene
    ∧ sim_ticks scene0 = sim_ticks scene
    ∧ sim_state s0 = Some st0.
Proof.
  intros Hs [ag Hag] [r Hr] Hact Hkeep. unfold control_step_start.
  assert (∀ s1, _scene s1 = Some scene → is_Some (agent s1) →
                _episode_rng (seeds s1) = Some r → config s1 = config self →
    ∃ s0 scene0 st0,
      run_hook (_before_control_step task) s1 = Ok s0
      ∧ config s0 = config self ∧ is_Some (agent s0)
      ∧ _scene s0 = Some scene0
      ∧ scene_timestep scene0 = scene_timestep scene
      ∧ sim_ticks scene0 = sim_ticks scene
      ∧ sim_state s0 = Some st0) as Hhook.
  { intros s1 Hs1 Hag1 Hr1 Hc1. unfold run_hook. rewrite Hs1, Hr1.
    cbn [not_None]. rewrite !Ok_bind.
    pose proof (Hkeep (mkSim (world scene) (agent s1) (task_data s1)) r) as Hk.
    destruct (_before_control_step task _ r) as [sim r'].
    eexists _, _, (sim, r'). split; [reflexivity|]. split; [done|].
    split; [simpl; by apply Hk|]. split; [reflexivity|].
    split; [done|]. split; [done|]. by destruct sim. }
  destruct action as [|a|mode a|]; [| | |done].
  - rewrite Ok_bind. apply Hhook; [done|by eexists|done|done].
  - rewrite Hag. cbn [not_None]. rewrite !Ok_bind.
    apply Hhook; [done|by eexists|done|done].
  - rewrite Hag. cbn [not_None]. rewrite !Ok_bind.
    apply Hhook; [done|by eexists|done|done].
Qed.
End Stepping.

(** C5. For a positive control frequency (and a simulation frequency that is
    not negative) the frequency block of the constructor never raises: it
    records sim_freq // control_freq substeps per control step, with a
    warning exactly when the division leaves a remainder. A constructed
    environment holds that count. Each control step of a configured
    environment then runs exactly that many substeps on the scene: starting
    from the state the hook before the control step left, the bodies, the
    agent, the task data and the episode generator are those after that
    many rounds of agent hook, one engine tick of the scene's time step and
    task hook, e.g. 25 rounds for 500 / 20 and 5 for 100 / 20; [step]
    returns that environment with the step counter advanced. *)
Theorem frequency_law {rng} (RandomState : Z → rng) (randint : Z → rng → Z * rng)
    (engine : Engine) (agents : AgentModel) (task : TaskHooks rng) (args : Args) :
  0 ≤ sim_freq args → 0 < control_freq args →
  let n := sim_freq args `div` control_freq args in
  let warning := NotDivisible (sim_freq args) (control_freq args) in
  (∀ w, set_frequencies (sim_freq args) (control_freq args) w
        = Ok (n, if decide (sim_freq args `mod` control_freq args = 0)
                 then w else w ++ [warning]))
  ∧ (∀ env,
       BaseEnv_init RandomState randint engine agents task args = Ok env →
       _sim_steps_per_control (config env) = n
       ∧ (sim_freq args `mod` control_freq args ≠ 0 → warning ∈ warnings env))
  ∧ (∀ (self : Env rng) scene action,
       _sim_steps_per_control (config self) = n →
       _scene self = Some scene →
       is_Some (agent self) →
       is_Some (_episode_rng (seeds self)) →
       action ≠ OtherAction →
       keeps_agent (_before_control_step task) →
       keeps_agent (_after_simulation_step task) →
       ∃ s0 st0 self' scene' st',
         control_step_start agents task self action = Ok s0
         ∧ sim_state s0 = Some st0
         ∧ step_action engine agents task self action = Ok self'
         ∧ _scene self' = Some scene'
         ∧ sim_state self' = Some st'
         ∧ substeps engine agents task (scene_timestep scene) (Z.to_nat n) st0
           = Some st'
         ∧ Z.of_nat (sim_ticks scene') = Z.of_nat (sim_ticks scene) + n
         ∧ ∀ obs reward done_ info self'',
             step engine agents task self action
             = Ok (obs, reward, done_, info, self'') →
             self'' = set_elapsed_steps self' (_elapsed_steps self' + 1)).
Proof.
  intros Hsim Hctl n warning.
  assert (Hn : 0 ≤ n) by (apply Z.div_pos; lia).
  assert (Hfreq : ∀ w, set_frequencies (sim_freq args) (control_freq args) w
        = Ok (n, if decide (sim_freq args `mod` control_freq args = 0)
                 then w else w ++ [warning])).
  { intros w. unfold set_frequencies. case_decide; [lia|].
    do 2 f_equal. repeat case_decide; done. }
  split; [exact Hfreq|]. split.
  - intros env Hinit.
    destruct (BaseEnv_init_facts _ _ _ _ _ _ _ Hinit) as (_ & _ & _ & w0 & w & Hf & Hw).
    rewrite Hfreq in Hf. injection Hf as Hsteps Hw'.
    split; [done|]. intros Hnd. rewrite Hw, <- Hw'.
    case_decide; [done|]. apply elem_of_app. right. left.
  - intros self scene action Hsteps Hs Hag Hr Hact Hk1 Hk2.
    destruct (control_step_start_Ok agents task self scene action Hs Hag Hr Hact Hk1)
      as (s0 & scene0 & st0 & Hstart & Hc0 & Hag0 & Hs0 & Hdt0 & Ht0 & Hst0).
    destruct (loop_stepped engine agents task (config s0) (scene_timestep scene)
                (sim_ticks scene) st0 s0 Hk2)
      as (self' & Hloop & _ & _ & scene' & st' & Hs' & _ & Ht' & Hst' & Hsub).
    { split; [done|]. split; [done|]. exists scene0, st0.
      split; [done|]. split; [done|]. split; [lia|]. by split. }
    assert (Hrun : step_action engine agents task self action = Ok self').
    { by rewrite step_action_start, Hstart, Ok_bind. }
    rewrite Hc0, Hsteps in Hsub, Ht'.
    exists s0, st0, self', scene', st'. split_and!; try done.
    + rewrite Ht'. lia.
    + intros obs reward done_ info self'' Hstep. unfold step in Hstep.
      rewrite Hrun, Ok_bind in Hstep.
      inv_bind Hstep as o Ho. inv_bind Hstep as i Hi.
      inv_bind Hstep as rw Hrw. inv_bind Hstep as d Hd.
      by injection Hstep as <- <- <- <- <-.
Qed.

(** ** Sensor mounts *)

Lemma find_all_false {A} (f : A → bool) l :
  (∀ x, x ∈ l → f x = false) → find f l = None.
Proof.
  induction l as [|a l IH]; simpl; intros H; [done|].
  rewrite (H a) by left. apply IH. intros x Hx. apply H. by right.
Qed.

(** A free actor name that no actor of the scene bears resolves to no mount,
    without an error. *)
Lemma get_mount_actor_free_missing scene name :
  (∀ a, a ∈ all_actors (world scene) → actor_name a ≠ name) →
  get_mount_actor scene PyNone (PyStr name) = Ok None.
Proof.
  intros Hno. unfold get_mount_actor, get_entity_by_name, named_actors.
  rewrite find_all_false; [done|].
  intros [n h] Hin. apply elem_of_lookup_imap in Hin as (i & a & [= -> ->] & Ha).
  apply bool_decide_eq_false. simpl. apply Hno. by eapply list_elem_of_lookup_2.
Qed.

(** Whatever else the configuration says, the camera is then world-fixed. *)
Lemma Camera_init_free_missing cfg scene renderer name c scene' :
  (∀ a, a ∈ all_actors (world scene) → actor_name a ≠ name) →
  getattr cfg "articulation_uuid" = Ok PyNone →
  getattr cfg "actor_uuid" = Ok (PyStr name) →
  Camera_init cfg scene renderer = Ok (c, scene') →
  actor c = None ∧ cam_mount (camera c) = None.
Proof.
  intros Hno Hart Hact. unfold Camera_init.
  rewrite Hart, Hact, !Ok_bind, (get_mount_actor_free_missing _ _ Hno), Ok_bind.
  intros H.
  repeat (let x := fresh "x" in let Hx := fresh "Hx" in inv_bind H as x Hx).
  by injection H as <- <-.
Qed.

(** C6 does not hold of the code. A camera configuration naming a free
    actor that the scene does not have gets no mount and no error: the
    camera is added as a world-fixed one. The articulation branch of the
    same lookup does raise when the link is missing. *)
Theorem unresolved_free_mount_is_world_fixed :
  let cfg := sample_camera_cfg "cam" PyNone (PyStr "no_such_actor") in
  get_entity_by_name (named_actors sample_scene) (PyStr "no_such_actor") = None
  ∧ get_mount_actor sample_scene PyNone (PyStr "no_such_actor") = Ok None
  ∧ (∃ c scene', Camera_init cfg sample_scene "vulkan" = Ok (c, scene')
       ∧ actor c = None ∧ cam_mount (camera c) = None
       ∧ scene_cameras scene' = scene_cameras sample_scene ++ [camera c])
  ∧ Camera_init (sample_camera_cfg "cam" (PyStr "robot") (PyStr "no_such_link"))
      sample_scene "vulkan"
    = Raise (RuntimeError "Mount actor is not found").
Proof.
  repeat split; try (vm_compute; reflexivity).
  eexists _, _. repeat split; vm_compute; reflexivity.
Qed.

(** ** Robot segmentation *)

Lemma robot_seg_data ids (a : ndarray Z) :
  robot_seg_tensor ids (UInts a)
  = UInts (mk_ndarray (shape a)
             ((λ x, if bool_decide (x ∈ ids) then x else 0) <$> data a)).
Proof.
  unfold robot_seg_tensor, isin_Z. do 2 f_equal.
  apply list_fmap_ext. intros i x _. case_bool_decide; lia.
Qed.

Lemma odict_pop_get {V} (d : odict V) k v :
  odict_get d k = Some v →
  ∃ d', odict_pop d k = Ok (v, d')
    ∧ (∀ k', k' ≠ k → odict_get d' k' = odict_get d k')
    ∧ (NoDup (odict_keys d) → odict_get d' k = None).
Proof.
  induction d as [|[k0 v0] d IH]; simpl; [done|].
  case_decide as Hk.
  - intros [= ->]. subst k0. exists d. split; [done|]. split.
    + intros k' Hne. by case_decide; [congruence|].
    + intros Hnd. unfold odict_keys in Hnd. rewrite ?fmap_cons in Hnd.
      apply NoDup_cons in Hnd as [Hnot _]. by apply odict_get_None.
  - intros Hget. destruct (IH Hget) as (d' & -> & Hother & Hgone).
    exists ((k0, v0) :: d'). split; [done|]. split.
    + intros k' Hne. simpl. case_decide; [done|]. by apply Hother.
    + intros Hnd. unfold odict_keys in Hnd. rewrite ?fmap_cons in Hnd.
      apply NoDup_cons in Hnd as [_ Hnd]. simpl.
      case_decide; [done|]. by apply Hgone.
Qed.

(** The mask of [_get_robot_seg]: the shape of the raw array, and at each
    pixel the raw id if it is one of the agent's ids, zero otherwise. *)
Lemma _get_robot_seg_mask {rng} (self : Env rng) (ag : Agent)
    (actor_seg : ndarray Z) :
  agent self = Some ag →
  ∃ mask,
    _get_robot_seg self (UInts actor_seg) = Ok (UInts mask)
    ∧ shape mask = shape actor_seg
    ∧ length (data mask) = length (data actor_seg)
    ∧ ∀ i raw, data actor_seg !! i = Some raw →
        ∃ x, data mask !! i = Some x
          ∧ x = (if bool_decide (raw ∈ robot_link_ids ag) then raw else 0)
          ∧ (x ≠ 0 ↔ raw ∈ robot_link_ids ag ∧ raw ≠ 0).
Proof.
  intros Hag. unfold _get_robot_seg. rewrite Hag. cbn [not_None].
  rewrite Ok_bind, robot_seg_data. eexists. split; [reflexivity|].
  split; [done|]. cbn [data]. split; [by rewrite length_fmap|].
  intros i raw Hi. rewrite list_lookup_fmap, Hi. cbn.
  eexists. split; [reflexivity|]. split; [done|].
  case_bool_decide as Hin.
  - split; [intros Hx; by split | by intros [_ Hx]].
  - split; [done | by intros [Hc _]].
Qed.

(** What the loop body of the robot-seg modes does to one image record: the
    actor-id channel is taken out and the mask put in under "robot_seg";
    the other channels stay. *)
Lemma replace_actor_seg_mask {rng} (self : Env rng) (ag : Agent)
    (image : odict Obs) (actor_seg : ndarray Z) :
  agent self = Some ag →
  NoDup (odict_keys image) →
  odict_get image "actor_seg" = Some (OArr (UInts actor_seg)) →
  ∃ image' mask,
    replace_actor_seg self (ODict image) = Ok (ODict image')
    ∧ _get_robot_seg self (UInts actor_seg) = Ok (UInts mask)
    ∧ odict_get image' "actor_seg" = None
    ∧ odict_get image' "robot_seg" = Some (OArr (UInts mask))
    ∧ (∀ k, k ≠ "actor_seg" → k ≠ "robot_seg" →
            odict_get image' k = odict_get image k).
Proof.
  intros Hag Hnd Hget.
  destruct (odict_pop_get image "actor_seg" _ Hget) as (d' & Hpop & Hother & Hgone).
  destruct (_get_robot_seg_mask self ag actor_seg Hag) as (mask & Hmask & _).
  unfold replace_actor_seg. cbn [obs_entries].
  rewrite Ok_bind, Hpop, Ok_bind. cbn [obs_tensor]. rewrite Ok_bind, Hmask, Ok_bind.
  eexists _, mask. split; [reflexivity|]. split; [done|]. split.
  { rewrite odict_get_set_ne by done. by apply Hgone. }
  split; [by rewrite odict_get_set_eq|].
  intros k H1 H2. rewrite odict_get_set_ne by done. by apply Hother.
Qed.

(** ** The image and point-cloud modes *)

Section CameraModes.
Context {rng : Type}.
Context (RandomState : Z → rng) (randint : Z → rng → Z * rng).
Context (engine : Engine) (agents : AgentModel) (task : TaskHooks rng).
Implicit Type self : Env rng.

(** Reading the images of a runtime camera never returns: after the helper
    the controller asks the runtime camera for a matrix it does not have. *)
Lemma _get_camera_images_raises self scene camera flags :
  raises (_get_camera_images engine self scene camera flags)
  ∧ (is_Ok (get_camera_images engine scene camera flags) →
     _get_camera_images engine self scene camera flags = Raise AttributeError).
Proof.
  unfold _get_camera_images.
  destruct (get_camera_images engine scene camera flags) as [d|e].
  - split; [by eexists|done].
  - split; [by eexists|]. by intros [d Hd].
Qed.

Lemma _get_obs_images_raises self kw :
  _cameras self ≠ [] → raises (_get_obs_images engine agents self kw).
Proof.
  intros Hne. unfold _get_obs_images.
  destruct (_scene self) as [scene|]; [|by eexists].
  destruct (agent self) as [ag|]; [|by eexists].
  cbn [not_None]. rewrite !Ok_bind.
  destruct (_cameras self) as [|[name camera] cs]; [done|].
  cbn [for_each].
  destruct (_get_camera_images_raises self scene camera (resolve_flags kw))
    as [[e ->] _].
  by eexists.
Qed.

Lemma unset_flags_rgbd self kw :
  _enable_gt_seg (config self) = None →
  _get_obs_rgbd engine agents task self kw = Raise AttributeError.
Proof. unfold _get_obs_rgbd. by intros ->. Qed.

Lemma unset_flags_pointcloud self kw :
  _enable_gt_seg (config self) = None →
  _get_obs_pointcloud engine agents task self kw = Raise AttributeError.
Proof. unfold _get_obs_pointcloud. by intros ->. Qed.

Lemma unset_flags_get_obs self :
  _enable_gt_seg (config self) = None →
  _obs_mode (config self) ∈ camera_modes →
  get_obs engine agents task self = Raise AttributeError.
Proof.
  intros Hflag Hmode. unfold get_obs.
  unfold camera_modes in Hmode.
  rewrite !elem_of_cons, elem_of_nil in Hmode.
  destruct Hmode as [Hm|[Hm|[Hm|[Hm|[]]]]]; rewrite Hm;
    repeat (case_decide; [discriminate|]); (case_decide; [|done]).
  - by apply unset_flags_rgbd.
  - by apply unset_flags_pointcloud.
  - unfold _get_obs_rgbd_robot_seg. by rewrite unset_flags_rgbd.
  - unfold _get_obs_pointcloud_robot_seg. by rewrite unset_flags_pointcloud.
Qed.

Lemma reset_keeps_config self seed b obs self' :
  reset RandomState randint engine agents task self seed b = Ok (obs, self') →
  config self' = config self.
Proof.
  destruct seed as [s|]; intros H.
  - apply reset_seeded in H as (s0 & _ & _ & Hc & _ & _ & (Hf & _) & _). congruence.
  - by apply reset_unseeded in H as (r & _ & _ & _ & _ & Hc & _).
Qed.

Lemma reset_camera_mode self seed b :
  _enable_gt_seg (config self) = None →
  _obs_mode (config self) ∈ camera_modes →
  raises (reset RandomState randint engine agents task self seed b).
Proof.
  intros Hflag Hmode.
  destruct (reset RandomState randint engine agents task self seed b)
    as [[obs self']|e] eqn:E; [exfalso|by eexists].
  pose proof (reset_keeps_config _ _ _ _ _ E) as Hc.
  apply reset_stages in E as (s1 & s2 & s3 & _ & _ & _ & _ & Hobs).
  rewrite unset_flags_get_obs in Hobs; [done| |]; by rewrite Hc.
Qed.

(** The constructor leaves the two attributes unassigned. *)
Lemma BaseEnv_init_flags args env :
  BaseEnv_init RandomState randint engine agents task args = Ok env →
  _enable_gt_seg (config env) = None ∧ _enable_kuafu (config env) = None.
Proof.
  unfold BaseEnv_init. intros H.
  inv_bind H as w0 Hw0. inv_bind H as fw Hfw. destruct fw as [steps w].
  destruct (negb _); [done|]. destruct (negb _); [done|].
  inv_bind H as agent_cfg Hcfg. unfold seed in H. cbn [default] in H.
  inv_bind H as os Hreset. destruct os as [obs self1].
  inv_bind H as ag Hag. injection H as <-.
  apply reset_keeps_config in Hreset. simpl in Hreset. simpl.
  by rewrite Hreset.
Qed.

(** So it never returns in an image or point-cloud mode. *)
Lemma BaseEnv_init_camera_mode args :
  default "state" (obs_mode args) ∈ camera_modes →
  raises (BaseEnv_init RandomState randint engine agents task args).
Proof.
  intros Hmode.
  destruct (BaseEnv_init RandomState randint engine agents task args)
    as [env|e] eqn:E; [exfalso|by eexists].
  unfold BaseEnv_init in E.
  inv_bind E as w0 Hw0. inv_bind E as fw Hfw. destruct fw as [steps w].
  destruct (negb _); [done|]. destruct (negb _); [done|].
  inv_bind E as agent_cfg Hcfg. unfold seed in E. cbn [default] in E.
  inv_bind E as os Hreset. destruct os as [obs self1].
  match type of Hreset with
  | reset _ _ _ _ _ ?s _ _ = _ =>
      destruct (reset_camera_mode s None true) as [e He]
  end; [done|done|].
  rewrite He in Hreset. discriminate.
Qed.

(** With the attributes assigned by a subclass the modes get further, and
    stop at the first runtime camera. *)
Lemma assigned_flags_rgbd self kw gt_seg kuafu :
  _enable_gt_seg (config self) = Some gt_seg →
  _enable_kuafu (config self) = Some kuafu →
  _cameras self ≠ [] →
  raises (_get_obs_rgbd engine agents task self kw).
Proof.
  intros Hg Hk Hne. unfold _get_obs_rgbd. rewrite Hg, Hk. cbn [not_None].
  rewrite !Ok_bind.
  match goal with
  | |- raises (_get_obs_images _ _ _ ?k ≫= _) =>
      destruct (_get_obs_images_raises self k Hne) as [e ->]
  end.
  by eexists.
Qed.

Lemma assigned_flags_pointcloud self kw gt_seg :
  _enable_gt_seg (config self) = Some gt_seg →
  (_enable_kuafu (config self) = Some true →
   _get_obs_pointcloud engine agents task self kw
   = Raise (NotImplementedError
              "Do not support pointcloud mode for KuafuRenderer yet."))
  ∧ (_enable_kuafu (config self) = Some false →
     _cameras self ≠ [] →
     raises (_get_obs_pointcloud engine agents task self kw)).
Proof.
  intros Hg. unfold _get_obs_pointcloud. rewrite Hg. cbn [not_None].
  rewrite !Ok_bind. split.
  - by intros ->.
  - intros -> Hne. cbn [not_None]. rewrite !Ok_bind.
    destruct (_scene self) as [scene|]; [|by eexists].
    destruct (agent self) as [ag|]; [|by eexists].
    cbn [not_None]. rewrite !Ok_bind.
    destruct (_cameras self) as [|[name camera] cs]; [done|].
    cbn [for_each].
    destruct (get_camera_pcd engine scene camera
                (if gt_seg then gt_seg_kwargs kw else kw)) as [pcd|e];
      by eexists.
Qed.

(** The loop of [_get_obs_rgbd_robot_seg]. *)
Lemma replace_all self (images : list (string * Obs)) acc res :
  for_each
    (λ acc ni, image ← replace_actor_seg self ni.2; Ok (acc ++ [(ni.1, image)]))
    images acc = Ok res →
  ∃ images',
    res = acc ++ images'
    ∧ Forall2 (λ ni ni', ni'.1 = ni.1 ∧ replace_actor_seg self ni.2 = Ok ni'.2)
        images images'.
Proof.
  revert acc. induction images as [|[n img] images IH]; intros acc H; simpl in H.
  - injection H as <-. exists []. by rewrite app_nil_r.
  - inv_bind H as acc1 H1. inv_bind H1 as img' Himg. injection H1 as <-.
    destruct (IH _ H) as (rest & -> & Hall).
    exists ((n, img') :: rest). rewrite <- app_assoc. split; [done|].
    constructor; [by split|done].
Qed.

(** What the robot-seg modes return when they return: the record of the
    base mode, run with the actor-level segmentation asked for, in which
    every image record (the point cloud, in the point-cloud mode) went
    through [replace_actor_seg]. *)
Lemma rgbd_robot_seg_replaces self obs' :
  _get_obs_rgbd_robot_seg engine agents task self = Ok obs' →
  ∃ d images images',
    _get_obs_rgbd engine agents task self (mkKwargs None None None (Some true))
    = Ok (ODict d)
    ∧ odict_get d "image" = Some (ODict images)
    ∧ obs' = ODict (odict_set d "image" (ODict images'))
    ∧ Forall2 (λ ni ni', ni'.1 = ni.1 ∧ replace_actor_seg self ni.2 = Ok ni'.2)
        images images'.
Proof.
  unfold _get_obs_rgbd_robot_seg. intros H.
  inv_bind H as obs Hobs. inv_bind H as d Hd. inv_bind H as im Him.
  inv_bind H as images Himages. inv_bind H as images' Hloop.
  injection H as <-.
  destruct obs as [|d0]; [done|]. injection Hd as <-.
  unfold obs_getitem in Him. cbn [obs_entries] in Him. rewrite Ok_bind in Him.
  destruct (odict_get d0 "image") as [v|] eqn:Hget; [|done]. injection Him as <-.
  destruct v as [|imgs]; [done|]. injection Himages as <-.
  apply replace_all in Hloop as (res & -> & Hall).
  exists d0, imgs, res. by repeat split.
Qed.

Lemma pointcloud_robot_seg_replaces self obs' :
  _get_obs_pointcloud_robot_seg engine agents task self = Ok obs' →
  ∃ d pointcloud pointcloud',
    _get_obs_pointcloud engine agents task self
      (mkKwargs None None None (Some true)) = Ok (ODict d)
    ∧ odict_get d "pointcloud" = Some pointcloud
    ∧ replace_actor_seg self pointcloud = Ok pointcloud'
    ∧ obs' = ODict (odict_set d "pointcloud" pointcloud').
Proof.
  unfold _get_obs_pointcloud_robot_seg. intros H.
  inv_bind H as obs Hobs. inv_bind H as d Hd. inv_bind H as pc Hpc.
  inv_bind H as pc' Hrep. injection H as <-.
  destruct obs as [|d0]; [done|]. injection Hd as <-.
  unfold obs_getitem in Hpc. cbn [obs_entries] in Hpc. rewrite Ok_bind in Hpc.
  destruct (odict_get d0 "pointcloud") as [v|] eqn:Hget; [|done].
  injection Hpc as <-. by exists d0, v, pc'.
Qed.
End CameraModes.

(** C9 does not hold of the code. The robot-seg modes run their base mode
    first, and the base modes read [_enable_gt_seg], which nothing assigns:
    the constructor never returns in these modes, whatever the task, and on
    an environment built in another mode both mode functions raise
    [AttributeError] before any mask is made. What comes after is as the
    claim says: when a robot-seg mode returns, every image record of the
    base mode went through the replacement of its actor-id channel by
    the mask of [_get_robot_seg], which has the shape of the raw array and
    holds the raw id where it is one of the agent's ids and zero
    elsewhere. *)
Theorem robot_seg_modes_raise {rng}
    (RandomState : Z → rng) (randint : Z → rng → Z * rng)
    (engine : Engine) (agents : AgentModel) (task : TaskHooks rng) :
  construct "rgbd_robot_seg" "vulkan" = Raise AttributeError
  ∧ construct "pointcloud_robot_seg" "vulkan" = Raise AttributeError
  ∧ _get_obs_rgbd_robot_seg sample_engine sample_agents sample_task sample_env
    = Raise AttributeError
  ∧ _get_obs_pointcloud_robot_seg sample_engine sample_agents sample_task sample_env
    = Raise AttributeError
  ∧ (∀ args,
       default "state" (obs_mode args) ∈ ["rgbd_robot_seg"; "pointcloud_robot_seg"] →
       raises (BaseEnv_init RandomState randint engine agents task args))
  ∧ (∀ args env,
       BaseEnv_init RandomState randint engine agents task args = Ok env →
       _get_obs_rgbd_robot_seg engine agents task env = Raise AttributeError
       ∧ _get_obs_pointcloud_robot_seg engine agents task env
         = Raise AttributeError)
  ∧ (∀ (self : Env rng) obs',
       _get_obs_rgbd_robot_seg engine agents task self = Ok obs' →
       ∃ d images images',
         _get_obs_rgbd engine agents task self
           (mkKwargs None None None (Some true)) = Ok (ODict d)
         ∧ odict_get d "image" = Some (ODict images)
         ∧ obs' = ODict (odict_set d "image" (ODict images'))
         ∧ Forall2 (λ ni ni', ni'.1 = ni.1
                              ∧ replace_actor_seg self ni.2 = Ok ni'.2)
             images images')
  ∧ (∀ (self : Env rng) obs',
       _get_obs_pointcloud_robot_seg engine agents task self = Ok obs' →
       ∃ d pointcloud pointcloud',
         _get_obs_pointcloud engine agents task self
           (mkKwargs None None None (Some true)) = Ok (ODict d)
         ∧ odict_get d "pointcloud" = Some pointcloud
         ∧ replace_actor_seg self pointcloud = Ok pointcloud'
         ∧ obs' = ODict (odict_set d "pointcloud" pointcloud'))
  ∧ (∀ (self : Env rng) ag image actor_seg,
       agent self = Some ag →
       NoDup (odict_keys image) →
       odict_get image "actor_seg" = Some (OArr (UInts actor_seg)) →
       ∃ image' mask,
         replace_actor_seg self (ODict image) = Ok (ODict image')
         ∧ odict_get image' "actor_seg" = None
         ∧ odict_get image' "robot_seg" = Some (OArr (UInts mask))
         ∧ shape mask = shape actor_seg
         ∧ ∀ i raw, data actor_seg !! i = Some raw →
             data mask !! i
             = Some (if bool_decide (raw ∈ robot_link_ids ag) then raw else 0))
  ∧ _get_robot_seg sample_env (UInts (mk_ndarray [2; 2]%nat [0; 1; 2; 5]))
    = Ok (UInts (mk_ndarray [2; 2]%nat [0; 1; 2; 0])).
Proof.
  split; [vm_compute; reflexivity|]. split; [vm_compute; reflexivity|].
  split; [vm_compute; reflexivity|]. split; [vm_compute; reflexivity|].
  split.
  { intros args Hmode. apply BaseEnv_init_camera_mode.
    unfold camera_modes. rewrite !elem_of_cons, elem_of_nil in *. tauto. }
  split.
  { intros args env Henv.
    destruct (BaseEnv_init_flags _ _ _ _ _ _ _ Henv) as [Hg _].
    unfold _get_obs_rgbd_robot_seg, _get_obs_pointcloud_robot_seg.
    by rewrite unset_flags_rgbd, unset_flags_pointcloud. }
  split; [apply rgbd_robot_seg_replaces|].
  split; [apply pointcloud_robot_seg_replaces|].
  split; [|vm_compute; reflexivity].
  intros self ag image actor_seg Hag Hnd Hget.
  destruct (replace_actor_seg_mask self ag image actor_seg Hag Hnd Hget)
    as (image' & mask & Hrep & Hmask & Hgone & Hnew & _).
  destruct (_get_robot_seg_mask self ag actor_seg Hag)
    as (mask' & Hmask' & Hshape & _ & Hpix).
  assert (mask' = mask) as -> by congruence.
  exists image', mask. split_and!; try done.
  intros i raw Hi. by destruct (Hpix i raw Hi) as (x & -> & -> & _).
Qed.

(** ** Renderer capability *)

(** C2 does not hold of the code. [_get_obs_rgbd] and [_get_obs_pointcloud]
    start by reading [_enable_gt_seg] and [_enable_kuafu]; the constructor
    takes [renderer_type] and assigns neither, so on the limited renderer
    as on the other the first read raises [AttributeError]: the
    constructor, which observes once, never returns in the rgbd mode nor in
    the pointcloud mode, and on an environment built in another mode both
    mode functions raise the same error. The branches that would tell the
    two modes apart come after that read. With the attributes assigned from
    outside, the pointcloud mode does raise its [NotImplementedError] on the
    limited renderer, but the rgbd mode still raises as soon as the
    environment has a runtime camera, for [_get_camera_images] asks the
    runtime camera for the matrices of the engine's camera. *)
Theorem kuafu_rgbd_raises {rng}
    (RandomState : Z → rng) (randint : Z → rng → Z * rng)
    (engine : Engine) (agents : AgentModel) (task : TaskHooks rng) :
  construct "rgbd" "kuafu" = Raise AttributeError
  ∧ construct "pointcloud" "kuafu" = Raise AttributeError
  ∧ construct "state" "kuafu" = Ok kuafu_env
  ∧ _get_obs_rgbd sample_engine sample_agents sample_task kuafu_env no_kwargs
    = Raise AttributeError
  ∧ _get_obs_pointcloud sample_engine sample_agents sample_task kuafu_env no_kwargs
    = Raise AttributeError
  ∧ _get_obs_rgbd sample_engine sample_agents sample_task
      (with_flags kuafu_env false true) no_kwargs = Raise AttributeError
  ∧ (∀ args env,
       BaseEnv_init RandomState randint engine agents task args = Ok env →
       _enable_gt_seg (config env) = None ∧ _enable_kuafu (config env) = None)
  ∧ (∀ args,
       default "state" (obs_mode args) ∈ camera_modes →
       raises (BaseEnv_init RandomState randint engine agents task args))
  ∧ (∀ (self : Env rng) kw,
       _enable_gt_seg (config self) = None →
       _get_obs_rgbd engine agents task self kw = Raise AttributeError
       ∧ _get_obs_pointcloud engine agents task self kw = Raise AttributeError)
  ∧ (∀ (self : Env rng) kw gt_seg kuafu,
       _enable_gt_seg (config self) = Some gt_seg →
       _enable_kuafu (config self) = Some kuafu →
       _cameras self ≠ [] →
       raises (_get_obs_rgbd engine agents task self kw))
  ∧ (∀ (self : Env rng) kw gt_seg,
       _enable_gt_seg (config self) = Some gt_seg →
       _enable_kuafu (config self) = Some true →
       _get_obs_pointcloud engine agents task self kw
       = Raise (NotImplementedError
                  "Do not support pointcloud mode for KuafuRenderer yet.")).
Proof.
  split; [vm_compute; reflexivity|]. split; [vm_compute; reflexivity|].
  split; [vm_compute; reflexivity|]. split; [vm_compute; reflexivity|].
  split; [vm_compute; reflexivity|]. split; [vm_compute; reflexivity|].
  split; [apply BaseEnv_init_flags|]. split; [apply BaseEnv_init_camera_mode|].
  split.
  { intros self kw Hg. split;
      [by apply unset_flags_rgbd | by apply unset_flags_pointcloud]. }
  split; [apply assigned_flags_rgbd|].
  intros self kw gt_seg Hg Hk.
  by destruct (assigned_flags_pointcloud engine agents task self kw gt_seg Hg) as [H _];
    apply H.
Qed.

(** ** Runs of the sample task *)

(** Witness of [constructor_seeds_main_rng]: the sample environment. *)
Lemma constructor_seeds_main_rng_witness :
  BaseEnv_init sample_RandomState sample_randint sample_engine sample_agents
    sample_task (sample_args "state" 500 20) = Ok sample_env
  ∧ _main_seed (seeds sample_env) = Some 2022
  ∧ _episode_seed (seeds sample_env)
    = Some (sample_randint (2 ^ 32) (sample_RandomState 2022)).1.
Proof.
  assert (H : BaseEnv_init sample_RandomState sample_randint sample_engine
                sample_agents sample_task (sample_args "state" 500 20)
              = Ok sample_env) by (vm_compute; reflexivity).
  split; [exact H|].
  destruct (constructor_seeds_main_rng _ _ _ _ _ _ _ H) as (H1 & _ & H3 & _).
  split; [exact H1|exact H3].
Defined.

Lemma Ok_inj {A} (a b : A) : Ok a = Ok b → a = b.
Proof. by intros [= ->]. Qed.

Lemma fmap_same {A B} (R : A → A → Prop) (f : A → B) (l1 l2 : list A) :
  (∀ a b, R a b → f a = f b) → Forall2 R l1 l2 → f <$> l1 = f <$> l2.
Proof.
  intros Hf H. induction H as [|a b l1 l2 Hab _ IH]; [done|].
  rewrite !fmap_cons. f_equal; [by apply Hf|done].
Qed.

(** The posing task sets the state of the episode anew. *)
Lemma posing_task_sets_episode_state : sets_episode_state posing_task.
Proof.
  intros [w1 ag1 td1] [w2 ag2 td2] r (Ha & Hb & Hag). simpl in Ha, Hb, Hag.
  unfold initialize_sim, posing_task. simpl.
  unfold place_actors, pass, bend_robot, draw_goal. simpl.
  destruct (sample_randint 100 r) as [x r1].
  destruct (sample_randint 100 r1) as [q r2].
  destruct (sample_randint 100 r2) as [g r3]. simpl.
  f_equal; [f_equal|].
  - apply (fmap_same same_actor); [|done].
    intros a b (Hn & Hi & Ht). unfold place. by rewrite Hn, Hi, Ht.
  - apply (fmap_same same_articulation); [|done].
    intros a b (Hn & Hl & Hd). unfold bend. by rewrite Hn, Hl, Hd.
  - destruct Hag as [a b (Hl & Hs)|]; [|done]. simpl. unfold at_ease.
    by rewrite Hl, Hs.
Qed.

(** The two resets of the shaken environment start from environments set
    alike, though the first starts on the bodies where [set_state] put them
    and the second on the rebuilt ones. *)
Lemma posing_starts_alike : set_alike posing_start posing_start_again.
Proof.
  split; [vm_compute; reflexivity|]. split; [vm_compute; reflexivity|].
  eexists _, _. split; [vm_compute; reflexivity|].
  split; [vm_compute; reflexivity|].
  split; [vm_compute; reflexivity|]. split; [vm_compute; reflexivity|].
  split; [vm_compute; reflexivity|]. split; [vm_compute; reflexivity|].
  split; [|split].
  - vm_compute. repeat constructor.
  - vm_compute. repeat constructor.
  - vm_compute. repeat constructor.
Qed.

Lemma posing_starts_differ :
  _scene posing_start ≠ _scene posing_start_again.
Proof. vm_compute. discriminate. Qed.

(** The bending task sets anew what the sample agent reads, the robot's
    joints, and leaves the actors where it finds them. *)
Lemma bending_task_sets_observed_state :
  sets_observed_state sample_agents bending_task.
Proof.
  intros [w1 ag1 td1] [w2 ag2 td2] r (_ & Hb & Hag). simpl in Hb, Hag.
  assert (Hq : ∀ q a b, same_articulation a b → bend q a = bend q b).
  { intros q a b (Hn & Hl & Hd). unfold bend. by rewrite Hn, Hl, Hd. }
  unfold state_observation, initialize_sim, bending_task. simpl.
  match goal with
  | |- context [bend ?q <$> all_articulations w1] =>
      rewrite (fmap_same same_articulation (bend q) _ _ (Hq q) Hb)
  end.
  by destruct Hag.
Qed.

(** It does not set the whole state anew: a cube found elsewhere stays
    elsewhere. *)
Lemma bending_task_keeps_actors : ¬ sets_episode_state bending_task.
Proof.
  intros H.
  set (s1 := mkSim (mkWorld [sample_cube] []) None []).
  set (s2 := mkSim (mkWorld [place 3 sample_cube] []) None []).
  assert (same_cast s1 s2) as Hc.
  { split; [|split]; vm_compute; repeat constructor. }
  specialize (H s1 s2 0 Hc). vm_compute in H. discriminate H.
Qed.

(** The two resets of the bent environment start from environments with
    the same configuration and cast. *)
Lemma bending_starts_cast_alike : cast_alike bending_start bending_start_again.
Proof.
  split; [vm_compute; reflexivity|].
  eexists _, _. split; [vm_compute; reflexivity|].
  split; [vm_compute; reflexivity|].
  split; [|split].
  - vm_compute. repeat constructor.
  - vm_compute. repeat constructor.
  - vm_compute. repeat constructor.
Qed.

(** Witness of [same_seed_same_episode_rng]: two tasks seen through the
    sample agent's joint readings, each reset with seed 42 first without
    and then with a reconfigure. The posing task sets the whole state anew.
    The bending task sets only the joints: its two resets leave the cube at
    different places and observe the same. *)
Lemma same_seed_same_episode_rng_witness :
  (reset sample_RandomState sample_randint sample_engine sample_agents posing_task
     shaken_env (Some 42) false = Ok posing_reset
   ∧ reset sample_RandomState sample_randint sample_engine sample_agents
       posing_task posing_reset.2 (Some 42) true = Ok posing_reset_again
   ∧ posing_reset.1 = posing_reset_again.1)
  ∧ (reset sample_RandomState sample_randint sample_engine sample_agents
       bending_task bent_env (Some 42) false = Ok bending_reset
     ∧ reset sample_RandomState sample_randint sample_engine sample_agents
         bending_task bending_reset.2 (Some 42) true = Ok bending_reset_again
     ∧ _scene bending_reset.2 ≠ _scene bending_reset_again.2
     ∧ bending_reset.1 = bending_reset_again.1).
Proof.
  split.
  - assert (Ha : reset sample_RandomState sample_randint sample_engine sample_agents
                   posing_task shaken_env (Some 42) false
                 = Ok (posing_reset.1, posing_reset.2)) by (vm_compute; reflexivity).
    assert (Hb : reset sample_RandomState sample_randint sample_engine sample_agents
                   posing_task posing_reset.2 (Some 42) true
                 = Ok (posing_reset_again.1, posing_reset_again.2))
      by (vm_compute; reflexivity).
    split; [by destruct posing_reset|]. split; [by destruct posing_reset_again|].
    destruct (same_seed_same_episode_rng _ _ _ _ _ _ _ _ _ _ _ _ _ _ Ha Hb)
      as (a0 & b0 & Hsa & Hsb & _ & _ & _ & _ & _ & _ & _ & _ & Hobs & _).
    apply Hobs; [exact posing_task_sets_episode_state|].
    assert (episode_start sample_RandomState sample_randint posing_task shaken_env
              (Some 42) false = Ok posing_start) as Ea by (vm_compute; reflexivity).
    assert (episode_start sample_RandomState sample_randint posing_task
              posing_reset.2 (Some 42) true = Ok posing_start_again) as Eb
      by (vm_compute; reflexivity).
    rewrite Ea in Hsa. rewrite Eb in Hsb.
    apply Ok_inj in Hsa, Hsb. subst a0 b0. exact posing_starts_alike.
  - assert (Ha : reset sample_RandomState sample_randint sample_engine sample_agents
                   bending_task bent_env (Some 42) false
                 = Ok (bending_reset.1, bending_reset.2)) by (vm_compute; reflexivity).
    assert (Hb : reset sample_RandomState sample_randint sample_engine sample_agents
                   bending_task bending_reset.2 (Some 42) true
                 = Ok (bending_reset_again.1, bending_reset_again.2))
      by (vm_compute; reflexivity).
    split; [by destruct bending_reset|]. split; [by destruct bending_reset_again|].
    split; [vm_compute; discriminate|].
    destruct (same_seed_same_episode_rng _ _ _ _ _ _ _ _ _ _ _ _ _ _ Ha Hb)
      as (a0 & b0 & Hsa & Hsb & _ & _ & _ & _ & _ & _ & _ & _ & _ & Hobs).
    assert (episode_start sample_RandomState sample_randint bending_task bent_env
              (Some 42) false = Ok bending_start) as Ea by (vm_compute; reflexivity).
    assert (episode_start sample_RandomState sample_randint bending_task
              bending_reset.2 (Some 42) true = Ok bending_start_again) as Eb
      by (vm_compute; reflexivity).
    rewrite Ea in Hsa. rewrite Eb in Hsb.
    apply Ok_inj in Hsa, Hsb. subst a0 b0.
    apply Hobs;
      [left; vm_compute; reflexivity
      |exact bending_task_sets_observed_state
      |exact bending_starts_cast_alike].
Defined.

(** C1 as stated fails. The sample task keeps the initialisation hooks of
    [BaseEnv], which do nothing. After [set_state] has moved the robot's
    joint to 5, [reset(seed=42)] observes the joint at 5 (only velocities
    are cleared), and [reset(seed=42, reconfigure=True)] right after it
    observes the joint of the rebuilt robot at 0. *)
Lemma same_seed_different_observation :
  ¬ (∀ (self_a self_b : Env Z) (s : Z) (ra rb : bool) obs_a obs_b self_a' self_b',
       reset sample_RandomState sample_randint sample_engine sample_agents
         sample_task self_a (Some s) ra = Ok (obs_a, self_a') →
       reset sample_RandomState sample_randint sample_engine sample_agents
         sample_task self_b (Some s) rb = Ok (obs_b, self_b') →
       config self_b = config self_a →
       _obs_mode (config self_a) = "state" →
       obs_a = obs_b).
Proof.
  intros H.
  assert (Hne : moved_reset.1 ≠ moved_reset_again.1)
    by (vm_compute; discriminate).
  apply Hne.
  apply (H moved_env moved_reset.2 42 false true _ _ moved_reset.2 moved_reset_again.2);
    vm_compute; reflexivity.
Qed.

Lemma pass_keeps_agent {rng} : keeps_agent (pass (rng:=rng)).
Proof. by intros sim r H. Qed.

(** Witness of [frequency_law]: 500 Hz against 30 Hz gives 16 substeps and a
    warning, the sample environment is constructed all the same, and a
    control step on it runs 16 substeps: the sample engine moves the cube
    one unit at each tick, and the cube ends 16 units from where it was. *)
Lemma frequency_law_witness :
  0 ≤ 500 ∧ 0 < 30
  ∧ set_frequencies 500 30 [] = Ok (16, [NotDivisible 500 30])
  ∧ BaseEnv_init sample_RandomState sample_randint sample_engine
      sample_agents sample_task (sample_args "state" 500 30) = Ok uneven_env
  ∧ warnings uneven_env = [NotDivisible 500 30]
  ∧ (actor_pose <$> all_actors (world uneven_scene))
    = [mkPose (vec3 0%Q 0%Q 0%Q) (quat 1%Q 0%Q 0%Q 0%Q)]
  ∧ ∃ s0 st0 self' scene' st',
      control_step_start sample_agents sample_task uneven_env NoAction = Ok s0
      ∧ sim_state s0 = Some st0
      ∧ step_action sample_engine sample_agents sample_task uneven_env NoAction
        = Ok self'
      ∧ _scene self' = Some scene'
      ∧ sim_state self' = Some st'
      ∧ substeps sample_engine sample_agents sample_task
          (scene_timestep uneven_scene) 16 st0 = Some st'
      ∧ Z.of_nat (sim_ticks scene') = Z.of_nat (sim_ticks uneven_scene) + 16
      ∧ (actor_pose <$> all_actors (world scene'))
        = [mkPose (vec3 16%Q 0%Q 0%Q) (quat 1%Q 0%Q 0%Q 0%Q)].
Proof.
  assert (H1 : 0 ≤ 500) by lia. assert (H2 : 0 < 30) by lia.
  split; [exact H1|]. split; [exact H2|].
  destruct (frequency_law sample_RandomState sample_randint sample_engine
              sample_agents sample_task (sample_args "state" 500 30) H1 H2)
    as (Hf & _ & Hstep).
  split; [exact (Hf [])|].
  split; [vm_compute; reflexivity|]. split; [vm_compute; reflexivity|].
  split; [vm_compute; reflexivity|].
  destruct (Hstep uneven_env uneven_scene NoAction)
    as (s0 & st0 & self' & scene' & st' & A1 & A2 & A3 & A4 & A5 & A6 & A7 & _).
  - vm_compute. reflexivity.
  - vm_compute. reflexivity.
  - eexists. vm_compute. reflexivity.
  - eexists. vm_compute. reflexivity.
  - discriminate.
  - apply pass_keeps_agent.
  - apply pass_keeps_agent.
  - exists s0, st0, self', scene', st'.
    split; [exact A1|]. split; [exact A2|]. split; [exact A3|].
    split; [exact A4|]. split; [exact A5|]. split; [exact A6|].
    split; [exact A7|].
    assert (step_action sample_engine sample_agents sample_task uneven_env NoAction
            = Ok (from_Ok blank_env
                    (step_action sample_engine sample_agents sample_task
                       uneven_env NoAction))) as E by (vm_compute; reflexivity).
    rewrite E in A3. apply Ok_inj in A3. subst self'.
    assert (scene' = default uneven_scene
                       (_scene (from_Ok blank_env
                                  (step_action sample_engine sample_agents
                                     sample_task uneven_env NoAction)))) as ->
      by (rewrite A4; reflexivity).
    vm_compute. reflexivity.
Defined.

(** * Further properties *)

(** ** StateCodec: round trips *)

Lemma set_actor_state_get a : set_actor_state a (get_actor_state a) = Ok a.
Proof. by destruct a as [n i t [[] []] [] []]. Qed.

Lemma set_articulation_state_get a :
  set_articulation_state a (get_articulation_state a) = Ok a.
Proof.
  destruct a as [n ls [[] []] [] [] js].
  unfold set_articulation_state, get_articulation_state, kinematic_state,
    get_qpos, get_qvel, dof. cbn [root_pose root_velocity root_angular_velocity
    joints pose_p pose_q vec3_list quat_list app read_kinematic
    articulation_name links].
  rewrite decide_True by (rewrite length_app, !length_fmap; lia).
  rewrite take_app_length', drop_app_length' by (by rewrite length_fmap).
  by rewrite zip_fst_snd.
Qed.

Lemma put_actor_same w h a : all_actors w !! h = Some a → put_actor w h a = w.
Proof. intros H. destruct w. unfold put_actor. simpl in *. by rewrite list_insert_id. Qed.

Lemma put_articulation_same w h a :
  all_articulations w !! h = Some a → put_articulation w h a = w.
Proof.
  intros H. destruct w. unfold put_articulation. simpl in *.
  by rewrite list_insert_id.
Qed.

Lemma slice_app_middle {A} (pre seg post : list A) :
  slice (pre ++ seg ++ post) (length pre) (length pre + length seg) = seg.
Proof.
  unfold slice. rewrite drop_app_length.
  replace (length pre + length seg - length pre)%nat with (length seg) by lia.
  apply take_app_length.
Qed.

(** Writing back what was read leaves the bodies as they are. *)
Lemma set_actor_states_same pre hs post w :
  Forall (λ h, h < length (all_actors w))%nat hs →
  set_actor_states
    (pre ++ concat (get_actor_state <$> snapshot_actors w hs) ++ post)
    hs (w, length pre)
  = Ok (w, length pre + 13 * length hs)%nat.
Proof.
  intros Hall; revert pre.
  induction Hall as [|h hs Hh _ IH]; intros pre.
  { unfold set_actor_states. simpl. do 2 f_equal. lia. }
  apply lookup_lt_is_Some in Hh as [a Ha].
  rewrite set_actor_states_cons. unfold world_actor. rewrite Ha, Ok_bind.
  unfold snapshot_actors in *. cbn [omap list_omap]. rewrite Ha.
  cbn [omap list_omap]. rewrite fmap_cons, concat_cons, <- app_assoc.
  rewrite <- (length_get_actor_state a) at 1.
  rewrite slice_app_middle, set_actor_state_get, Ok_bind.
  rewrite (put_actor_same _ _ _ Ha).
  specialize (IH (pre ++ get_actor_state a)).
  rewrite length_app, length_get_actor_state, <- app_assoc in IH.
  rewrite IH. change (length (h :: hs)) with (S (length hs)).
  do 2 f_equal. lia.
Qed.

Lemma set_articulation_states_same pre hs post w :
  Forall (λ h, h < length (all_articulations w))%nat hs →
  set_articulation_states
    (pre ++ concat (get_articulation_state <$> snapshot_articulations w hs) ++ post)
    hs (w, length pre)
  = Ok (w, length pre + total_width w hs)%nat.
Proof.
  intros Hall; revert pre.
  induction Hall as [|h hs Hh _ IH]; intros pre.
  { unfold set_articulation_states, total_width. simpl. do 2 f_equal. lia. }
  apply lookup_lt_is_Some in Hh as [a Ha].
  rewrite set_articulation_states_cons. unfold world_articulation.
  rewrite Ha, Ok_bind.
  unfold snapshot_articulations in *. cbn [omap list_omap]. rewrite Ha.
  cbn [omap list_omap]. rewrite fmap_cons, concat_cons, <- app_assoc.
  rewrite <- (length_get_articulation_state a) at 1.
  rewrite slice_app_middle, set_articulation_state_get, Ok_bind.
  rewrite (put_articulation_same _ _ _ Ha).
  specialize (IH (pre ++ get_articulation_state a)).
  rewrite length_app, length_get_articulation_state, <- app_assoc in IH.
  rewrite IH. unfold total_width. rewrite fmap_cons. cbn [sum_list sum_list_with].
  unfold articulation_width at 2. rewrite Ha. cbn [from_option].
  unfold KINEMANTIC_DIM, id. do 2 f_equal. lia.
Qed.

Lemma set_scene_same {rng} (self : Env rng) scene :
  _scene self = Some scene →
  set_scene self (Some (set_world scene (world scene))) = self.
Proof. intros H. destruct self, scene. simpl in *. by subst. Qed.

(** X1. Restoring a state that was just read is a no-op: when [get_state]
    returns a vector, [set_state] accepts that vector and leaves the
    environment, with every body of the scene, exactly as it was. *)
Theorem restore_saved_state {rng} (self : Env rng) scene v :
  _scene self = Some scene →
  handles_alive (world scene) (_actors self) (_articulations self) →
  get_state self = Ok v →
  set_state self v = Ok self.
Proof.
  unfold get_state, set_state. intros Hs Halive Hget.
  assert (_actors self ≠ [] ∨ _articulations self ≠ []) as Hne.
  { destruct (_actors self) eqn:Ea; [|by left].
    destruct (_articulations self) eqn:Eb; [|by right].
    unfold get_sim_state in Hget. rewrite Hs, Ea, Eb in Hget. discriminate. }
  rewrite (get_sim_state_alive self scene Hs Halive Hne) in Hget.
  injection Hget as <-. destruct Halive as [Ha Hb].
  unfold set_sim_state. rewrite Hs. cbn [not_None]. rewrite Ok_bind.
  pose proof (set_actor_states_same [] (_actors self)
    (concat (get_articulation_state
               <$> snapshot_articulations (world scene) (_articulations self)))
    (world scene) Ha) as H1.
  cbn [app length] in H1. rewrite H1, Ok_bind.
  pose proof (set_articulation_states_same
    (concat (get_actor_state <$> snapshot_actors (world scene) (_actors self)))
    (_articulations self) [] (world scene) Hb) as H2.
  rewrite app_nil_r, length_concat_actor_states in H2.
  unfold snapshot_actors in H2 at 2. rewrite length_omap_lookup in H2 by done.
  cbn [Nat.add]. rewrite H2, Ok_bind.
  by rewrite set_scene_same.
Qed.

(** ** EpisodeController: closing, seeding, stepping *)

Section Closing.
Context {rng : Type}.
Context (RandomState : Z → rng) (randint : Z → rng → Z * rng).
Context (engine : Engine) (agents : AgentModel) (task : TaskHooks rng).
Implicit Type self : Env rng.

Lemma _clear_idempotent self : _clear (_clear self) = _clear self.
Proof. unfold _clear, _close_viewer. by destruct self as [? ? ? ? ? ? ? ? ? []]. Qed.

Lemma _clear_set_elapsed_steps self n :
  _clear (set_elapsed_steps (_clear self) n) = _clear (set_elapsed_steps self n).
Proof. unfold _clear, _close_viewer. by destruct self as [? ? ? ? ? ? ? ? ? []]. Qed.

Lemma set_episode_rng_clear self seed :
  set_episode_rng RandomState randint (_clear self) seed
  = (s ← set_episode_rng RandomState randint self seed; Ok (_clear s)).
Proof.
  unfold set_episode_rng, _clear, _close_viewer.
  destruct self as [? [? [r|] ? ?] ? ? ? ? ? ? ? [] ? ? ?], seed as [s|];
    cbn; try done; by destruct (randint _ r).
Qed.

Lemma reconfigure_after_clear self :
  reconfigure task (_clear self) = reconfigure task self.
Proof. unfold reconfigure. by rewrite _clear_idempotent. Qed.

(** X3. Resetting a closed environment. Without a reconfigure it always
    fails, with the attribute error of the scene that is no longer there;
    with a reconfigure it does exactly what it would have done had the
    environment not been closed. *)
Theorem reset_after_close self (seed : option Z) :
  reset RandomState randint engine agents task (close self) seed false
  = Raise AttributeError
  ∧ reset RandomState randint engine agents task (close self) seed true
    = reset RandomState randint engine agents task self seed true.
Proof.
  unfold close, reset. rewrite set_episode_rng_clear.
  destruct (set_episode_rng RandomState randint self seed) as [s1|e] eqn:E.
  - rewrite !Ok_bind. split.
    + done.
    + unfold reconfigure. by rewrite _clear_set_elapsed_steps.
  - split; [|done]. unfold set_episode_rng in E.
    destruct seed; [done|].
    destruct (_main_rng (seeds self)) as [r|]; cbn in E.
    + by destruct (randint _ r).
    + by injection E as <-.
Qed.
End Closing.

Section SeedSequence.
Context {rng : Type}.
Context (RandomState : Z → rng) (randint : Z → rng → Z * rng).
Context (engine : Engine) (agents : AgentModel) (task : TaskHooks rng).
Implicit Type self : Env rng.

(** X4. Episode seeds of resets without a seed are the successive draws of
    the main generator: such a reset takes exactly one draw (the second
    seeding inside it reuses the stored seed), and a reset with an explicit
    seed in between takes none. So after [seed(s)], the n-th unseeded reset
    has the same episode seed whatever seeded resets came in between. *)
Theorem unseeded_resets_follow_main_rng self (k : Z) (b1 b2 b3 : bool)
    o1 s1 o2 s2 o3 s3 :
  reset RandomState randint engine agents task self None b1 = Ok (o1, s1) →
  reset RandomState randint engine agents task s1 (Some k) b2 = Ok (o2, s2) →
  reset RandomState randint engine agents task s2 None b3 = Ok (o3, s3) →
  ∃ r, _main_rng (seeds self) = Some r
    ∧ _episode_seed (seeds s1) = Some (randint (2 ^ 32) r).1
    ∧ _episode_seed (seeds s2) = Some k
    ∧ _main_rng (seeds s2) = _main_rng (seeds s1)
    ∧ _episode_seed (seeds s3)
      = Some (randint (2 ^ 32) (randint (2 ^ 32) r).2).1
    ∧ _main_rng (seeds s3)
      = Some (randint (2 ^ 32) (randint (2 ^ 32) r).2).2.
Proof.
  intros H1 H2 H3.
  destruct (reset_unseeded _ _ _ _ _ _ _ _ _ H1) as (r & Hr & Hm1 & He1 & _).
  destruct (reset_seeded _ _ _ _ _ _ _ _ _ _ H2)
    as (s0 & _ & He0 & _ & _ & _ & (_ & _ & _ & Hfr & Hfe) & Hm0 & _).
  destruct (reset_unseeded _ _ _ _ _ _ _ _ _ H3) as (r2 & Hr2 & Hm3 & He3 & _).
  assert (_main_rng (seeds s2) = _main_rng (seeds s1)) as Hm2 by congruence.
  assert (r2 = (randint (2 ^ 32) r).2) as -> by congruence.
  exists r. repeat split; try done. congruence.
Qed.
End SeedSequence.

Section Setup.
Context {rng : Type}.
Context (engine : Engine) (agents : AgentModel) (task : TaskHooks rng).
Implicit Type self : Env rng.

Lemma keeps_setup_refl self : keeps_setup self self.
Proof. by repeat split. Qed.

Lemma keeps_setup_trans (a b c : Env rng) :
  keeps_setup a b → keeps_setup b c → keeps_setup a c.
Proof.
  intros (F1 & ? & ? & ? & ? & ? & ? & ?) (F2 & ? & ? & ? & ? & ? & ? & ?).
  split; [by eapply frame_trans|]. repeat split; congruence.
Qed.

Lemma run_hook_keeps_setup h self self' :
  run_hook h self = Ok self' → keeps_setup self self'.
Proof.
  unfold run_hook. intros H. inv_bind H as scene Hs. inv_bind H as r Hr.
  destruct (h _ r) as [sim r']. injection H as <-. by repeat split.
Qed.

Lemma substep_keeps_setup self self' :
  (self ← agent_before_simulation_step agents self;
   self ← scene_step engine self;
   run_hook (_after_simulation_step task) self) = Ok self' →
  keeps_setup self self'.
Proof.
  intros H. inv_bind H as s1 H1. inv_bind H as s2 H2.
  apply run_hook_keeps_setup in H.
  unfold agent_before_simulation_step in H1.
  inv_bind H1 as ag Hag. inv_bind H1 as sc Hsc. injection H1 as <-.
  unfold scene_step in H2. inv_bind H2 as sc2 Hsc2. injection H2 as <-.
  eapply keeps_setup_trans; [|exact H]. by repeat split.
Qed.

Lemma step_action_keeps_setup self action self' :
  step_action engine agents task self action = Ok self' →
  keeps_setup self self'.
Proof.
  unfold step_action. intros H. inv_bind H as s1 H1. inv_bind H as s2 H2.
  assert (keeps_setup self s1) as K1.
  { destruct action as [|a|mode a|]; [| | |done].
    - injection H1 as <-. apply keeps_setup_refl.
    - inv_bind H1 as ag Hag. injection H1 as <-. by repeat split.
    - inv_bind H1 as ag Hag. injection H1 as <-. by repeat split. }
  apply run_hook_keeps_setup in H2.
  eapply keeps_setup_trans; [exact K1|].
  eapply keeps_setup_trans; [exact H2|].
  unfold for_range in H.
  eapply (for_each_preserves keeps_setup); [apply keeps_setup_refl
    |apply keeps_setup_trans| |exact H].
  intros s x s' Hb. by apply substep_keeps_setup.
Qed.

Lemma step_parts self action obs reward done_ info self' :
  step engine agents task self action = Ok (obs, reward, done_, info, self') →
  ∃ self1 ev,
    step_action engine agents task self action = Ok self1
    ∧ self' = set_elapsed_steps self1 (_elapsed_steps self1 + 1)
    ∧ get_obs engine agents task self' = Ok obs
    ∧ task_evaluate task self' = Ok ev
    ∧ info = odict_update [("elapsed_steps", PyInt (_elapsed_steps self'))] ev
    ∧ get_reward task self' = Ok reward
    ∧ get_done info = Ok done_.
Proof.
  intros H. unfold step in H.
  inv_bind H as s1 H1. inv_bind H as o Ho. inv_bind H as i Hi.
  inv_bind H as rw Hr. inv_bind H as d Hd. injection H as <- <- <- <- <-.
  unfold get_info in Hi. inv_bind Hi as ev Hev. injection Hi as <-.
  exists s1, ev. done.
Qed.
End Setup.

Lemma odict_get_update_None {V} (d o : odict V) k :
  odict_get o k = None → odict_get (odict_update d o) k = odict_get d k.
Proof.
  unfold odict_update. revert d.
  induction o as [|[k0 v0] o IH]; intros d; simpl; [done|].
  case_decide as Hk; [done|]. intros Ho.
  rewrite IH by done. by apply odict_get_set_ne.
Qed.

Lemma odict_get_update_Some {V} (d o : odict V) k v :
  NoDup (odict_keys o) → odict_get o k = Some v →
  odict_get (odict_update d o) k = Some v.
Proof.
  unfold odict_update, odict_keys. revert d.
  induction o as [|[k0 v0] o IH]; intros d Hnd; simpl; [done|].
  rewrite fmap_cons in Hnd. apply NoDup_cons in Hnd as [Hnot Hnd].
  case_decide as Hk.
  - intros [= ->]. subst k0.
    fold (odict_update (odict_set d k v) o).
    rewrite odict_get_update_None by (by apply odict_get_None).
    apply odict_get_set_eq.
  - intros Ho. by apply IH.
Qed.

Section StepResults.
Context {rng : Type}.
Context (engine : Engine) (agents : AgentModel) (task : TaskHooks rng).
Implicit Type self : Env rng.

(** X5. Bookkeeping of a control step. A step that returns has advanced
    [elapsed_steps] by exactly one and has left the configuration, the
    cameras and the cached snapshot alone. The info record starts with the
    new count under "elapsed_steps" and then takes every entry of the
    task's evaluation (a [dict], so with distinct keys): the count is
    reported unless the evaluation itself has an entry of that name, which
    then replaces it. *)
Theorem step_bookkeeping self action obs reward done_ info self' :
  (∀ sim ev, evaluate task sim = Ok ev → NoDup (odict_keys ev)) →
  step engine agents task self action = Ok (obs, reward, done_, info, self') →
  _elapsed_steps self' = _elapsed_steps self + 1
  ∧ config self' = config self
  ∧ _cameras self' = _cameras self
  ∧ _actors self' = _actors self
  ∧ _articulations self' = _articulations self
  ∧ ∃ ev, task_evaluate task self' = Ok ev
      ∧ (∀ k v, odict_get ev k = Some v → odict_get info k = Some v)
      ∧ (odict_get ev "elapsed_steps" = None →
         odict_get info "elapsed_steps"
         = Some (PyInt (_elapsed_steps self + 1))).
Proof.
  intros Hev H.
  destruct (step_parts _ _ _ _ _ _ _ _ _ _ H)
    as (s1 & ev & Hact & -> & Hobs & Heval & -> & Hrew & Hdone).
  destruct (step_action_keeps_setup _ _ _ _ _ _ Hact)
    as ((Hc & _) & He & Hcam & Ha & Hb & _).
  cbn [_elapsed_steps set_elapsed_steps config _cameras _actors _articulations].
  rewrite He. repeat split; try done.
  exists ev. split; [done|]. split.
  - intros k v Hk. apply odict_get_update_Some; [|done].
    unfold task_evaluate in Heval. inv_bind Heval as sc Hsc. by eapply Hev.
  - intros Hnone. by rewrite odict_get_update_None.
Qed.

(** X6. Sparse reward and termination agree. In the sparse reward mode,
    when the task reports its success as a boolean, a step that returns
    gives reward 1 and [done] together, or reward 0 and not [done].
    ([get_info] and [get_reward] each call [evaluate]; a task's evaluation
    is a function of the simulation state here, so the two calls of one step
    give the same record, whose keys are distinct as those of a [dict]
    are.) *)
Theorem sparse_reward_agrees_with_done self action obs reward done_ info self'
    (b : bool) :
  (∀ sim ev, evaluate task sim = Ok ev → NoDup (odict_keys ev)) →
  _reward_mode (config self) = "sparse" →
  step engine agents task self action = Ok (obs, reward, done_, info, self') →
  odict_get info "success" = Some (PyBool b) →
  done_ = b ∧ reward = (if b then 1%Q else 0%Q).
Proof.
  intros Hev Hmode H Hsucc.
  destruct (step_parts _ _ _ _ _ _ _ _ _ _ H)
    as (s1 & ev & Hact & -> & Hobs & Heval & -> & Hrew & Hdone).
  destruct (step_action_keeps_setup _ _ _ _ _ _ Hact) as ((Hc & _) & _).
  unfold get_done in Hdone. rewrite Hsucc in Hdone. injection Hdone as <-.
  split; [done|].
  unfold get_reward in Hrew. cbn [config set_elapsed_steps] in Hrew.
  rewrite Hc, Hmode in Hrew. rewrite decide_True in Hrew by done.
  rewrite Heval, Ok_bind in Hrew.
  assert (NoDup (odict_keys ev)) as Hnd.
  { unfold task_evaluate in Heval. inv_bind Heval as sc Hsc. by eapply Hev. }
  destruct (odict_get ev "success") as [v|] eqn:E; [|discriminate].
  rewrite (odict_get_update_Some _ _ _ _ Hnd E) in Hsucc.
  injection Hsucc as ->. by injection Hrew as <-.
Qed.
End StepResults.

Section Abstract.
Context {rng : Type}.
Context (RandomState : Z → rng) (randint : Z → rng → Z * rng).
Context (engine : Engine) (agents : AgentModel) (task : TaskHooks rng).
Implicit Type self : Env rng.

(** X7. [BaseEnv] itself cannot be constructed: with the hooks as the class
    defines them the constructor raises for every choice of arguments, and
    when the arguments pass its own checks the error is the
    [NotImplementedError] of [_set_agent_cfg]. *)
Theorem BaseEnv_is_abstract (args : Args) :
  ∃ e, BaseEnv_init RandomState randint engine agents BaseEnv_hooks args = Raise e
    ∧ (renderer_type_arg args ∈ ["vulkan"; "kuafu"] →
       control_freq args ≠ 0 →
       default "state" (obs_mode args) ∈ SUPPORTED_OBS_MODES →
       default "dense" (reward_mode args) ∈ SUPPORTED_REWARD_MODES →
       e = NotImplementedError "").
Proof.
  unfold BaseEnv_init.
  destruct (decide (renderer_type_arg args = "vulkan")) as [Hv|Hv];
    [|destruct (decide (renderer_type_arg args = "kuafu")) as [Hk|Hk]].
  3:{ eexists. split; [reflexivity|]. intros Hr.
      apply elem_of_cons in Hr as [?|Hr]; [done|].
      by apply list_elem_of_singleton in Hr. }
  all: rewrite Ok_bind; unfold set_frequencies;
    destruct (decide (control_freq args = 0)) as [Hz|Hz];
    [eexists; split; [reflexivity|]; by intros _ ?|];
    rewrite Ok_bind;
    destruct (bool_decide (default "state" (obs_mode args) ∈ SUPPORTED_OBS_MODES))
      eqn:Eo; cbn [negb];
    [|eexists; split; [reflexivity|]; intros _ _ Ho _;
      apply bool_decide_eq_false in Eo; done];
    destruct (bool_decide (default "dense" (reward_mode args)
                             ∈ SUPPORTED_REWARD_MODES)) eqn:Er; cbn [negb];
    [|eexists; split; [reflexivity|]; intros _ _ _ Hr';
      apply bool_decide_eq_false in Er; done];
    eexists; split; [reflexivity|done].
Qed.

(** X8. What a task has to bring for [step]. With [evaluate] as [BaseEnv]
    defines it every step raises, whatever the action and the modes; with
    [compute_dense_reward] as [BaseEnv] defines it every step in the dense
    reward mode, which is the default, raises. *)
Theorem step_needs_task_methods self (action : Action) :
  ((∀ sim, evaluate task sim = evaluate (rng:=rng) BaseEnv_hooks sim) →
   raises (step engine agents task self action))
  ∧ ((∀ sim, compute_dense_reward task sim
             = compute_dense_reward (rng:=rng) BaseEnv_hooks sim) →
     _reward_mode (config self) = "dense" →
     raises (step engine agents task self action)).
Proof.
  unfold step. split.
  - intros Hev.
    destruct (step_action engine agents task self action) as [s1|e]; [|by eexists].
    rewrite Ok_bind.
    destruct (get_obs _ _ _ _) as [o|e]; [|by eexists]. rewrite Ok_bind.
    unfold get_info, task_evaluate.
    destruct (_scene _) as [sc|]; [|by eexists]. cbn [not_None].
    rewrite Ok_bind, Hev. by eexists.
  - intros Hdense Hmode.
    destruct (step_action engine agents task self action) as [s1|e] eqn:Hact;
      [|by eexists].
    rewrite Ok_bind.
    destruct (step_action_keeps_setup _ _ _ _ _ _ Hact) as ((Hc & _) & _).
    destruct (get_obs _ _ _ _) as [o|e]; [|by eexists]. rewrite Ok_bind.
    destruct (get_info _ _) as [i|e]; [|by eexists]. rewrite Ok_bind.
    unfold get_reward. cbn [config set_elapsed_steps]. rewrite Hc, Hmode.
    rewrite decide_False by done. rewrite decide_True by done.
    destruct (_scene _) as [sc|]; [|by eexists]. cbn [not_None].
    rewrite Ok_bind, Hdense. by eexists.
Qed.

Lemma set_frequencies_Ok sim_freq control_freq w0 steps w :
  set_frequencies sim_freq control_freq w0 = Ok (steps, w) →
  control_freq ≠ 0 ∧ steps = sim_freq `div` control_freq.
Proof.
  unfold set_frequencies. case_decide; [done|]. by intros [= <- _].
Qed.

Lemma reset_config self seed b obs self' :
  reset RandomState randint engine agents task self seed b = Ok (obs, self') →
  config self' = config self.
Proof.
  destruct seed as [s|]; intros H.
  - apply reset_seeded in H as (s0 & _ & _ & Hc & _ & _ & (Hf & _) & _). congruence.
  - by apply reset_unseeded in H as (r & _ & _ & _ & _ & Hc & _).
Qed.

Lemma reachable_config env env' :
  reachable RandomState randint engine agents task env env' →
  config env' = config env.
Proof.
  induction 1 as [|env1 s entropy _ IH|env1 s b obs env2 _ IH H
                  |env1 action obs reward done_ info env2 _ IH H
                  |env1 state env2 _ IH H|env1 _ IH].
  - done.
  - by rewrite <- IH.
  - rewrite <- IH. by eapply reset_config.
  - rewrite <- IH.
    destruct (step_parts _ _ _ _ _ _ _ _ _ _ H) as (s1 & ev & Hact & -> & _).
    by destruct (step_action_keeps_setup _ _ _ _ _ _ Hact) as ((Hc & _) & _).
  - rewrite <- IH. unfold set_state, set_sim_state in H.
    inv_bind H as sc Hsc. inv_bind H as ws H1. destruct ws as [w st].
    inv_bind H as ws2 H2. destruct ws2 as [w2 st2]. by injection H as <-.
  - rewrite <- IH. unfold close, _clear, _close_viewer.
    by destruct (_viewer env1).
Qed.

Lemma set_episode_rng_config self seed self' :
  set_episode_rng RandomState randint self seed = Ok self' →
  config self' = config self.
Proof.
  unfold set_episode_rng. destruct seed as [s|].
  - by intros [= <-].
  - intros H. inv_bind H as r Hr. destruct (randint _ r). by injection H as <-.
Qed.

Lemma reconfigure_sim_freq self self' :
  reconfigure task self = Ok self' → _sim_freq (config self) ≠ 0.
Proof.
  unfold reconfigure. intros H. inv_bind H as s1 H1.
  unfold _setup_scene in H1. case_decide as Hf; [done|].
  unfold _clear, _close_viewer in Hf. by destruct (_viewer self).
Qed.

(** X9. The configuration is checked once and then fixed. A constructed
    environment has a supported renderer, observation mode and reward mode,
    nonzero frequencies and [sim_freq // control_freq] substeps per control
    step; and no sequence of [seed], [reset], [step], [set_state] and
    [close] changes any of its configuration, the agent and camera
    configurations included. *)
Theorem configuration_is_fixed (args : Args) (env env' : Env rng) :
  BaseEnv_init RandomState randint engine agents task args = Ok env →
  reachable RandomState randint engine agents task env env' →
  config env' = config env
  ∧ _renderer_type (config env) ∈ ["vulkan"; "kuafu"]
  ∧ _obs_mode (config env) ∈ SUPPORTED_OBS_MODES
  ∧ _reward_mode (config env) ∈ SUPPORTED_REWARD_MODES
  ∧ _sim_freq (config env) ≠ 0
  ∧ _control_freq (config env) ≠ 0
  ∧ _sim_steps_per_control (config env)
    = _sim_freq (config env) `div` _control_freq (config env)
  ∧ _set_agent_cfg task = Ok (_agent_cfg (config env))
  ∧ _camera_cfgs (config env)
    = _set_camera_cfgs task (_agent_cfg (config env)) (camera_cfgs args).
Proof.
  intros Hinit Hreach. split; [by eapply reachable_config|]. clear Hreach env'.
  unfold BaseEnv_init in Hinit.
  inv_bind Hinit as w0 Hw0. inv_bind Hinit as fw Hfw. destruct fw as [steps w].
  destruct (bool_decide (default "state" (obs_mode args) ∈ SUPPORTED_OBS_MODES))
    eqn:Eo; [|done].
  destruct (bool_decide (default "dense" (reward_mode args) ∈ SUPPORTED_REWARD_MODES))
    eqn:Er; [|done].
  cbn [negb] in Hinit.
  inv_bind Hinit as agent_cfg Hcfg. unfold seed in Hinit. cbn [default] in Hinit.
  inv_bind Hinit as os Hreset. destruct os as [obs self1].
  inv_bind Hinit as ag Hag. injection Hinit as <-.
  pose proof (reset_config _ _ _ _ _ Hreset) as Hc. cbn [config set_seeds] in Hc.
  apply set_frequencies_Ok in Hfw as [Hcf ->].
  apply bool_decide_eq_true in Eo, Er.
  cbn [config set_spaces]. rewrite Hc.
  cbn [_renderer_type _obs_mode _reward_mode _sim_freq _control_freq
       _sim_steps_per_control _agent_cfg _camera_cfgs].
  repeat split; try done.
  - destruct (decide (renderer_type_arg args = "vulkan")) as [Hv|Hv].
    + apply elem_of_cons. by left.
    + destruct (decide (renderer_type_arg args = "kuafu")) as [Hk|Hk]; [|done].
      apply elem_of_cons. right. apply elem_of_cons. by left.
  - apply reset_stages in Hreset as (s1 & s2 & s3 & H1 & H2 & _).
    apply set_episode_rng_config in H1. apply reconfigure_sim_freq in H2.
    cbn [config set_elapsed_steps] in H2. rewrite H1 in H2. exact H2.
Qed.
End Abstract.

(** ** EpisodeController: what a reset rebuilds and what it keeps *)

Lemma Camera_init_effect cfg scene renderer c scene' :
  Camera_init cfg scene renderer = Ok (c, scene') →
  camera_cfg c = cfg
  ∧ renderer_type c = renderer
  ∧ cam_mount (camera c) = actor c
  ∧ get_mount_actor scene (default PyNone (__dict__ cfg !! "articulation_uuid"))
      (default PyNone (__dict__ cfg !! "actor_uuid")) = Ok (actor c)
  ∧ same_stage scene scene'
  ∧ scene_cameras scene' = scene_cameras scene ++ [camera c].
Proof.
  unfold Camera_init. intros H.
  inv_bind H as art Hart. inv_bind H as act Hact. inv_bind H as m Hm.
  inv_bind H as uuid Hu. inv_bind H as width Hw. inv_bind H as height Hh.
  inv_bind H as fov Hf. inv_bind H as near Hn. inv_bind H as far Hfar.
  inv_bind H as p Hp. inv_bind H as q Hq.
  unfold getattr in Hart, Hact.
  destruct (__dict__ cfg !! "articulation_uuid") as [art'|]; [|done].
  destruct (__dict__ cfg !! "actor_uuid") as [act'|]; [|done].
  injection Hart as ->. injection Hact as ->. cbn [default].
  destruct m as [mount|]; cbn [add_camera add_mounted_camera] in H;
    inv_bind H as names Hnames; inv_bind H as tn Htn;
    injection H as <- <-; by repeat split.
Qed.

Lemma odict_set_fresh {V} (d : odict V) k v :
  k ∉ odict_keys d → odict_set d k v = d ++ [(k, v)].
Proof.
  unfold odict_keys. induction d as [|[k0 v0] d IH]; simpl; [done|].
  intros Hn. apply not_elem_of_cons in Hn as [Hne Hn].
  rewrite decide_False by done. by rewrite IH.
Qed.

Lemma same_stage_refl s : same_stage s s.
Proof. by repeat split. Qed.

Lemma same_stage_trans a b c : same_stage a b → same_stage b c → same_stage a c.
Proof. intros (?&?&?&?) (?&?&?&?). repeat split; congruence. Qed.

Section Rebuild.
Context {rng : Type}.
Context (task : TaskHooks rng).
Implicit Type self : Env rng.

(** The loop of [_setup_cameras]: one runtime camera and one engine camera
    per configuration, in the order of the configurations. *)
Lemma setup_cameras_loop cfgs self self' scene :
  _scene self = Some scene →
  NoDup (odict_keys (_cameras self) ++ odict_keys cfgs) →
  for_each
    (λ self '(uuid, camera_cfg),
       scene ← not_None (_scene self);
       '(c, scene) ← Camera_init camera_cfg scene (_renderer_type (config self));
       Ok (set_scene (set_cameras self (odict_set (_cameras self) uuid c))
             (Some scene)))
    cfgs self = Ok self' →
  ∃ scene' cams,
    _scene self' = Some scene'
    ∧ _cameras self' = _cameras self ++ cams
    ∧ Forall2 (λ kc kcfg, kc.1 = kcfg.1 ∧ camera_cfg kc.2 = kcfg.2
                          ∧ renderer_type kc.2 = _renderer_type (config self)
                          ∧ cam_mount (camera kc.2) = actor kc.2)
        cams cfgs
    ∧ same_stage scene scene'
    ∧ scene_cameras scene' = scene_cameras scene ++ (camera <$> cams.*2)
    ∧ config self' = config self
    ∧ _viewer self' = _viewer self
    ∧ _elapsed_steps self' = _elapsed_steps self
    ∧ agent self' = agent self
    ∧ task_data self' = task_data self.
Proof.
  revert self scene. induction cfgs as [|[uuid cfg] cfgs IH]; intros self scene Hs Hnd H.
  { simpl in H. injection H as <-. exists scene, [].
    rewrite !app_nil_r. split; [done|]. split; [done|]. split; [constructor|].
    by repeat split. }
  simpl in H. inv_bind H as s1 H1. inv_bind H1 as sc Hsc.
  apply not_None_Ok in Hsc. rewrite Hs in Hsc. injection Hsc as <-.
  inv_bind H1 as cs Hc. destruct cs as [c scene1]. injection H1 as <-.
  destruct (Camera_init_effect _ _ _ _ _ Hc) as (Hcfg & Hr & Hm & _ & Hst & Hcams).
  unfold odict_keys in Hnd. rewrite fmap_cons in Hnd. simpl in Hnd.
  assert (uuid ∉ (_cameras self).*1) as Hfresh.
  { intros Hin. apply NoDup_app in Hnd as (_ & Hdisj & _).
    apply (Hdisj uuid Hin). by left. }
  destruct (IH (set_scene (set_cameras self (odict_set (_cameras self) uuid c))
                  (Some scene1)) scene1) as
    (scene' & cams & Hs' & Hc' & Hall & Hst' & Hcams' & Hcfg' & Hv' & He' & Ha' & Ht');
    [done| |done|].
  { cbn [_cameras set_scene set_cameras]. rewrite odict_set_fresh by done.
    unfold odict_keys. rewrite fmap_app. simpl. rewrite <- app_assoc. exact Hnd. }
  cbn [_cameras set_scene set_cameras config _viewer _elapsed_steps agent task_data]
    in *.
  rewrite odict_set_fresh in Hc' by done.
  exists scene', ((uuid, c) :: cams). split; [done|]. split.
  { by rewrite Hc', <- app_assoc. }
  split.
  { constructor; [by repeat split|]. exact Hall. }
  split; [by eapply same_stage_trans|]. split.
  { rewrite Hcams', Hcams. simpl. by rewrite <- app_assoc. }
  by repeat split.
Qed.

Lemma run_hook_stage h self self' scene :
  _scene self = Some scene → run_hook h self = Ok self' →
  ∃ scene', _scene self' = Some scene'
    ∧ scene_cameras scene' = scene_cameras scene
    ∧ scene_lights scene' = scene_lights scene
    ∧ scene_timestep scene' = scene_timestep scene
    ∧ sim_ticks scene' = sim_ticks scene.
Proof.
  intros Hs H. unfold run_hook in H. rewrite Hs in H. cbn [not_None] in H.
  rewrite Ok_bind in H. inv_bind H as r Hr.
  destruct (h _ r) as [sim r']. injection H as <-.
  eexists. split; [reflexivity|]. by repeat split.
Qed.

(** X10. A reconfigure builds the scene from nothing. Whatever the
    environment held before, the new scene has run no physics tick, has the
    time step [1 / sim_freq], holds exactly the ambient light and the two
    directional lights (only the first of them with the configured shadow),
    and exactly one engine camera per camera configuration, in their order;
    the runtime cameras are keyed like the configurations, each made from
    its configuration for the configured renderer. The viewer is closed
    afterwards: it is closed at the start, so the branch that would set it
    up again is never taken. *)
Theorem reconfigure_builds_fresh_scene self self' :
  NoDup (odict_keys (_camera_cfgs (config self))) →
  reconfigure task self = Ok self' →
  _viewer self' = false
  ∧ config self' = config self
  ∧ _elapsed_steps self' = _elapsed_steps self
  ∧ ∃ scene,
      _scene self' = Some scene
      ∧ sim_ticks scene = 0%nat
      ∧ scene_timestep scene = (1 / inject_Z (_sim_freq (config self)))%Q
      ∧ scene_lights scene
        = [AmbientLight; DirectionalLight (enable_shadow (config self));
           DirectionalLight false]
      ∧ scene_cameras scene = camera <$> odict_values (_cameras self')
      ∧ Forall2 (λ kc kcfg, kc.1 = kcfg.1 ∧ camera_cfg kc.2 = kcfg.2
                            ∧ renderer_type kc.2 = _renderer_type (config self)
                            ∧ cam_mount (camera kc.2) = actor kc.2)
          (_cameras self') (_camera_cfgs (config self)).
Proof.
  intros Hnd H. unfold reconfigure in H.
  inv_bind H as s1 H1. inv_bind H as s2 H2. inv_bind H as s3 H3.
  inv_bind H as s4 H4. inv_bind H as s5 H5. inv_bind H as s6 H6.
  inv_bind H as s7 H7. inv_bind H as actors Ha. inv_bind H as arts Hb.
  injection H as <-.
  assert (config (_clear self) = config self ∧ _viewer (_clear self) = false
          ∧ _elapsed_steps (_clear self) = _elapsed_steps self) as (Hc0 & Hv0 & He0).
  { unfold _clear, _close_viewer. destruct (_viewer self) eqn:E; by repeat split. }
  unfold _setup_scene in H1. case_decide as Hf; [done|]. injection H1 as <-.
  assert (config (_close_viewer self) = config self) as Hcv.
  { unfold _close_viewer. by destruct (_viewer self). }
  rewrite ?Hc0, ?Hcv in *.
  set (scene0 := mkScene (mkWorld [] []) [] []
                   (1 / inject_Z (_sim_freq (config self)))%Q 0%nat) in *.
  destruct (run_hook_stage _ (set_scene (_clear self) (Some scene0)) _ scene0
              eq_refl H2) as (sc2 & Hs2 & Hcam2 & Hl2 & Ht2 & Hk2).
  subst scene0. cbn [scene_cameras scene_lights scene_timestep sim_ticks]
    in Hcam2, Hl2, Ht2, Hk2.
  destruct (run_hook_stage _ _ _ sc2 Hs2 H3) as (sc3 & Hs3 & Hcam3 & Hl3 & Ht3 & Hk3).
  destruct (run_hook_stage _ _ _ sc3 Hs3 H4) as (sc4 & Hs4 & Hcam4 & Hl4 & Ht4 & Hk4).
  apply run_hook_keeps_setup in H2 as ((Hc2 & _) & He2 & Hcs2 & _ & _ & Hv2 & _).
  apply run_hook_keeps_setup in H3 as ((Hc3 & _) & He3 & Hcs3 & _ & _ & Hv3 & _).
  apply run_hook_keeps_setup in H4 as ((Hc4 & _) & He4 & Hcs4 & _ & _ & Hv4 & _).
  cbn [config set_scene _elapsed_steps _cameras _viewer] in Hc2, He2, Hcs2, Hv2.
  unfold _setup_cameras in H5.
  destruct (setup_cameras_loop (_camera_cfgs (config (set_cameras s4 [])))
              (set_cameras s4 []) s5 sc4)
    as (sc5 & cams & Hs5 & Hcs5 & Hall & (Hw5 & Hl5 & Ht5 & Hk5) & Hcam5
        & Hc5 & Hv5 & He5 & _); [done| |done|].
  { cbn [_cameras set_cameras config]. simpl.
    by rewrite Hc4, Hc3, Hc2, Hc0. }
  cbn [_cameras set_cameras config _viewer _elapsed_steps app] in Hcs5, Hc5, Hv5, He5, Hall.
  unfold _setup_lighting in H6. rewrite Hs5 in H6. cbn [not_None] in H6.
  rewrite Ok_bind in H6. injection H6 as <-.
  cbn [_viewer set_scene] in H7. rewrite Hv5, Hv4, Hv3, Hv2, Hv0 in H7.
  injection H7 as <-.
  cbn [_viewer config _elapsed_steps _scene _cameras set_snapshot set_scene].
  split; [congruence|]. split; [congruence|]. split; [congruence|].
  eexists. split; [reflexivity|].
  cbn [sim_ticks scene_timestep scene_lights scene_cameras].
  split; [congruence|]. split; [congruence|]. split.
  { rewrite Hl5, Hl4, Hl3, Hl2. simpl. congruence. }
  split.
  { rewrite Hcam5, Hcam4, Hcam3, Hcam2, Hcs5. done. }
  rewrite Hcs5. rewrite Hc4, Hc3, Hc2, Hc0 in Hall. exact Hall.
Qed.
End Rebuild.

Section SoftReset.
Context {rng : Type}.
Context (RandomState : Z → rng) (randint : Z → rng → Z * rng).
Context (engine : Engine) (agents : AgentModel) (task : TaskHooks rng).
Implicit Type self : Env rng.

Lemma run_hook_pass self self' :
  run_hook pass self = Ok self' →
  _scene self' = _scene self ∧ agent self' = agent self
  ∧ task_data self' = task_data self
  ∧ _episode_rng (seeds self') = _episode_rng (seeds self).
Proof.
  unfold run_hook, pass. intros H. inv_bind H as scene Hs. inv_bind H as r Hr.
  apply not_None_Ok in Hs, Hr. injection H as <-. simpl.
  rewrite Hs, Hr. by destruct scene.
Qed.

Lemma clear_actor_facts a :
  actor_name (clear_actor a) = actor_name a
  ∧ actor_id (clear_actor a) = actor_id a
  ∧ actor_type (clear_actor a) = actor_type a
  ∧ actor_pose (clear_actor a) = actor_pose a
  ∧ (actor_type a = static → clear_actor a = a)
  ∧ (actor_type a ≠ static →
     actor_velocity (clear_actor a) = zero3
     ∧ actor_angular_velocity (clear_actor a) = zero3).
Proof. unfold clear_actor. destruct a as [? ? [] ? ? ?]; by repeat split. Qed.

Lemma clear_articulation_facts a :
  articulation_name (clear_articulation a) = articulation_name a
  ∧ links (clear_articulation a) = links a
  ∧ root_pose (clear_articulation a) = root_pose a
  ∧ get_qpos (clear_articulation a) = get_qpos a
  ∧ dof (clear_articulation a) = dof a
  ∧ get_qvel (clear_articulation a) = replicate (dof a) 0%Q
  ∧ root_velocity (clear_articulation a) = zero3
  ∧ root_angular_velocity (clear_articulation a) = zero3.
Proof.
  unfold clear_articulation, get_qpos, get_qvel, dof. simpl.
  repeat split; try done.
  - rewrite <- list_fmap_compose. by apply list_fmap_ext.
  - by rewrite length_fmap.
  - rewrite <- list_fmap_compose. induction (joints a) as [|j js IH]; [done|].
    simpl. by rewrite <- IH.
Qed.

(** X11. A reset without reconfigure moves nothing back. With the episode
    initialisers of [BaseEnv] (which do nothing) it returns the scene with
    every body where it was: poses and joint positions are kept, the
    velocities of articulations and of actors that are not static are
    zeroed, static actors are left as they are; the tick count of the scene,
    the agent, the cameras and the cached snapshot are kept too, and
    [elapsed_steps] is 0. *)
Theorem soft_reset_keeps_poses self (seed : option Z) obs self' scene :
  _initialize_actors task = pass →
  _initialize_articulations task = pass →
  _initialize_agent task = pass →
  _initialize_task task = pass →
  _scene self = Some scene →
  reset RandomState randint engine agents task self seed false = Ok (obs, self') →
  _elapsed_steps self' = 0
  ∧ agent self' = agent self
  ∧ _cameras self' = _cameras self
  ∧ _actors self' = _actors self
  ∧ _articulations self' = _articulations self
  ∧ ∃ scene',
      _scene self' = Some scene'
      ∧ sim_ticks scene' = sim_ticks scene
      ∧ scene_cameras scene' = scene_cameras scene
      ∧ Forall2 (λ a a',
           actor_name a' = actor_name a ∧ actor_pose a' = actor_pose a
           ∧ (actor_type a = static → a' = a)
           ∧ (actor_type a ≠ static →
              actor_velocity a' = zero3 ∧ actor_angular_velocity a' = zero3))
          (all_actors (world scene)) (all_actors (world scene'))
      ∧ Forall2 (λ a a',
           articulation_name a' = articulation_name a
           ∧ root_pose a' = root_pose a
           ∧ get_qpos a' = get_qpos a
           ∧ get_qvel a' = replicate (dof a) 0%Q
           ∧ root_velocity a' = zero3 ∧ root_angular_velocity a' = zero3)
          (all_articulations (world scene)) (all_articulations (world scene')).
Proof.
  intros Hi1 Hi2 Hi3 Hi4 Hs H.
  apply reset_stages in H as (s1 & s2 & s3 & H1 & H2 & H3 & H4 & _).
  assert (_scene s1 = _scene self ∧ agent s1 = agent self
          ∧ _cameras s1 = _cameras self ∧ _actors s1 = _actors self
          ∧ _articulations s1 = _articulations self) as (Hs1 & Ha1 & Hc1 & Hx1 & Hy1).
  { unfold set_episode_rng in H1. destruct seed as [s|].
    - by injection H1 as <-.
    - inv_bind H1 as r Hr. destruct (randint _ r). by injection H1 as <-. }
  unfold _clear_sim_state in H2. cbn [_scene set_elapsed_steps] in H2.
  rewrite Hs1, Hs in H2. cbn [not_None] in H2. rewrite Ok_bind in H2.
  injection H2 as <-.
  unfold set_episode_rng in H3. cbn [seeds set_scene _episode_seed] in H3.
  assert (∃ sd, s3 = set_seeds
            (set_scene (set_elapsed_steps s1 0)
               (Some (set_world scene
                  (mkWorld (clear_actor <$> all_actors (world scene))
                     (clear_articulation <$> all_articulations (world scene))))))
            sd) as [sd ->].
  { destruct (_episode_seed _) as [s|].
    - injection H3 as <-. by eexists.
    - inv_bind H3 as r Hr. destruct (randint _ r). injection H3 as <-. by eexists. }
  unfold initialize_episode in H4. rewrite Hi1, Hi2, Hi3, Hi4 in H4.
  inv_bind H4 as t1 T1. inv_bind H4 as t2 T2. inv_bind H4 as t3 T3.
  pose proof (run_hook_keeps_setup _ _ _ T1) as (_ & E1 & C1 & X1 & Y1 & _).
  pose proof (run_hook_keeps_setup _ _ _ T2) as (_ & E2 & C2 & X2 & Y2 & _).
  pose proof (run_hook_keeps_setup _ _ _ T3) as (_ & E3 & C3 & X3 & Y3 & _).
  pose proof (run_hook_keeps_setup _ _ _ H4) as (_ & E4 & C4 & X4 & Y4 & _).
  apply run_hook_pass in T1 as (S1 & A1 & _).
  apply run_hook_pass in T2 as (S2 & A2 & _).
  apply run_hook_pass in T3 as (S3 & A3 & _).
  apply run_hook_pass in H4 as (S4 & A4 & _).
  cbn [_scene agent _elapsed_steps _cameras _actors _articulations
       set_seeds set_scene set_elapsed_steps] in *.
  split; [congruence|]. split; [congruence|]. split; [congruence|].
  split; [congruence|]. split; [congruence|].
  eexists. split; [rewrite S4, S3, S2, S1; reflexivity|]. cbn [sim_ticks scene_cameras set_world world
    all_actors all_articulations].
  split; [done|]. split; [done|]. split.
  - apply Forall2_fmap_r, Forall_Forall2_diag, Forall_forall. intros a _.
    destruct (clear_actor_facts a) as (?&?&?&?&?&?). unfold compose.
    by split_and!.
  - apply Forall2_fmap_r, Forall_Forall2_diag, Forall_forall. intros a _.
    destruct (clear_articulation_facts a) as (?&?&?&?&?&?&?&?). unfold compose.
    by split_and!.
Qed.
End SoftReset.

(** ** Merging: attributes that are not mentioned, and merging twice *)

Lemma same_attrs_sym a b : same_attrs a b → same_attrs b a.
Proof.
  unfold same_attrs. induction 1 as [|x y l l' [E1 E2] _ IH]; constructor; [|done].
  split; [done|]. intros k. by rewrite E2.
Qed.

Lemma same_attrs_has a b k : same_attrs a b → odict_has b k = odict_has a k.
Proof. intros H. apply odict_has_keys. by apply same_attrs_keys. Qed.

(** Whether an entry is accepted depends on the attribute names only. *)
Lemma apply_global_error_same k v a b :
  same_attrs a b → (apply_global k v a).2 = (apply_global k v b).2.
Proof.
  induction 1 as [|[n c] [n' c'] l l' [E1 E2] _ IH]; simpl in *; [done|].
  rewrite <- E2. destruct (hasattr c k); [|done].
  destruct (apply_global k v l) as [r e], (apply_global k v l') as [r' e'].
  exact IH.
Qed.

Lemma global_phase_error_same d a b :
  same_attrs a b → (global_phase d a).2 = (global_phase d b).2.
Proof.
  revert a b. induction d as [|[k v] d IH]; intros a b Hs; [done|].
  rewrite !global_phase_cons, (same_attrs_has a b k Hs).
  destruct (odict_has a k); [by apply IH|].
  pose proof (apply_global_error_same k v a b Hs) as He.
  pose proof (apply_global_same k v a) as Ha.
  pose proof (apply_global_same k v b) as Hb.
  destruct (apply_global k v a) as [a' [e|]], (apply_global k v b) as [b' [e'|]];
    simpl in *; try done.
  apply IH. eapply same_attrs_trans; [apply same_attrs_sym, Ha|].
  eapply same_attrs_trans; [exact Hs|exact Hb].
Qed.

Lemma find_ext {A} (f g : A → bool) l : (∀ x, f x = g x) → find f l = find g l.
Proof. intros E. induction l as [|x l IH]; simpl; [done|]. by rewrite E, IH. Qed.

Lemma apply_camera_error_same name v a b :
  same_attrs a b → (apply_camera name v a).2 = (apply_camera name v b).2.
Proof.
  intros Hs. unfold apply_camera.
  destruct (odict_get a name) as [cfg|] eqn:Ha.
  - destruct (same_attrs_get _ _ _ _ Hs Ha) as (cfg' & -> & Hattr).
    destruct (block_items v) as [kv|e]; [|done].
    rewrite (find_ext (λ kk, negb (hasattr cfg kk)) (λ kk, negb (hasattr cfg' kk)))
      by (intros kk; by rewrite Hattr).
    by destruct (find _ _).
  - destruct (odict_get b name) as [cfg'|] eqn:Hb; [|done].
    destruct (same_attrs_get _ _ _ _ (same_attrs_sym _ _ Hs) Hb) as (c & Hc & _).
    congruence.
Qed.

Lemma camera_phase_error_same d a b :
  same_attrs a b → (camera_phase d a).2 = (camera_phase d b).2.
Proof.
  revert a b. induction d as [|[k v] d IH]; intros a b Hs; [done|].
  rewrite !camera_phase_cons.
  pose proof (apply_camera_error_same k v a b Hs) as He.
  pose proof (apply_camera_same k v a) as Ha.
  pose proof (apply_camera_same k v b) as Hb.
  destruct (apply_camera k v a) as [a' [e|]], (apply_camera k v b) as [b' [e'|]];
    simpl in *; try done.
  apply IH. eapply same_attrs_trans; [apply same_attrs_sym, Ha|].
  eapply same_attrs_trans; [exact Hs|exact Hb].
Qed.

Lemma update_error_same d a b :
  same_attrs a b →
  (update_camera_cfgs_from_dict a d).2 = (update_camera_cfgs_from_dict b d).2.
Proof.
  intros Hs. unfold update_camera_cfgs_from_dict.
  pose proof (global_phase_error_same d a b Hs) as He.
  pose proof (global_phase_same d a) as Ha.
  pose proof (global_phase_same d b) as Hb.
  destruct (global_phase d a) as [a' [e|]], (global_phase d b) as [b' [e'|]];
    simpl in *; try done.
  apply camera_phase_error_same.
  eapply same_attrs_trans; [apply same_attrs_sym, Ha|].
  eapply same_attrs_trans; [exact Hs|exact Hb].
Qed.

(** What a successful merge leaves in each attribute of each camera. *)
Lemma update_lookup camera_cfgs cfg_dict cfgs' name cfg :
  well_formed_dict cfg_dict →
  update_camera_cfgs_from_dict camera_cfgs cfg_dict = (cfgs', None) →
  odict_get camera_cfgs name = Some cfg →
  ∃ cfg' kv,
    odict_get cfgs' name = Some cfg'
    ∧ match odict_get cfg_dict name with
      | Some v => block_items v = Ok kv
      | None => kv = []
      end
    ∧ NoDup kv.*1
    ∧ ∀ k, __dict__ cfg' !! k
           = match odict_get kv k with
             | Some x => Some x
             | None =>
                 match odict_get cfg_dict k with
                 | Some v => if odict_has camera_cfgs k then __dict__ cfg !! k
                             else Some v
                 | None => __dict__ cfg !! k
                 end
             end.
Proof.
  intros [Hnd Hblocks] Hrun Hget. unfold update_camera_cfgs_from_dict in Hrun.
  destruct (global_phase cfg_dict camera_cfgs) as [cfgs1 [e|]] eqn:H1; [done|].
  destruct (global_phase_get _ _ _ _ _ Hnd H1 Hget) as (cfg1 & Hg1 & Hattr1).
  destruct (camera_phase_get _ _ _ _ _ Hnd Hrun Hg1) as (cfg2 & Hg2 & Hm).
  destruct (odict_get cfg_dict name) as [v|] eqn:Hv.
  - destruct Hm as (kv & Hkv & ->).
    assert (NoDup kv.*1) as Hkvnd.
    { destruct v as [| | | |s|xs|block]; try discriminate Hkv.
      - destruct s; [|discriminate]. injection Hkv as <-. constructor.
      - destruct xs; [|discriminate]. injection Hkv as <-. constructor.
      - injection Hkv as <-. apply (Hblocks name). by apply odict_get_elem. }
    exists (dict_update cfg1 kv), kv. split; [done|]. split; [done|].
    split; [done|]. intros k. rewrite dict_update_lookup by done.
    by rewrite Hattr1.
  - subst cfg2. exists cfg1, []. split; [done|]. split; [done|].
    split; [constructor|]. intros k. simpl. apply Hattr1.
Qed.

(** X12. What a merge does not touch. After a successful merge the cameras
    are the same, in the same order, and an attribute of a camera keeps its
    value unless the dictionary gives it one: globally, under a key that is
    not the name of a camera, or in the camera's own block. *)
Theorem unmentioned_attributes_are_kept camera_cfgs cfg_dict cfgs' :
  well_formed_dict cfg_dict →
  update_camera_cfgs_from_dict camera_cfgs cfg_dict = (cfgs', None) →
  odict_keys cfgs' = odict_keys camera_cfgs
  ∧ ∀ name cfg, odict_get camera_cfgs name = Some cfg →
      ∃ cfg', odict_get cfgs' name = Some cfg'
        ∧ ∀ k,
            (odict_get cfg_dict k = None ∨ odict_has camera_cfgs k = true) →
            (∀ block, odict_get cfg_dict name = Some (PyDict block) →
                      odict_get block k = None) →
            __dict__ cfg' !! k = __dict__ cfg !! k.
Proof.
  intros Hwf Hrun. split.
  { pose proof (update_same camera_cfgs cfg_dict) as Hs. rewrite Hrun in Hs.
    by apply same_attrs_keys. }
  intros name cfg Hget.
  destruct (update_lookup _ _ _ _ _ Hwf Hrun Hget) as (cfg' & kv & Hg & Hkv & _ & Hl).
  exists cfg'. split; [done|]. intros k Hglobal Hblock. rewrite Hl.
  assert (odict_get kv k = None) as ->.
  { destruct (odict_get cfg_dict name) as [v|]; [|by subst kv].
    destruct v as [| | | |s|xs|block]; try discriminate Hkv.
    - destruct s; [|discriminate]. by injection Hkv as <-.
    - destruct xs; [|discriminate]. by injection Hkv as <-.
    - injection Hkv as <-. by apply Hblock. }
  destruct Hglobal as [-> | ->]; [done|]. by destruct (odict_get cfg_dict k).
Qed.

Lemma odict_ext {V} (a b : odict V) :
  odict_keys a = odict_keys b → NoDup (odict_keys a) →
  (∀ k, odict_get a k = odict_get b k) → a = b.
Proof.
  unfold odict_keys. revert b.
  induction a as [|[k v] a IH]; intros [|[k' v'] b] Hk Hnd Hg; try done.
  rewrite !fmap_cons in Hk. simpl in Hk. injection Hk as <- Hk.
  rewrite fmap_cons in Hnd. apply NoDup_cons in Hnd as [Hnot Hnd].
  pose proof (Hg k) as Hgk. simpl in Hgk. rewrite !decide_True in Hgk by done.
  injection Hgk as <-. f_equal. apply IH; try done.
  intros k0. destruct (decide (k = k0)) as [<-|Hne].
  - rewrite !odict_get_None; [done| |done]. unfold odict_keys. by rewrite <- Hk.
  - specialize (Hg k0). simpl in Hg. by rewrite !decide_False in Hg.
Qed.

Lemma odict_get_is_Some {V} (d : odict V) k :
  k ∈ odict_keys d → is_Some (odict_get d k).
Proof.
  unfold odict_keys. induction d as [|[k0 v0] d IH]; simpl; intros Hin.
  - by apply elem_of_nil in Hin.
  - case_decide; [by eexists|]. apply IH.
    apply elem_of_cons in Hin as [?|?]; [congruence|done].
Qed.

Lemma CameraConfig_ext c c' :
  (∀ k, __dict__ c !! k = __dict__ c' !! k) → c = c'.
Proof. destruct c, c'. simpl. intros H. f_equal. by apply map_eq. Qed.

(** X13. Merging the same dictionary twice is merging it once: a merge that
    succeeded succeeds again on its own result and changes nothing. *)
Theorem merging_twice_is_merging_once camera_cfgs cfg_dict cfgs' :
  well_formed_dict cfg_dict →
  NoDup (odict_keys camera_cfgs) →
  update_camera_cfgs_from_dict camera_cfgs cfg_dict = (cfgs', None) →
  update_camera_cfgs_from_dict cfgs' cfg_dict = (cfgs', None).
Proof.
  intros Hwf Hnd Hrun.
  pose proof (update_same camera_cfgs cfg_dict) as Hs. rewrite Hrun in Hs.
  simpl in Hs.
  pose proof (update_error_same cfg_dict _ _ Hs) as He. rewrite Hrun in He.
  destruct (update_camera_cfgs_from_dict cfgs' cfg_dict) as [cfgs'' e] eqn:Hrun'.
  simpl in He. subst e. f_equal.
  pose proof (update_same cfgs' cfg_dict) as Hs'. rewrite Hrun' in Hs'.
  simpl in Hs'.
  pose proof (same_attrs_keys _ _ Hs) as Hk.
  pose proof (same_attrs_keys _ _ Hs') as Hk'.
  apply odict_ext; [congruence|congruence|].
  intros name. destruct (odict_get camera_cfgs name) as [cfg|] eqn:Hget.
  - destruct (update_lookup _ _ _ _ _ Hwf Hrun Hget)
      as (cfg' & kv & Hg & Hkv & _ & Hl).
    destruct (update_lookup _ _ _ _ _ Hwf Hrun' Hg)
      as (cfg'' & kv' & Hg' & Hkv' & _ & Hl').
    rewrite Hg, Hg'. f_equal. apply CameraConfig_ext. intros k.
    assert (kv' = kv) as ->.
    { destruct (odict_get cfg_dict name); congruence. }
    rewrite Hl', Hl. rewrite (same_attrs_has _ _ k Hs).
    destruct (odict_get kv k) as [x|]; [done|].
    destruct (odict_get cfg_dict k) as [v|]; [|done].
    by destruct (odict_has camera_cfgs k).
  - assert (name ∉ odict_keys camera_cfgs) as Hnot.
    { intros Hin. apply odict_get_is_Some in Hin as [? ?]. congruence. }
    rewrite !odict_get_None; [done|congruence|congruence].
Qed.

(** ** Parsing camera configurations *)

Lemma uuid_key_Ok cfg u : uuid_key cfg = Ok u ↔ __dict__ cfg !! "uuid" = Some (PyStr u).
Proof.
  unfold uuid_key, getattr. destruct (__dict__ cfg !! "uuid") as [[]|]; simpl;
    split; intros H; try discriminate H; by injection H as ->.
Qed.

Lemma has_uuid_true u cfg : has_uuid u cfg = true ↔ uuid_key cfg = Ok u.
Proof.
  rewrite uuid_key_Ok. unfold has_uuid.
  destruct (__dict__ cfg !! "uuid") as [[]|]; try (split; intros; discriminate).
  rewrite bool_decide_eq_true. split; [by intros ->|by intros [= ->]].
Qed.

Lemma collect_pairs cfgs acc :
  Forall string_uuid cfgs →
  ∃ pairs,
    for_each (λ acc cfg, u ← uuid_key cfg; Ok (acc ++ [(u, cfg)])) cfgs acc
    = Ok (acc ++ pairs)
    ∧ pairs.*2 = cfgs
    ∧ Forall (λ p, uuid_key p.2 = Ok p.1) pairs.
Proof.
  intros Hall. revert acc. induction Hall as [|cfg cfgs [s Hs] _ IH]; intros acc.
  { exists []. by rewrite app_nil_r. }
  cbn [for_each]. apply uuid_key_Ok in Hs. rewrite Hs, !Ok_bind.
  destruct (IH (acc ++ [(s, cfg)])) as (pairs & -> & Hv & Hk).
  exists ((s, cfg) :: pairs). rewrite <- app_assoc. split; [done|].
  split; [by rewrite fmap_cons, Hv|]. by constructor.
Qed.

Lemma odict_keys_set_NoDup {V} (d : odict V) k v :
  NoDup (odict_keys d) → NoDup (odict_keys (odict_set d k v)).
Proof.
  intros Hnd. destruct (odict_get d k) as [x|] eqn:E.
  - by rewrite odict_keys_set.
  - assert (k ∉ odict_keys d) as Hnot.
    { intros Hin. apply odict_get_is_Some in Hin as [? ?]. congruence. }
    rewrite odict_set_fresh by done. unfold odict_keys in *.
    rewrite fmap_app. apply NoDup_app. split; [done|]. split.
    + intros k' Hin Hin'. apply list_elem_of_singleton in Hin'. by subst.
    + apply NoDup_singleton.
Qed.

Lemma odict_update_NoDup {V} (d o : odict V) :
  NoDup (odict_keys d) → NoDup (odict_keys (odict_update d o)).
Proof.
  unfold odict_update. revert d. induction o as [|[k v] o IH]; intros d Hnd; [done|].
  simpl. apply IH. by apply odict_keys_set_NoDup.
Qed.

Lemma odict_update_app {V} (d o1 o2 : odict V) :
  odict_update d (o1 ++ o2) = odict_update (odict_update d o1) o2.
Proof. unfold odict_update. by rewrite foldl_app. Qed.

(** Building a dictionary from pairs: the last pair of a key wins. *)
Lemma OrderedDict_get {V} (pairs : list (string * V)) k :
  odict_get (OrderedDict pairs) k
  = snd <$> last (List.filter (λ p, bool_decide (p.1 = k)) pairs).
Proof.
  unfold OrderedDict. induction pairs as [|[k0 v0] pairs IH] using rev_ind; [done|].
  rewrite odict_update_app, List.filter_app. simpl.
  unfold odict_update at 1. simpl. case_bool_decide as Hk.
  - subst k0. rewrite last_snoc. simpl. apply odict_get_set_eq.
  - rewrite app_nil_r, odict_get_set_ne by done. exact IH.
Qed.

Lemma filter_pairs_uuid (pairs : list (string * CameraConfig)) u :
  Forall (λ p, uuid_key p.2 = Ok p.1) pairs →
  (List.filter (λ p, bool_decide (p.1 = u)) pairs).*2
  = List.filter (has_uuid u) pairs.*2.
Proof.
  induction 1 as [|[k cfg] pairs Hk _ IH]; [done|].
  rewrite fmap_cons. cbn [List.filter fst snd]. cbn [fst snd] in Hk.
  assert (bool_decide (k = u) = has_uuid u cfg) as ->.
  { destruct (has_uuid u cfg) eqn:E.
    - apply has_uuid_true in E. apply bool_decide_eq_true. congruence.
    - apply bool_decide_eq_false. intros ->.
      apply has_uuid_true in Hk. congruence. }
  destruct (has_uuid u cfg); [rewrite fmap_cons|]; by rewrite IH.
Qed.

Lemma last_fmap {A B} (f : A → B) l : last (f <$> l) = f <$> last l.
Proof.
  induction l as [|x l IH]; [done|]. destruct l as [|y l]; [done|].
  rewrite !fmap_cons, !last_cons_cons. exact IH.
Qed.

(** X14. A sequence of configurations becomes a dictionary keyed by uuid.
    When every configuration has a string uuid, parsing succeeds, each uuid
    is a key once, and a uuid borne by several configurations keeps the last
    of them: the earlier ones are dropped without an error. *)
Theorem parse_sequence_last_wins (cfgs : list CameraConfig) :
  Forall string_uuid cfgs →
  ∃ d, parse_camera_cfgs (CfgSeq cfgs) = Ok d
    ∧ NoDup (odict_keys d)
    ∧ ∀ u, odict_get d u = last (List.filter (has_uuid u) cfgs).
Proof.
  intros Hall. unfold parse_camera_cfgs.
  destruct (collect_pairs cfgs [] Hall) as (pairs & -> & Hv & Hk).
  rewrite Ok_bind. eexists. split; [reflexivity|]. split.
  - apply odict_update_NoDup. constructor.
  - intros u. cbn [app]. rewrite OrderedDict_get, <- Hv, <- filter_pairs_uuid by done.
    by rewrite last_fmap.
Qed.

Lemma OrderedDict_NoDup {V} (d : odict V) :
  NoDup (odict_keys d) → OrderedDict d = d.
Proof.
  intros Hnd. unfold OrderedDict.
  enough (∀ acc, NoDup (odict_keys (acc ++ d)) → odict_update acc d = acc ++ d) as H
    by (apply (H []); done).
  clear Hnd. induction d as [|[k v] d IH]; intros acc Hnd.
  { by rewrite app_nil_r. }
  unfold odict_update. simpl. fold (odict_update (odict_set acc k v) d).
  assert (k ∉ odict_keys acc) as Hfresh.
  { unfold odict_keys in *. rewrite fmap_app, fmap_cons in Hnd.
    apply NoDup_app in Hnd as (_ & Hdisj & _). intros Hin.
    apply (Hdisj k Hin). left. }
  rewrite odict_set_fresh by done.
  rewrite IH; rewrite <- app_assoc; done.
Qed.

(** X15. The sequence form and the dictionary form agree on dictionaries
    keyed by uuid: parsing the values of such a dictionary gives the
    dictionary back, as parsing the dictionary itself does. (The dictionary
    form keeps whatever keys it is given; it never looks at the uuids.) *)
Theorem parse_forms_agree (d : odict CameraConfig) :
  NoDup (odict_keys d) →
  Forall (λ p, __dict__ p.2 !! "uuid" = Some (PyStr p.1)) d →
  parse_camera_cfgs (CfgSeq (odict_values d)) = Ok d
  ∧ parse_camera_cfgs (CfgDict d) = Ok d.
Proof.
  intros Hnd Hall. unfold parse_camera_cfgs.
  rewrite (OrderedDict_NoDup d Hnd). split; [|done].
  assert (∀ acc,
    for_each (λ acc cfg, u ← uuid_key cfg; Ok (acc ++ [(u, cfg)]))
      (odict_values d) acc = Ok (acc ++ d)) as H.
  { clear Hnd. induction Hall as [|[k cfg] d Hk _ IH]; intros acc.
    - by rewrite app_nil_r.
    - cbn [snd fst] in Hk. apply uuid_key_Ok in Hk.
      unfold odict_values in *. rewrite fmap_cons. cbn [for_each snd].
      rewrite Hk, !Ok_bind, IH, <- app_assoc. done. }
  rewrite H, Ok_bind. cbn [app]. by rewrite OrderedDict_NoDup.
Qed.

(** ** Runtime cameras *)

Lemma get_entity_by_name_Some {E} (entities : list (string * E)) name e :
  get_entity_by_name entities name = Some e →
  ∃ s, name = PyStr s ∧ (s, e) ∈ entities.
Proof.
  unfold get_entity_by_name. destruct name as [| | | |s| |]; try done.
  destruct (find _ entities) as [[n x]|] eqn:Hf; [|done]. intros [= <-].
  apply find_some in Hf as [Hin Hn]. apply bool_decide_eq_true in Hn.
  simpl in Hn. subst n. exists s. split; [done|]. by apply list_elem_of_In.
Qed.

Lemma get_mount_actor_cases scene art act :
  get_mount_actor scene art act
  = if is_None act then Ok None
    else if is_None art then
      Ok (FreeActor <$> get_entity_by_name (named_actors scene) act)
    else
      '(h, a) ← not_None (get_entity_by_name (named_articulations scene) art);
      match get_entity_by_name (named_links a) act with
      | None => Raise (RuntimeError "Mount actor is not found")
      | Some l => Ok (Some (LinkOf h l))
      end.
Proof. by destruct act, art. Qed.

Lemma is_None_true v : is_None v = true ↔ v = PyNone.
Proof. by destruct v. Qed.

(** X16. What a camera is mounted on. A runtime camera adds exactly one
    engine camera to the scene and changes nothing else in it. Without an
    [actor_uuid] the camera is fixed in the world, whatever
    [articulation_uuid] says (it is not even looked up). A camera mounted on
    a free actor has no [articulation_uuid] and its actor bears the
    [actor_uuid]; a camera mounted on a link has an articulation bearing the
    [articulation_uuid], one of whose links bears the [actor_uuid]. *)
Theorem mount_follows_configuration (cfg : CameraConfig) (scene scene' : Scene)
    (renderer : string) (c : Camera) :
  Camera_init cfg scene renderer = Ok (c, scene') →
  same_stage scene scene'
  ∧ scene_cameras scene' = scene_cameras scene ++ [camera c]
  ∧ cam_mount (camera c) = actor c
  ∧ (__dict__ cfg !! "actor_uuid" = Some PyNone → actor c = None)
  ∧ (∀ h, actor c = Some (FreeActor h) →
       __dict__ cfg !! "articulation_uuid" = Some PyNone
       ∧ ∃ a, all_actors (world scene) !! h = Some a
           ∧ __dict__ cfg !! "actor_uuid" = Some (PyStr (actor_name a)))
  ∧ (∀ h l, actor c = Some (LinkOf h l) →
       ∃ a lk, all_articulations (world scene) !! h = Some a
         ∧ links a !! l = Some lk
         ∧ __dict__ cfg !! "articulation_uuid" = Some (PyStr (articulation_name a))
         ∧ __dict__ cfg !! "actor_uuid" = Some (PyStr (link_name lk))).
Proof.
  intros H.
  destruct (Camera_init_effect _ _ _ _ _ H) as (_ & _ & Hm & Hmount & Hst & Hcams).
  split; [done|]. split; [done|]. split; [done|].
  unfold Camera_init, getattr in H.
  destruct (__dict__ cfg !! "articulation_uuid") as [art|]; [|done].
  destruct (__dict__ cfg !! "actor_uuid") as [act|]; [|done].
  clear H. cbn [default from_option id] in Hmount.
  rewrite get_mount_actor_cases in Hmount. split; [|split].
  - intros [= ->]. by injection Hmount as <-.
  - intros h Hc. rewrite Hc in Hmount.
    destruct (is_None act); [done|].
    destruct (is_None art) eqn:Hart.
    + apply is_None_true in Hart as ->. split; [done|].
      destruct (get_entity_by_name _ _) as [h'|] eqn:E; [|done].
      injection Hmount as ->.
      apply get_entity_by_name_Some in E as (s0 & -> & Hin).
      apply elem_of_lookup_imap in Hin as (i & a & [= -> ->] & Ha).
      by exists a.
    + inv_bind Hmount as ha Hha. destruct ha as [h0 a0].
      by destruct (get_entity_by_name (named_links a0) act).
  - intros h l Hc. rewrite Hc in Hmount.
    destruct (is_None act); [done|].
    destruct (is_None art) eqn:Hart.
    + by destruct (get_entity_by_name (named_actors scene) act).
    + inv_bind Hmount as ha Hha. destruct ha as [h0 a0].
      apply not_None_Ok in Hha.
      destruct (get_entity_by_name (named_links a0) act) as [l0|] eqn:El; [|done].
      injection Hmount as -> ->.
      apply get_entity_by_name_Some in Hha as (s1 & -> & Hin).
      apply elem_of_lookup_imap in Hin as (i & a & [= -> -> ->] & Ha).
      apply get_entity_by_name_Some in El as (s2 & -> & Hin).
      apply elem_of_lookup_imap in Hin as (j & lk & [= -> ->] & Hl).
      by exists a, lk.
Qed.

Lemma iter_texture_names_strings names :
  iter_texture_names (PySeq (PyStr <$> names)) = Ok names.
Proof.
  unfold iter_texture_names.
  enough (∀ acc, for_each
            (λ acc x, match x with PyStr s => Ok (acc ++ [s]) | _ => Raise TypeError end)
            (PyStr <$> names) acc = Ok (acc ++ names)) as H by apply (H []).
  induction names as [|n names IH]; intros acc; simpl.
  - by rewrite app_nil_r.
  - rewrite IH, <- app_assoc. done.
Qed.

Section CameraFacts.
Context {pictures : Type} (renderer : Renderer pictures).

Lemma known_texture_cases name :
  known_texture name ↔ name = "Color" ∨ name = "Position" ∨ name = "Segmentation".
Proof.
  unfold known_texture. rewrite !elem_of_cons, elem_of_nil. tauto.
Qed.

Lemma get_image_known c (pics : pictures) images name :
  known_texture name →
  ∃ image, get_image renderer c pics images name = Ok (odict_set images name image)
    ∧ tensor_dtype image
      = (if decide (name = "Segmentation") then "uint32" else "float32")
    ∧ (renders_at_resolution renderer (camera c) →
       tensor_shape image
       = [cam_height (camera c); cam_width (camera c); PyInt 4]).
Proof.
  intros H. apply known_texture_cases in H as [-> | [-> | ->]];
    eexists; (split; [reflexivity|]); (split; [reflexivity|]);
    intros Hr; apply Hr.
Qed.

Lemma get_image_unknown c (pics : pictures) images name :
  ¬ known_texture name →
  get_image renderer c pics images name = Raise (KeyError name).
Proof.
  rewrite known_texture_cases. intros H. unfold get_image.
  assert (odict_get TEXTURE_DTYPE name = None) as ->; [|done].
  simpl. repeat (case_decide; [subst; tauto|]). done.
Qed.

Lemma texture_space_known c spaces name :
  known_texture name →
  ∃ box, texture_space c spaces name = Ok (odict_set spaces name box)
    ∧ dtype box = (if decide (name = "Segmentation") then "uint32" else "float32")
    ∧ box_shape box = [cam_height (camera c); cam_width (camera c); PyInt 4].
Proof.
  intros H. apply known_texture_cases in H as [-> | [-> | ->]];
    eexists; split; reflexivity || (split; reflexivity).
Qed.

Lemma texture_space_unknown c spaces name :
  ¬ known_texture name →
  texture_space c spaces name = Raise (NotImplementedError name).
Proof.
  rewrite known_texture_cases. intros H. unfold texture_space.
  repeat (case_decide; [subst; tauto|]). done.
Qed.

(** Two loops that set one key per name, and stop at the first name that is
    not known, go the same way. *)
Lemma keyed_loops {A B} (f : odict A → string → result (odict A))
    (g : odict B → string → result (odict B)) (R : string → A → B → Prop)
    (ef eg : string → Exception) names acc acc' :
  (∀ d name, known_texture name →
     ∃ a, f d name = Ok (odict_set d name a) ∧
     ∀ d', ∃ b, g d' name = Ok (odict_set d' name b) ∧ R name a b) →
  (∀ d name, ¬ known_texture name → f d name = Raise (ef name)) →
  (∀ d name, ¬ known_texture name → g d name = Raise (eg name)) →
  odict_keys acc = odict_keys acc' →
  (∀ k a b, odict_get acc k = Some a → odict_get acc' k = Some b → R k a b) →
  (Forall known_texture names ∧
   ∃ d d', for_each f names acc = Ok d ∧ for_each g names acc' = Ok d'
     ∧ odict_keys d = odict_keys d'
     ∧ ∀ k a b, odict_get d k = Some a → odict_get d' k = Some b → R k a b)
  ∨ (∃ name, name ∈ names ∧ ¬ known_texture name
       ∧ for_each f names acc = Raise (ef name)
       ∧ for_each g names acc' = Raise (eg name)).
Proof.
  intros Hf Hfu Hgu. revert acc acc'.
  induction names as [|n names IH]; intros acc acc' Hk HR.
  { left. split; [constructor|]. by exists acc, acc'. }
  destruct (decide (known_texture n)) as [Hn|Hn].
  - destruct (Hf acc n Hn) as (a & Ha & Hg).
    destruct (Hg acc') as (b & Hb & Hab).
    cbn [for_each]. rewrite Ha, Hb, !Ok_bind.
    destruct (IH (odict_set acc n a) (odict_set acc' n b)) as
      [(Hall & d & d' & H1 & H2 & H3 & H4)|(name & Hin & Hno & H1 & H2)].
    + unfold odict_keys in *. clear -Hk.
      revert acc' Hk. induction acc as [|[k0 v0] acc IH]; intros [|[k1 v1] acc'] Hk;
        try done. simpl in *. injection Hk as -> Hk.
      case_decide; simpl; [by rewrite Hk|]. f_equal. by apply IH.
    + intros k x y. destruct (decide (n = k)) as [<-|Hne].
      * rewrite !odict_get_set_eq. by intros [= <-] [= <-].
      * rewrite !odict_get_set_ne by done. apply HR.
    + left. split; [by constructor|]. by exists d, d'.
    + right. exists name. split; [by right|]. done.
  - right. exists n. split; [left|]. split; [done|]. cbn [for_each].
    by rewrite Hfu, Hgu.
Qed.
End CameraFacts.

Section ReadingCameras.
Context {pictures : Type} (renderer : Renderer pictures).

(** X17. The images of a camera match its observation space. For a camera
    whose renderer is not "client", whose texture names are strings, and
    whose textures the engine renders at the camera's resolution with four
    channels: if every name is Color, Position or Segmentation,
    [get_images] and [observation_space] both succeed, with the same keys in
    the same order, and each image has the element type and the shape
    (height, width, 4) of its space; otherwise both raise at the first name
    that is not one of the three, [get_images] with a [KeyError] and
    [observation_space] with a [NotImplementedError]. *)
Theorem images_match_observation_space (c : Camera) (pics : pictures)
    (take : bool) (names : list string) :
  texture_names c = PySeq (PyStr <$> names) →
  renderer_type c ≠ "client" →
  renders_at_resolution renderer (camera c) →
  (Forall known_texture names
   ∧ ∃ images pics' spaces,
       Camera_get_images renderer c pics take = Ok (images, pics')
       ∧ Camera_observation_space c = Ok spaces
       ∧ odict_keys images = odict_keys spaces
       ∧ ∀ name image box,
           odict_get images name = Some image →
           odict_get spaces name = Some box →
           dtype box = tensor_dtype image
           ∧ box_shape box = tensor_shape image
           ∧ box_shape box
             = [cam_height (camera c); cam_width (camera c); PyInt 4])
  ∨ (∃ name, name ∈ names ∧ ¬ known_texture name
       ∧ Camera_get_images renderer c pics take = Raise (KeyError name)
       ∧ Camera_observation_space c = Raise (NotImplementedError name)).
Proof.
  intros Hnames Hclient Hres.
  unfold Camera_get_images, Camera_observation_space.
  rewrite decide_False by done. rewrite Hnames, iter_texture_names_strings, !Ok_bind.
  set (pics1 := if take then Camera_take_picture renderer c pics else pics).
  destruct (keyed_loops (get_image renderer c pics1) (texture_space c)
              (λ name image box,
                 dtype box = tensor_dtype image
                 ∧ box_shape box = tensor_shape image
                 ∧ box_shape box
                   = [cam_height (camera c); cam_width (camera c); PyInt 4])
              KeyError NotImplementedError names [] [])
    as [(Hall & d & d' & H1 & H2 & H3 & H4)|(name & Hin & Hno & H1 & H2)];
    try done.
  - intros d name Hk.
    destruct (get_image_known renderer c pics1 d name Hk)
      as (image & -> & Hd & Hsh).
    exists image. split; [done|]. intros d'.
    destruct (texture_space_known c d' name Hk) as (box & -> & Hb & Hs).
    exists box. split; [done|]. split; [congruence|].
    split; [|done]. rewrite Hs. symmetry. by apply Hsh.
  - intros d name Hk. by apply get_image_unknown.
  - intros d name Hk. by apply texture_space_unknown.
  - left. split; [done|]. exists d, pics1, d'. rewrite H1, H2, Ok_bind.
    by split_and!.
  - right. exists name. rewrite H1, H2. by split_and!.
Qed.

Lemma only_color_names xs names :
  only_color (PySeq xs) = Ok names →
  ∃ n, names = PySeq (PyStr <$> replicate n "Color")
    ∧ (n = 0%nat ↔ lists_color xs = false).
Proof.
  unfold only_color. intros [= <-].
  induction xs as [|x xs (n & Hn & Hiff)].
  { by exists 0%nat. }
  cbn [List.filter lists_color existsb].
  destruct x as [| | | |s| |]; try (exists n; by split).
  case_bool_decide as Hs.
  - subst s. exists (S n). injection Hn as ->. by split.
  - exists n. by split.
Qed.

Lemma odict_set_set {V} (d : odict V) k v v' :
  odict_set (odict_set d k v) k v' = odict_set d k v'.
Proof.
  induction d as [|[k0 v0] d IH]; cbn [odict_set].
  - by rewrite decide_True.
  - destruct (decide (k0 = k)) as [->|Hne]; cbn [odict_set].
    + by rewrite decide_True.
    + rewrite decide_False by done. by rewrite IH.
Qed.

Lemma get_images_colors c (pics : pictures) n acc :
  for_each (get_image renderer c pics) (replicate n "Color") acc
  = Ok (if decide (n = 0%nat) then acc
        else odict_set acc "Color"
               (Floats (get_float_texture renderer pics (camera c) "Color"))).
Proof.
  revert acc. induction n as [|n IH]; intros acc; [done|].
  cbn [replicate for_each].
  change (get_image renderer c pics acc "Color")
    with (Ok (odict_set acc "Color"
                (Floats (get_float_texture renderer pics (camera c) "Color")))).
  rewrite Ok_bind, IH. destruct (decide (S n = 0%nat)) as [|_]; [done|].
  case_decide; [done|]. f_equal. apply odict_set_set.
Qed.

(** X18. On the "kuafu" renderer a camera yields its colour image and
    nothing else. Whatever the list or tuple of texture names in the
    configuration holds, known names or not, the runtime camera keeps only
    "Color": [get_images] then never raises, and returns the colour image
    when the configuration lists "Color" and no image at all when it does
    not. *)
Theorem kuafu_camera_yields_color_only (cfg : CameraConfig) (scene scene' : Scene)
    (c : Camera) (pics : pictures) (take : bool) (xs : list pyval) :
  __dict__ cfg !! "texture_names" = Some (PySeq xs) →
  Camera_init cfg scene "kuafu" = Ok (c, scene') →
  ∃ pics',
    Camera_get_images renderer c pics take
    = Ok (if lists_color xs
          then [("Color", Floats (get_float_texture renderer pics'
                                    (camera c) "Color"))]
          else [], pics')
    ∧ pics' = (if take then take_picture renderer (camera c) pics else pics).
Proof.
  unfold Camera_init. intros Hxs H.
  inv_bind H as art Hart. inv_bind H as act Hact. inv_bind H as m Hm.
  inv_bind H as uuid Hu. inv_bind H as width Hw. inv_bind H as height Hh.
  inv_bind H as fov Hf. inv_bind H as near Hn. inv_bind H as far Hfar.
  inv_bind H as p Hp. inv_bind H as q Hq.
  destruct (match m with Some mount => _ | None => _ end) as [ce sc].
  inv_bind H as names Hnames. rewrite decide_True in H by done.
  inv_bind H as tn Htn. injection H as <- <-.
  unfold getattr in Hnames. rewrite Hxs in Hnames. injection Hnames as <-.
  destruct (only_color_names _ _ Htn) as (n & -> & Hiff).
  eexists. split; [|reflexivity].
  unfold Camera_get_images, Camera_take_picture. cbn [renderer_type texture_names camera].
  rewrite decide_False by done.
  rewrite iter_texture_names_strings, Ok_bind, get_images_colors, Ok_bind.
  do 2 f_equal. case_decide as Hz.
  - apply Hiff in Hz. by rewrite Hz.
  - destruct (lists_color xs); [done|]. exfalso. by apply Hz, Hiff.
Qed.
End ReadingCameras.

(** ** Rendering *)

Lemma odict_keys_set_elem {V} (d : odict V) k v k' :
  k' ∈ odict_keys (odict_set d k v) → k' = k ∨ k' ∈ odict_keys d.
Proof.
  unfold odict_keys. induction d as [|[k0 v0] d IH]; cbn [odict_set].
  - intros H. apply list_elem_of_singleton in H. by left.
  - case_decide as Hk.
    + subst k0. rewrite !fmap_cons. simpl. intros H.
      apply elem_of_cons in H as [->|H]; [by left|]. right. by right.
    + rewrite !fmap_cons. simpl. intros H.
      apply elem_of_cons in H as [->|H]; [right; left|].
      destruct (IH H) as [->|?]; [by left|]. right. by right.
Qed.

Section RenderFacts.
Context {rng pictures : Type}.
Context (renderer : Renderer pictures) (viz : Visualization).
Context (task : TaskHooks rng).
Implicit Type self : Env rng.

Lemma get_images_lookup c (pics : pictures) names acc :
  Forall known_texture names →
  ∃ d, for_each (get_image renderer c pics) names acc = Ok d
    ∧ ∀ k, odict_get d k
           = if bool_decide (k ∈ names) then Some (texture_of renderer pics c k)
             else odict_get acc k.
Proof.
  intros Hall. revert acc. induction Hall as [|n names Hn _ IH]; intros acc.
  { exists acc. split; [done|]. intros k.
    rewrite bool_decide_eq_false_2; [done|]. apply not_elem_of_nil. }
  cbn [for_each].
  assert (get_image renderer c pics acc n
          = Ok (odict_set acc n (texture_of renderer pics c n))) as ->.
  { apply known_texture_cases in Hn as [-> | [-> | ->]]; reflexivity. }
  rewrite Ok_bind.
  destruct (IH (odict_set acc n (texture_of renderer pics c n))) as (d & -> & Hd).
  exists d. split; [done|]. intros k. rewrite Hd.
  destruct (decide (k = n)) as [->|Hne].
  - rewrite (bool_decide_eq_true_2 (n ∈ n :: names)) by left.
    case_bool_decide; [done|]. apply odict_get_set_eq.
  - rewrite odict_get_set_ne by done.
    case_bool_decide as H1; case_bool_decide as H2; try done.
    + exfalso. apply H2. by right.
    + exfalso. apply H1. apply elem_of_cons in H2 as [?|?]; done.
Qed.

(** X19. When [render("rgb_array")] works. With a scene and a camera named
    "render_camera" whose texture names are strings, the call returns
    exactly when that camera's renderer is not "client", every one of its
    texture names is Color, Position or Segmentation, and "Color" is among
    them; it then returns the colour image of the picture it has just taken,
    converted to bytes, and leaves the environment as it was. *)
Theorem render_rgb_array_works_iff self (pics : pictures) scene c names :
  _scene self = Some scene →
  odict_get (_cameras self) "render_camera" = Some c →
  texture_names c = PySeq (PyStr <$> names) →
  (is_Ok (render renderer viz self pics "rgb_array")
   ↔ renderer_type c ≠ "client" ∧ Forall known_texture names ∧ "Color" ∈ names)
  ∧ ∀ r self' pics',
      render renderer viz self pics "rgb_array" = Ok (r, self', pics') →
      self' = self
      ∧ pics' = take_picture renderer (camera c) (update_render renderer scene pics)
      ∧ r = AnImage (rgb_to_uint8 viz
                       (Floats (get_float_texture renderer pics' (camera c) "Color"))).
Proof.
  intros Hs Hc Hn. unfold render, render_rgb_array, cameras_getitem.
  rewrite Hs, Hc. cbn [not_None]. rewrite !Ok_bind.
  rewrite decide_False by done. rewrite decide_True by done.
  unfold Camera_get_images, Camera_take_picture.
  set (pics1 := take_picture renderer (camera c) (update_render renderer scene pics)).
  destruct (decide (renderer_type c = "client")) as [Hcl|Hcl].
  { rewrite !Ok_bind. cbn [odict_get]. split; [|done].
    split; [by intros [? ?]|by intros [? _]]. }
  rewrite Hn, iter_texture_names_strings, Ok_bind.
  destruct (decide (Forall known_texture names)) as [Hall|Hall].
  - destruct (get_images_lookup c pics1 names [] Hall) as (d & -> & Hd).
    rewrite !Ok_bind, Hd. cbv zeta. case_bool_decide as Hcolor.
    + rewrite !Ok_bind. split.
      * split; [by intros _|]. intros _. by eexists.
      * intros r self' pics' [= <- <- <-]. done.
    + split; [|done]. split; [by intros [? ?]|]. by intros (_ & _ & ?).
  - destruct (keyed_loops (get_image renderer c pics1) (texture_space c)
                (λ _ _ _, True) KeyError NotImplementedError names [] [])
      as [(Hall' & _)|(name & Hin & Hno & H1 & _)]; try done.
    + intros d name Hk.
      destruct (get_image_known renderer c pics1 d name Hk) as (image & -> & _).
      exists image. split; [done|]. intros d'.
      destruct (texture_space_known c d' name Hk) as (box & -> & _). by exists box.
    + intros d name Hk. by apply get_image_unknown.
    + intros d name Hk. by apply texture_space_unknown.
    + rewrite H1. split; [|done]. split; [by intros [? ?]|]. by intros (_ & ? & _).
Qed.

Lemma setup_cameras_loop_keys cfgs self self' :
  for_each
    (λ self '(uuid, camera_cfg),
       scene ← not_None (_scene self);
       '(c, scene) ← Camera_init camera_cfg scene (_renderer_type (config self));
       Ok (set_scene (set_cameras self (odict_set (_cameras self) uuid c))
             (Some scene)))
    cfgs self = Ok self' →
  _viewer self' = _viewer self
  ∧ ∀ k, k ∈ odict_keys (_cameras self') →
         k ∈ odict_keys (_cameras self) ∨ k ∈ odict_keys cfgs.
Proof.
  revert self. induction cfgs as [|[uuid cfg] cfgs IH]; intros self H.
  { injection H as <-. split; [done|]. by left. }
  cbn [for_each] in H. inv_bind H as s1 H1. inv_bind H1 as sc Hsc.
  inv_bind H1 as cs Hcs. destruct cs as [c sc']. injection H1 as <-.
  destruct (IH _ H) as [Hv Hk]. cbn [_viewer _cameras set_scene set_cameras] in *.
  split; [done|]. intros k Hin. unfold odict_keys at 2. rewrite fmap_cons.
  destruct (Hk k Hin) as [Hin'|Hin']; [|right; by right].
  apply odict_keys_set_elem in Hin' as [->|?]; [right; left|by left].
Qed.

Lemma reconfigure_viewer_cameras self self' :
  reconfigure task self = Ok self' →
  _viewer self' = false
  ∧ ∀ k, k ∈ odict_keys (_cameras self') →
         k ∈ odict_keys (_camera_cfgs (config self)).
Proof.
  intros H. unfold reconfigure in H.
  inv_bind H as s1 H1. inv_bind H as s2 H2. inv_bind H as s3 H3.
  inv_bind H as s4 H4. inv_bind H as s5 H5. inv_bind H as s6 H6.
  inv_bind H as s7 H7. inv_bind H as actors Ha. inv_bind H as arts Hb.
  injection H as <-.
  assert (config (_clear self) = config self ∧ _viewer (_clear self) = false)
    as (Hc0 & Hv0).
  { unfold _clear, _close_viewer. destruct (_viewer self) eqn:E; by split. }
  unfold _setup_scene in H1. case_decide as Hf; [done|]. injection H1 as <-.
  apply run_hook_keeps_setup in H2 as ((Hc2 & _) & _ & _ & _ & _ & Hv2 & _).
  apply run_hook_keeps_setup in H3 as ((Hc3 & _) & _ & _ & _ & _ & Hv3 & _).
  apply run_hook_keeps_setup in H4 as ((Hc4 & _) & _ & _ & _ & _ & Hv4 & _).
  cbn [config set_scene _viewer] in Hc2, Hv2.
  unfold _setup_cameras in H5.
  apply setup_cameras_loop_keys in H5 as [Hv5 Hk5].
  cbn [_viewer _cameras set_cameras config] in Hv5, Hk5.
  unfold _setup_lighting in H6. inv_bind H6 as sc Hsc. injection H6 as <-.
  cbn [_viewer set_scene] in H7.
  rewrite Hv5, Hv4, Hv3, Hv2, Hv0 in H7. injection H7 as <-.
  cbn [_viewer _cameras set_snapshot set_scene]. split; [congruence|].
  intros k Hin. destruct (Hk5 k Hin) as [Hin'|Hin'].
  - by apply elem_of_nil in Hin'.
  - by rewrite Hc4, Hc3, Hc2, Hc0 in Hin'.
Qed.

(** X20. Image rendering needs a camera called "render_camera". After a
    reconfigure the runtime cameras are those of the camera configurations;
    when no configuration is named "render_camera", [render("rgb_array")]
    and [render("cameras")] both raise the [KeyError] of that name, whatever
    other cameras there are. *)
Theorem render_needs_render_camera self self' (pics : pictures) :
  "render_camera" ∉ odict_keys (_camera_cfgs (config self)) →
  reconfigure task self = Ok self' →
  render renderer viz self' pics "rgb_array" = Raise (KeyError "render_camera")
  ∧ render renderer viz self' pics "cameras" = Raise (KeyError "render_camera").
Proof.
  intros Hno Hre.
  destruct (reconfigure_viewer_cameras _ _ Hre) as [_ Hk].
  destruct (reconfigure_snapshot _ _ _ Hre) as (scene & Hs & _).
  assert (odict_get (_cameras self') "render_camera" = None) as Hget.
  { apply odict_get_None. intros Hin. by apply Hno, Hk. }
  unfold render, render_rgb_array, cameras_getitem.
  rewrite Hs, Hget. cbn [not_None]. rewrite !Ok_bind.
  split.
  - rewrite decide_False by done. by rewrite decide_True.
  - do 2 rewrite decide_False by done. by rewrite decide_True.
Qed.

Lemma set_viewer_same self : _viewer self = true → set_viewer self true = self.
Proof. destruct self. simpl. by intros ->. Qed.

(** X21. The viewer window. [render("human")] needs only a scene: it opens
    the viewer if there is none and changes nothing else, so a second call
    changes nothing at all. The viewer does not survive a reconfigure, which
    leaves it closed whatever it rebuilt, nor a [close]. *)
Theorem viewer_lifecycle self (pics pics2 : pictures) scene :
  _scene self = Some scene →
  render renderer viz self pics "human"
  = Ok (TheViewer, set_viewer self true, update_render renderer scene pics)
  ∧ render renderer viz (set_viewer self true) pics2 "human"
    = Ok (TheViewer, set_viewer self true, update_render renderer scene pics2)
  ∧ _viewer (close (set_viewer self true)) = false
  ∧ ∀ self', reconfigure task (set_viewer self true) = Ok self' →
             _viewer self' = false.
Proof.
  intros Hs. split_and!.
  - unfold render. rewrite Hs. cbn [not_None]. rewrite Ok_bind.
    rewrite decide_True by done. destruct (_viewer self) eqn:Hv.
    + by rewrite Ok_bind, set_viewer_same.
    + unfold _setup_viewer. cbn [_scene set_viewer]. by rewrite Hs.
  - unfold render. cbn [_scene set_viewer _viewer]. rewrite Hs. cbn [not_None].
    rewrite Ok_bind. by rewrite decide_True.
  - unfold close, _clear, _close_viewer. done.
  - intros self' Hre. by destruct (reconfigure_viewer_cameras _ _ Hre).
Qed.
End RenderFacts.

(** ** Vectorized environments *)

Section Make.
Context {EnvSpec : Type} (REGISTERED_ENVS : gmap string EnvSpec) (free_port : Z).

Lemma py_in_str m strings : py_in (PyStr m) strings = bool_decide (m ∈ strings).
Proof.
  unfold py_in. induction strings as [|s0 strings IH]; cbn [existsb py_eq_str].
  - by rewrite bool_decide_eq_false_2 by apply not_elem_of_nil.
  - rewrite IH, <- bool_decide_or. apply bool_decide_ext.
    by rewrite elem_of_cons.
Qed.

(** A mode that is neither state-based nor one of the two wrapped modes. *)
Lemma make_other_mode env_id env_spec num_envs address kwargs m :
  REGISTERED_ENVS !! env_id = Some env_spec →
  m ∉ ["state"; "state_dict"; "none"; "rgbd"; "pointcloud"] →
  make REGISTERED_ENVS free_port env_id num_envs address
    (odict_set kwargs "obs_mode" (PyStr m))
  = Ok (mkVecEnv
          (replicate (Z.to_nat num_envs)
             (env_spec, odict_set kwargs "obs_mode" (PyStr "image")))
          (if decide (address = Some "auto") then Localhost free_port
           else from_option Address NoAddress address)
          None None
          (if decide (address = Some "auto") then [Localhost free_port] else [])).
Proof.
  intros Hreg Hm. unfold make. rewrite Hreg, odict_get_set_eq.
  cbn [default from_option id].
  rewrite !elem_of_cons, elem_of_nil in Hm.
  rewrite py_in_str. rewrite bool_decide_eq_false_2
    by (rewrite !elem_of_cons, elem_of_nil; tauto).
  cbn [negb]. rewrite odict_set_set. unfold py_eq_str.
  rewrite !bool_decide_eq_false_2 by tauto.
  by destruct (decide (address = Some "auto")).
Qed.

(** X22. Dispatch of the observation mode in [make]. When [make] returns
    for a registered environment, it has built [num_envs] identical
    environment functions (none for a count that is not positive); their
    keyword arguments are the given ones, except that an observation mode
    other than "state", "state_dict" and "none", a missing one included, is
    replaced by "image". Only "rgbd" and "pointcloud" get a wrapper; every
    other mode, the two robot-segmentation modes included, is built as plain
    "image" environments, so that any two such modes are built alike. *)
Theorem make_dispatches_obs_mode (env_id : string) (env_spec : EnvSpec)
    (num_envs : Z) (address : option string) (kwargs : odict pyval)
    (venv : VecEnv EnvSpec) :
  REGISTERED_ENVS !! env_id = Some env_spec →
  make REGISTERED_ENVS free_port env_id num_envs address kwargs = Ok venv →
  (∃ kwargs',
     env_fns venv = replicate (Z.to_nat num_envs) (env_spec, kwargs')
     ∧ (∀ k, k ≠ "obs_mode" → odict_get kwargs' k = odict_get kwargs k)
     ∧ (∃ m, odict_get kwargs' "obs_mode" = Some (PyStr m)
             ∧ m ∈ ["state"; "state_dict"; "none"; "image"])
     ∧ (wrapper venv = Some RGBDObservationWrapper
        ↔ odict_get kwargs "obs_mode" = Some (PyStr "rgbd"))
     ∧ (wrapper venv = Some PointCloudObservationWrapper
        ↔ odict_get kwargs "obs_mode" = Some (PyStr "pointcloud")))
  ∧ ∀ m1 m2 venv1 venv2,
      m1 ∉ ["state"; "state_dict"; "none"; "rgbd"; "pointcloud"] →
      m2 ∉ ["state"; "state_dict"; "none"; "rgbd"; "pointcloud"] →
      make REGISTERED_ENVS free_port env_id num_envs address
        (odict_set kwargs "obs_mode" (PyStr m1)) = Ok venv1 →
      make REGISTERED_ENVS free_port env_id num_envs address
        (odict_set kwargs "obs_mode" (PyStr m2)) = Ok venv2 →
      venv1 = venv2
      ∧ wrapper venv1 = None
      ∧ env_fns venv1
        = replicate (Z.to_nat num_envs)
            (env_spec, odict_set kwargs "obs_mode" (PyStr "image")).
Proof.
  intros Hreg Hmake. split.
  2:{ intros m1 m2 venv1 venv2 H1 H2.
      rewrite !(make_other_mode _ env_spec) by done.
      intros [= <-] [= <-]. by split_and!. }
  unfold make in Hmake. rewrite Hreg in Hmake. revert Hmake.
  set (obs_mode := default PyNone (odict_get kwargs "obs_mode")).
  set (kwargs' := if negb (py_in obs_mode ["state"; "state_dict"; "none"])
                  then odict_set kwargs "obs_mode" (PyStr "image") else kwargs).
  destruct (if decide (address = Some "auto") then _ else _) as [addr lg].
  assert (∀ k, k ≠ "obs_mode" → odict_get kwargs' k = odict_get kwargs k) as Hother.
  { intros k Hk. subst kwargs'. destruct (negb _); [|done].
    by rewrite odict_get_set_ne. }
  assert (∃ m, odict_get kwargs' "obs_mode" = Some (PyStr m)
               ∧ m ∈ ["state"; "state_dict"; "none"; "image"]) as Hmode.
  { subst kwargs'. destruct (py_in obs_mode _) eqn:Hin; cbn [negb].
    - subst obs_mode. destruct (odict_get kwargs "obs_mode") as [[| | | |s| |]|];
        try discriminate Hin.
      exists s. split; [done|]. cbn [default from_option id] in Hin. rewrite py_in_str in Hin.
      apply bool_decide_eq_true in Hin.
      rewrite !elem_of_cons, elem_of_nil in Hin. rewrite !elem_of_cons. tauto.
    - exists "image". rewrite odict_get_set_eq. split; [done|].
      rewrite !elem_of_cons. tauto. }
  assert (∀ m, py_eq_str obs_mode m = true
               ↔ odict_get kwargs "obs_mode" = Some (PyStr m)) as Heq.
  { intros m. subst obs_mode.
    destruct (odict_get kwargs "obs_mode") as [[| | | |s| |]|]; cbn;
      try (split; intros; discriminate).
    rewrite bool_decide_eq_true. split; [by intros ->|by intros [= ->]]. }
  destruct (py_eq_str obs_mode "rgbd") eqn:E1;
    [|destruct (py_eq_str obs_mode "pointcloud") eqn:E2].
  all: intros [= <-]; exists kwargs'; cbn [env_fns wrapper].
  all: split; [done|]; split; [done|]; split; [done|].
  all: rewrite <- !Heq, ?E1, ?E2.
  - split; [done|]. split; [done|]. intros E2. apply Heq in E1, E2. congruence.
  - split; split; done.
  - split; split; done.
Qed.
End Make.

Section MakeAndInit.
Context {rng EnvSpec : Type}.
Context (RandomState : Z → rng) (randint : Z → rng → Z * rng).
Context (engine : Engine) (agents : AgentModel) (task : TaskHooks rng).
Context (REGISTERED_ENVS : gmap string EnvSpec) (free_port : Z).

(** X23. [make] and the constructor of [BaseEnv] do not agree on the
    observation modes. For every requested mode other than "state",
    "state_dict" and "none" (or none requested), each environment function
    that [make] builds carries [obs_mode="image"]; and the constructor of
    [BaseEnv], given that mode, raises whatever the task hooks and the
    other arguments are: "image" is not in the [SUPPORTED_OBS_MODES] of
    [BaseEnv]. With a supported renderer and a nonzero control frequency
    the error is [NotImplementedError("Unsupported obs mode: image")]. *)
Theorem image_mode_is_rejected (env_id : string) (num_envs : Z)
    (address : option string) (kwargs : odict pyval) (venv : VecEnv EnvSpec)
    (args : Args) :
  make REGISTERED_ENVS free_port env_id num_envs address kwargs = Ok venv →
  py_in (default PyNone (odict_get kwargs "obs_mode"))
    ["state"; "state_dict"; "none"] = false →
  obs_mode args = Some "image" →
  (∀ fn, fn ∈ env_fns venv → odict_get fn.2 "obs_mode" = Some (PyStr "image"))
  ∧ raises (BaseEnv_init RandomState randint engine agents task args)
  ∧ (renderer_type_arg args ∈ ["vulkan"; "kuafu"] → control_freq args ≠ 0 →
     BaseEnv_init RandomState randint engine agents task args
     = Raise (NotImplementedError "Unsupported obs mode: image")).
Proof.
  intros Hmake Hin Hargs. split.
  { unfold make in Hmake. destruct (REGISTERED_ENVS !! env_id) as [sp|]; [|done].
    rewrite Hin in Hmake. cbn [negb] in Hmake.
    destruct (if decide (address = Some "auto") then _ else _) as [addr lg].
    intros fn Hfn.
    assert (fn = (sp, odict_set kwargs "obs_mode" (PyStr "image"))) as ->.
    { repeat (destruct (py_eq_str _ _)); injection Hmake as <-;
        cbn [env_fns] in Hfn; by apply elem_of_replicate in Hfn as [-> _]. }
    apply odict_get_set_eq. }
  unfold BaseEnv_init. rewrite Hargs. cbn [default from_option id].
  assert (bool_decide ("image" ∈ SUPPORTED_OBS_MODES) = false) as Himg
    by (vm_compute; reflexivity).
  destruct (decide (renderer_type_arg args = "vulkan")) as [Hv|Hv];
    [|destruct (decide (renderer_type_arg args = "kuafu")) as [Hk|Hk]].
  3:{ split; [by eexists|]. intros Hr.
      apply elem_of_cons in Hr as [?|Hr]; [done|].
      by apply list_elem_of_singleton in Hr. }
  all: rewrite Ok_bind; unfold set_frequencies;
    destruct (decide (control_freq args = 0)) as [Hz|Hz];
    [split; [by eexists|]; by intros _ ?|];
    rewrite Ok_bind, Himg; cbn [negb]; split; [by eexists|done].
Qed.
End MakeAndInit.

(** ** Further runs of the sample task *)

Lemma unseeded_resets_follow_main_rng_witness :
  ∃ r, _main_rng (seeds sample_env) = Some r
    ∧ _episode_seed (seeds episode_1.2) = Some (sample_randint (2 ^ 32) r).1
    ∧ _episode_seed (seeds episode_2.2) = Some 7
    ∧ _main_rng (seeds episode_2.2) = _main_rng (seeds episode_1.2)
    ∧ _episode_seed (seeds episode_3.2)
      = Some (sample_randint (2 ^ 32) (sample_randint (2 ^ 32) r).2).1
    ∧ _main_rng (seeds episode_3.2)
      = Some (sample_randint (2 ^ 32) (sample_randint (2 ^ 32) r).2).2.
Proof.
  apply (unseeded_resets_follow_main_rng sample_RandomState sample_randint
           sample_engine sample_agents sample_task sample_env 7
           false true false episode_1.1 episode_1.2 episode_2.1 episode_2.2
           episode_3.1 episode_3.2); vm_compute; reflexivity.
Defined.

Lemma restore_saved_state_witness : set_state sample_env sample_state = Ok sample_env.
Proof.
  apply (restore_saved_state sample_env sample_scene sample_state).
  - vm_compute. reflexivity.
  - split; vm_compute; repeat constructor.
  - vm_compute. reflexivity.
Defined.

Lemma sample_evaluate_keys :
  ∀ (sim : Sim) ev, evaluate sample_task sim = Ok ev → NoDup (odict_keys ev).
Proof. intros sim ev [= <-]. apply NoDup_singleton. Qed.

Lemma step_bookkeeping_witness :
  _elapsed_steps sample_step.2 = _elapsed_steps sample_env + 1
  ∧ config sample_step.2 = config sample_env
  ∧ _cameras sample_step.2 = _cameras sample_env
  ∧ _actors sample_step.2 = _actors sample_env
  ∧ _articulations sample_step.2 = _articulations sample_env
  ∧ ∃ ev, task_evaluate sample_task sample_step.2 = Ok ev
      ∧ (∀ k v, odict_get ev k = Some v → odict_get sample_step.1.2 k = Some v)
      ∧ (odict_get ev "elapsed_steps" = None →
         odict_get sample_step.1.2 "elapsed_steps"
         = Some (PyInt (_elapsed_steps sample_env + 1))).
Proof.
  apply (step_bookkeeping sample_engine sample_agents sample_task sample_env
           NoAction sample_step.1.1.1.1 sample_step.1.1.1.2 sample_step.1.1.2
           sample_step.1.2 sample_step.2).
  - exact sample_evaluate_keys.
  - vm_compute. reflexivity.
Defined.

Lemma sparse_reward_agrees_with_done_witness :
  sparse_step.1.1.2 = false ∧ sparse_step.1.1.1.2 = 0%Q.
Proof.
  apply (sparse_reward_agrees_with_done sample_engine sample_agents sample_task
           sparse_env NoAction sparse_step.1.1.1.1 sparse_step.1.1.1.2
           sparse_step.1.1.2 sparse_step.1.2 sparse_step.2 false).
  - exact sample_evaluate_keys.
  - vm_compute. reflexivity.
  - vm_compute. reflexivity.
  - vm_compute. reflexivity.
Defined.

Lemma BaseEnv_is_abstract_witness :
  BaseEnv_init sample_RandomState sample_randint sample_engine sample_agents
    BaseEnv_hooks (sample_args "state" 500 20)
  = Raise (NotImplementedError "").
Proof.
  destruct (BaseEnv_is_abstract sample_RandomState sample_randint sample_engine
              sample_agents (sample_args "state" 500 20)) as (e & -> & He).
  f_equal. apply He.
  - apply elem_of_cons. by left.
  - done.
  - vm_compute. apply elem_of_cons. by left.
  - vm_compute. apply elem_of_cons. by left.
Defined.

Lemma step_needs_task_methods_witness :
  raises (step sample_engine sample_agents unfinished_task sample_env NoAction).
Proof.
  apply (proj1 (step_needs_task_methods sample_engine sample_agents
                  unfinished_task sample_env NoAction)).
  intros sim. reflexivity.
Defined.

Lemma configuration_is_fixed_witness :
  config episode_1.2 = config sample_env
  ∧ _renderer_type (config sample_env) ∈ ["vulkan"; "kuafu"]
  ∧ _obs_mode (config sample_env) ∈ SUPPORTED_OBS_MODES
  ∧ _reward_mode (config sample_env) ∈ SUPPORTED_REWARD_MODES
  ∧ _sim_freq (config sample_env) ≠ 0
  ∧ _control_freq (config sample_env) ≠ 0
  ∧ _sim_steps_per_control (config sample_env)
    = _sim_freq (config sample_env) `div` _control_freq (config sample_env)
  ∧ _set_agent_cfg sample_task = Ok (_agent_cfg (config sample_env))
  ∧ _camera_cfgs (config sample_env)
    = _set_camera_cfgs sample_task (_agent_cfg (config sample_env))
        (camera_cfgs (sample_args "state" 500 20)).
Proof.
  apply (configuration_is_fixed sample_RandomState sample_randint sample_engine
           sample_agents sample_task (sample_args "state" 500 20)
           sample_env episode_1.2).
  - vm_compute. reflexivity.
  - apply (reach_reset _ _ _ _ _ sample_env sample_env None false episode_1.1).
    + apply reach_here.
    + vm_compute. reflexivity.
Defined.

Lemma sample_camera_cfgs_NoDup :
  NoDup (odict_keys (_camera_cfgs (config sample_env))).
Proof.
  vm_compute. apply NoDup_cons. split; [|apply NoDup_singleton].
  intros H. apply list_elem_of_singleton in H. discriminate H.
Qed.

Lemma reconfigure_builds_fresh_scene_witness :
  _viewer sample_env1 = false
  ∧ config sample_env1 = config sample_env
  ∧ _elapsed_steps sample_env1 = _elapsed_steps sample_env
  ∧ ∃ scene,
      _scene sample_env1 = Some scene
      ∧ sim_ticks scene = 0%nat
      ∧ scene_timestep scene = (1 / inject_Z (_sim_freq (config sample_env)))%Q
      ∧ scene_lights scene
        = [AmbientLight; DirectionalLight (enable_shadow (config sample_env));
           DirectionalLight false]
      ∧ scene_cameras scene = camera <$> odict_values (_cameras sample_env1)
      ∧ Forall2 (λ kc kcfg, kc.1 = kcfg.1 ∧ camera_cfg kc.2 = kcfg.2
                            ∧ renderer_type kc.2 = _renderer_type (config sample_env)
                            ∧ cam_mount (camera kc.2) = actor kc.2)
          (_cameras sample_env1) (_camera_cfgs (config sample_env)).
Proof.
  apply (reconfigure_builds_fresh_scene sample_task sample_env sample_env1).
  - exact sample_camera_cfgs_NoDup.
  - vm_compute. reflexivity.
Defined.

Lemma soft_reset_keeps_poses_witness :
  _elapsed_steps moved_reset.2 = 0
  ∧ agent moved_reset.2 = agent moved_env
  ∧ _cameras moved_reset.2 = _cameras moved_env
  ∧ _actors moved_reset.2 = _actors moved_env
  ∧ _articulations moved_reset.2 = _articulations moved_env
  ∧ ∃ scene',
      _scene moved_reset.2 = Some scene'
      ∧ sim_ticks scene' = sim_ticks moved_scene
      ∧ scene_cameras scene' = scene_cameras moved_scene
      ∧ Forall2 (λ a a',
           actor_name a' = actor_name a ∧ actor_pose a' = actor_pose a
           ∧ (actor_type a = static → a' = a)
           ∧ (actor_type a ≠ static →
              actor_velocity a' = zero3 ∧ actor_angular_velocity a' = zero3))
          (all_actors (world moved_scene)) (all_actors (world scene'))
      ∧ Forall2 (λ a a',
           articulation_name a' = articulation_name a
           ∧ root_pose a' = root_pose a
           ∧ get_qpos a' = get_qpos a
           ∧ get_qvel a' = replicate (dof a) 0%Q
           ∧ root_velocity a' = zero3 ∧ root_angular_velocity a' = zero3)
          (all_articulations (world moved_scene)) (all_articulations (world scene')).
Proof.
  apply (soft_reset_keeps_poses sample_RandomState sample_randint sample_engine
           sample_agents sample_task moved_env (Some 42) moved_reset.1
           moved_reset.2 moved_scene).
  - reflexivity.
  - reflexivity.
  - reflexivity.
  - reflexivity.
  - vm_compute. reflexivity.
  - vm_compute. reflexivity.
Defined.

Lemma unmentioned_attributes_are_kept_witness :
  odict_keys merged_cameras = odict_keys two_cameras
  ∧ ∀ name cfg, odict_get two_cameras name = Some cfg →
      ∃ cfg', odict_get merged_cameras name = Some cfg'
        ∧ ∀ k,
            (odict_get near_overrides k = None ∨ odict_has two_cameras k = true) →
            (∀ block, odict_get near_overrides name = Some (PyDict block) →
                      odict_get block k = None) →
            __dict__ cfg' !! k = __dict__ cfg !! k.
Proof.
  apply (unmentioned_attributes_are_kept two_cameras near_overrides merged_cameras).
  - exact near_overrides_well_formed.
  - vm_compute. reflexivity.
Defined.

Lemma two_cameras_NoDup : NoDup (odict_keys two_cameras).
Proof.
  vm_compute. apply NoDup_cons. split; [|apply NoDup_singleton].
  intros H. apply list_elem_of_singleton in H. discriminate H.
Qed.

Lemma merging_twice_is_merging_once_witness :
  update_camera_cfgs_from_dict merged_cameras near_overrides = (merged_cameras, None).
Proof.
  apply (merging_twice_is_merging_once two_cameras near_overrides merged_cameras).
  - exact near_overrides_well_formed.
  - exact two_cameras_NoDup.
  - vm_compute. reflexivity.
Defined.

Lemma parse_sequence_last_wins_witness :
  ∃ d, parse_camera_cfgs (CfgSeq three_cfgs) = Ok d
    ∧ NoDup (odict_keys d)
    ∧ ∀ u, odict_get d u = last (List.filter (has_uuid u) three_cfgs).
Proof.
  apply (parse_sequence_last_wins three_cfgs).
  repeat constructor; eexists; vm_compute; reflexivity.
Defined.

Lemma parse_forms_agree_witness :
  parse_camera_cfgs (CfgSeq (odict_values two_cameras)) = Ok two_cameras
  ∧ parse_camera_cfgs (CfgDict two_cameras) = Ok two_cameras.
Proof.
  apply (parse_forms_agree two_cameras).
  - exact two_cameras_NoDup.
  - repeat constructor; vm_compute; reflexivity.
Defined.

Lemma images_match_observation_space_witness :
  (Forall known_texture ["Color"; "Position"]
   ∧ ∃ images pics' spaces,
       Camera_get_images sample_renderer thumbnail_camera () true
       = Ok (images, pics')
       ∧ Camera_observation_space thumbnail_camera = Ok spaces
       ∧ odict_keys images = odict_keys spaces
       ∧ ∀ name image box,
           odict_get images name = Some image →
           odict_get spaces name = Some box →
           dtype box = tensor_dtype image
           ∧ box_shape box = tensor_shape image
           ∧ box_shape box
             = [cam_height (camera thumbnail_camera);
                cam_width (camera thumbnail_camera); PyInt 4])
  ∨ (∃ name, name ∈ ["Color"; "Position"] ∧ ¬ known_texture name
       ∧ Camera_get_images sample_renderer thumbnail_camera () true
         = Raise (KeyError name)
       ∧ Camera_observation_space thumbnail_camera
         = Raise (NotImplementedError name)).
Proof.
  apply (images_match_observation_space sample_renderer thumbnail_camera () true
           ["Color"; "Position"]).
  - vm_compute. reflexivity.
  - vm_compute. discriminate.
  - intros pics name. split; vm_compute; reflexivity.
Defined.

Lemma kuafu_camera_yields_color_only_witness :
  ∃ pics',
    Camera_get_images sample_renderer kuafu_hand_camera.1 () false
    = Ok (if lists_color [PyStr "Color"; PyStr "Position"]
          then [("Color", Floats (get_float_texture sample_renderer pics'
                                    (camera kuafu_hand_camera.1) "Color"))]
          else [], pics')
    ∧ pics' = ().
Proof.
  apply (kuafu_camera_yields_color_only sample_renderer
           (sample_camera_cfg "hand_camera" (PyStr "robot") (PyStr "hand"))
           sample_scene kuafu_hand_camera.2 kuafu_hand_camera.1 () false
           [PyStr "Color"; PyStr "Position"]).
  - vm_compute. reflexivity.
  - vm_compute. reflexivity.
Defined.

Lemma render_rgb_array_works_iff_witness :
  (is_Ok (render sample_renderer sample_viz render_env () "rgb_array")
   ↔ renderer_type render_camera ≠ "client"
     ∧ Forall known_texture ["Color"; "Position"]
     ∧ "Color" ∈ ["Color"; "Position"])
  ∧ ∀ r self' pics',
      render sample_renderer sample_viz render_env () "rgb_array"
      = Ok (r, self', pics') →
      self' = render_env
      ∧ pics' = take_picture sample_renderer (camera render_camera)
                  (update_render sample_renderer sample_scene ())
      ∧ r = AnImage (rgb_to_uint8 sample_viz
                       (Floats (get_float_texture sample_renderer pics'
                                  (camera render_camera) "Color"))).
Proof.
  apply (render_rgb_array_works_iff sample_renderer sample_viz render_env ()
           sample_scene render_camera ["Color"; "Position"]).
  - vm_compute. reflexivity.
  - vm_compute. reflexivity.
  - reflexivity.
Defined.

Lemma render_needs_render_camera_witness :
  render sample_renderer sample_viz sample_env1 () "rgb_array"
  = Raise (KeyError "render_camera")
  ∧ render sample_renderer sample_viz sample_env1 () "cameras"
    = Raise (KeyError "render_camera").
Proof.
  apply (render_needs_render_camera sample_renderer sample_viz sample_task
           sample_env sample_env1 ()).
  - vm_compute. intros H.
    apply elem_of_cons in H as [H|H]; [discriminate H|].
    apply list_elem_of_singleton in H. discriminate H.
  - vm_compute. reflexivity.
Defined.

Lemma viewer_lifecycle_witness :
  render sample_renderer sample_viz sample_env () "human"
  = Ok (TheViewer, set_viewer sample_env true,
        update_render sample_renderer sample_scene ())
  ∧ render sample_renderer sample_viz (set_viewer sample_env true) () "human"
    = Ok (TheViewer, set_viewer sample_env true,
          update_render sample_renderer sample_scene ())
  ∧ _viewer (close (set_viewer sample_env true)) = false
  ∧ ∀ self', reconfigure sample_task (set_viewer sample_env true) = Ok self' →
             _viewer self' = false.
Proof.
  apply (viewer_lifecycle sample_renderer sample_viz sample_task sample_env
           () () sample_scene).
  vm_compute. reflexivity.
Defined.

Lemma make_dispatches_obs_mode_witness :
  ∃ kwargs',
    env_fns sample_venv = replicate (Z.to_nat 2) ("PickCubeEnv", kwargs')
    ∧ (∀ k, k ≠ "obs_mode" →
            odict_get kwargs' k
            = odict_get [("obs_mode", PyStr "rgbd_robot_seg")] k)
    ∧ (∃ m, odict_get kwargs' "obs_mode" = Some (PyStr m)
            ∧ m ∈ ["state"; "state_dict"; "none"; "image"])
    ∧ (wrapper sample_venv = Some RGBDObservationWrapper
       ↔ odict_get [("obs_mode", PyStr "rgbd_robot_seg")] "obs_mode"
         = Some (PyStr "rgbd"))
    ∧ (wrapper sample_venv = Some PointCloudObservationWrapper
       ↔ odict_get [("obs_mode", PyStr "rgbd_robot_seg")] "obs_mode"
         = Some (PyStr "pointcloud")).
Proof.
  apply (proj1 (make_dispatches_obs_mode sample_registry 5000 "PickCube-v0"
                  "PickCubeEnv" 2 (Some "auto")
                  [("obs_mode", PyStr "rgbd_robot_seg")] sample_venv
                  eq_refl eq_refl)).
Defined.

Lemma image_mode_is_rejected_witness :
  (∀ fn, fn ∈ env_fns sample_venv → odict_get fn.2 "obs_mode" = Some (PyStr "image"))
  ∧ raises (BaseEnv_init sample_RandomState sample_randint sample_engine
              sample_agents sample_task (sample_args "image" 500 20))
  ∧ (renderer_type_arg (sample_args "image" 500 20) ∈ ["vulkan"; "kuafu"] →
     control_freq (sample_args "image" 500 20) ≠ 0 →
     BaseEnv_init sample_RandomState sample_randint sample_engine sample_agents
       sample_task (sample_args "image" 500 20)
     = Raise (NotImplementedError "Unsupported obs mode: image")).
Proof.
  apply (image_mode_is_rejected sample_RandomState sample_randint sample_engine
           sample_agents sample_task sample_registry 5000 "PickCube-v0" 2
           (Some "auto") [("obs_mode", PyStr "rgbd_robot_seg")] sample_venv
           (sample_args "image" 500 20)).
  - vm_compute. reflexivity.
  - vm_compute. reflexivity.
  - reflexivity.
Defined.

Lemma mount_follows_configuration_witness :
  same_stage sample_scene hand_camera.2
  ∧ scene_cameras hand_camera.2
    = scene_cameras sample_scene ++ [camera hand_camera.1]
  ∧ cam_mount (camera hand_camera.1) = actor hand_camera.1
  ∧ (__dict__ (sample_camera_cfg "hand_camera" (PyStr "robot") (PyStr "hand"))
       !! "actor_uuid" = Some PyNone → actor hand_camera.1 = None)
  ∧ (∀ h, actor hand_camera.1 = Some (FreeActor h) →
       __dict__ (sample_camera_cfg "hand_camera" (PyStr "robot") (PyStr "hand"))
         !! "articulation_uuid" = Some PyNone
       ∧ ∃ a, all_actors (world sample_scene) !! h = Some a
           ∧ __dict__ (sample_camera_cfg "hand_camera" (PyStr "robot") (PyStr "hand"))
               !! "actor_uuid" = Some (PyStr (actor_name a)))
  ∧ (∀ h l, actor hand_camera.1 = Some (LinkOf h l) →
       ∃ a lk, all_articulations (world sample_scene) !! h = Some a
         ∧ links a !! l = Some lk
         ∧ __dict__ (sample_camera_cfg "hand_camera" (PyStr "robot") (PyStr "hand"))
             !! "articulation_uuid" = Some (PyStr (articulation_name a))
         ∧ __dict__ (sample_camera_cfg "hand_camera" (PyStr "robot") (PyStr "hand"))
             !! "actor_uuid" = Some (PyStr (link_name lk))).
Proof.
  apply (mount_follows_configuration
           (sample_camera_cfg "hand_camera" (PyStr "robot") (PyStr "hand"))
           sample_scene hand_camera.2 "vulkan" hand_camera.1).
  vm_compute. reflexivity.
Defined.
